(** * The CVODES simulation driver of myokit_beta: model and verification

    Shallow embedding of [src/myokit_beta/_sim/_cvodessim.c]: the generated
    [Model] object (an LR1991-like cell model), the Python-facing driver
    ([sim_init], [sim_step], [sim_clean], [sim_eval_derivatives]) and the
    properties of the driver that the specification states.

    Conventions.
    - A C [double] ([realtype]; the driver refuses any other SUNDIALS
      precision) is a primitive binary64 float: [+ - * /], [sqrt], [fabs] and
      the comparisons are the IEEE operations, so NaN, infinities and rounding
      behave as in the C program.
    - A C [int] or [long] is a [Z]. [ilog] (a [Py_ssize_t] whose wrap-around
      the source tests for) wraps explicitly.
    - Undefined behaviour of the C program (a NULL dereference, an index
      outside an allocated block) is the outcome [Undefined].
    - [libm], the CVODES integrator, the pacing systems of [pacing.h] and the
      Python host are external: they are the fields of a [World]. *)

From Stdlib Require Import ZArith Floats Lia List String Bool.
From stdpp Require Import base option list gmap strings.

Set Warnings "-register-all,-inexact-float,-notation-overridden".

Open Scope Z_scope.

(** ** C doubles *)

Definition realtype := float.

(** Order facts on the specification floats behind the primitive ones. *)

Ltac sf_cmp :=
  repeat match goal with
  | H : context [Z.compare ?a ?b] |- _ =>
      destruct (Z.compare_spec a b); simpl in H
  | H : context [PosDef.Pos.compare_cont Eq ?a ?b] |- _ =>
      change (PosDef.Pos.compare_cont Eq a b) with (Pos.compare a b) in H;
      destruct (Pos.compare_spec a b); simpl in H
  | |- context [Z.compare ?a ?b] =>
      destruct (Z.compare_spec a b); simpl
  | |- context [PosDef.Pos.compare_cont Eq ?a ?b] =>
      change (PosDef.Pos.compare_cont Eq a b) with (Pos.compare a b);
      destruct (Pos.compare_spec a b); simpl
  end.

Definition SFle (x y : spec_float) : Prop :=
  match SFcompare x y with Some Lt | Some Eq => True | _ => False end.

Lemma SFcompare_antisym x y c :
  SFcompare x y = Some c -> SFcompare y x = Some (CompOpp c).
Proof.
  destruct x as [[]|[]| |[] m1 e1], y as [[]|[]| |[] m2 e2]; simpl; intros H;
    try discriminate; try (injection H as <-; reflexivity);
    injection H as <-; sf_cmp; subst; try reflexivity; try lia.
Qed.

Lemma SFle_trans x y z : SFle x y -> SFle y z -> SFle x z.
Proof.
  unfold SFle.
  destruct x as [[]|[]| |[] m1 e1], y as [[]|[]| |[] m2 e2],
           z as [[]|[]| |[] m3 e3];
    simpl; intros H1 H2; try exact I; try contradiction;
    sf_cmp; subst; try exact I; try contradiction; try lia.
Qed.

Lemma SFlt_le_trans x y z :
  SFcompare x y = Some Lt -> SFle y z -> SFcompare x z = Some Lt.
Proof.
  unfold SFle.
  destruct x as [[]|[]| |[] m1 e1], y as [[]|[]| |[] m2 e2],
           z as [[]|[]| |[] m3 e3];
    simpl; intros H1 H2; try reflexivity; try contradiction;
    try discriminate;
    sf_cmp; subst; try reflexivity; try contradiction; try discriminate;
    try lia.
Qed.

Lemma SFcompare_total x y :
  SFcompare x y = None -> SFcompare x x = None \/ SFcompare y y = None.
Proof.
  destruct x as [[]|[]| |[] m1 e1], y as [[]|[]| |[] m2 e2]; simpl;
    intros H; try discriminate; auto.
Qed.

Lemma SFcompare_refl_some x c : SFcompare x x = Some c -> c = Eq.
Proof.
  destruct x as [[]|[]| |[] m1 e1]; simpl; intros H; try discriminate;
    injection H as <-; try reflexivity;
    rewrite Z.compare_refl;
    change (PosDef.Pos.compare_cont Eq m1 m1) with (Pos.compare m1 m1);
    rewrite Pos.compare_refl; reflexivity.
Qed.

(** The C comparisons. [a < b] is [(a <? b)%float], [a <= b] is
    [(a <=? b)%float], [a == b] is [(a =? b)%float]; [a > b] and [a >= b]
    swap the operands. A value is ordered when it is not a NaN. *)

Definition ordered (x : realtype) : Prop := (x =? x)%float = true.

Lemma leb_le x y : (x <=? y)%float = true <-> SFle (Prim2SF x) (Prim2SF y).
Proof.
  rewrite leb_spec. unfold SFleb, SFle.
  destruct (SFcompare _ _) as [[]|]; intuition congruence.
Qed.

Lemma ltb_lt x y :
  (x <? y)%float = true <-> SFcompare (Prim2SF x) (Prim2SF y) = Some Lt.
Proof.
  rewrite ltb_spec. unfold SFltb.
  destruct (SFcompare _ _) as [[]|]; intuition congruence.
Qed.

Lemma eqb_eq x y :
  (x =? y)%float = true <-> SFcompare (Prim2SF x) (Prim2SF y) = Some Eq.
Proof.
  rewrite FloatAxioms.eqb_spec. unfold SFeqb.
  destruct (SFcompare _ _) as [[]|]; intuition congruence.
Qed.

Lemma ordered_cmp x :
  ordered x <-> SFcompare (Prim2SF x) (Prim2SF x) = Some Eq.
Proof. apply eqb_eq. Qed.

Lemma leb_ordered_l x y : (x <=? y)%float = true -> ordered x.
Proof.
  rewrite leb_le, ordered_cmp. unfold SFle. intros H.
  destruct (SFcompare (Prim2SF x) (Prim2SF x)) as [c|] eqn:E.
  - apply SFcompare_refl_some in E. now subst.
  - destruct (Prim2SF x) as [[]|[]| |[] ? ?]; simpl in *;
      try discriminate; contradiction.
Qed.

Lemma leb_ordered_r x y : (x <=? y)%float = true -> ordered y.
Proof.
  rewrite leb_le, ordered_cmp. unfold SFle. intros H.
  destruct (SFcompare (Prim2SF y) (Prim2SF y)) as [c|] eqn:E.
  - apply SFcompare_refl_some in E. now subst.
  - destruct (Prim2SF y) as [[]|[]| |[] ? ?], (Prim2SF x) as [[]|[]| |[] ? ?];
      simpl in *; try discriminate; contradiction.
Qed.

Lemma leb_refl x : ordered x -> (x <=? x)%float = true.
Proof.
  rewrite ordered_cmp, leb_le. unfold SFle. now intros ->.
Qed.

Lemma leb_trans x y z :
  (x <=? y)%float = true -> (y <=? z)%float = true -> (x <=? z)%float = true.
Proof. rewrite !leb_le. apply SFle_trans. Qed.

Lemma leb_antisym x y :
  (x <=? y)%float = true -> (y <=? x)%float = true -> (x =? y)%float = true.
Proof.
  rewrite !leb_le, eqb_eq. unfold SFle. intros H1 H2.
  destruct (SFcompare (Prim2SF x) (Prim2SF y)) as [c|] eqn:E; [|contradiction].
  apply SFcompare_antisym in E. rewrite E in H2.
  destruct c; simpl in *; try reflexivity; contradiction.
Qed.

Lemma ltb_leb x y : (x <? y)%float = true -> (x <=? y)%float = true.
Proof. rewrite ltb_lt, leb_le. unfold SFle. now intros ->. Qed.

Lemma ltb_leb_trans x y z :
  (x <? y)%float = true -> (y <=? z)%float = true -> (x <? z)%float = true.
Proof. rewrite !ltb_lt, leb_le. apply SFlt_le_trans. Qed.

Lemma not_ltb_leb x y :
  ordered x -> ordered y -> (y <? x)%float = false -> (x <=? y)%float = true.
Proof.
  rewrite !ordered_cmp, leb_le. intros Hx Hy H.
  assert (N : SFcompare (Prim2SF y) (Prim2SF x) <> Some Lt).
  { intros E. apply ltb_lt in E. congruence. }
  unfold SFle.
  destruct (SFcompare (Prim2SF x) (Prim2SF y)) as [c|] eqn:E.
  - destruct c; try exact I. apply SFcompare_antisym in E. now apply N.
  - apply SFcompare_total in E. destruct E; congruence.
Qed.

Lemma ltb_irrefl_leb x y :
  (x <=? y)%float = true -> (y <? x)%float = false.
Proof.
  rewrite leb_le. unfold SFle. intros H.
  destruct (y <? x)%float eqn:E; [|reflexivity].
  apply ltb_lt in E. apply SFcompare_antisym in E. rewrite E in H.
  contradiction.
Qed.

(** [fmin] of C99: a NaN operand is ignored, otherwise the smaller operand
    (the first one when they compare equal). [fabs] is the IEEE absolute
    value. *)

Definition fmin (x y : realtype) : realtype :=
  if is_nan x then y
  else if is_nan y then x
  else if (y <? x)%float then y else x.

Definition fabs (x : realtype) : realtype := PrimFloat.abs x.

(** [(double) n] for an integer [n]: the nearest double, ties to even. *)

Definition Z2float (z : Z) : realtype :=
  SF2Prim (binary_normalize prec emax z 0 false).

(** [Py_ssize_t] and C [long] are 64 bits wide; [wrap64] is the two's
    complement wrap-around of an increment past the largest value. *)

Definition wrap64 (z : Z) : Z := (z + 2 ^ 63) mod 2 ^ 64 - 2 ^ 63.

(** C [int] is 32 bits wide. *)
Definition wrap32 (z : Z) : Z := (z + 2 ^ 31) mod 2 ^ 32 - 2 ^ 31.

Lemma is_nan_ordered x : is_nan x = false <-> ordered x.
Proof.
  unfold is_nan, ordered. destruct (x =? x)%float; simpl; intuition congruence.
Qed.

Lemma fmin_le_l x y : ordered x -> (fmin x y <=? x)%float = true.
Proof.
  intros Hx. unfold fmin.
  destruct (is_nan x) eqn:Nx.
  { apply is_nan_ordered in Hx. congruence. }
  destruct (is_nan y) eqn:Ny; [now apply leb_refl|].
  destruct (y <? x)%float eqn:E; [now apply ltb_leb | now apply leb_refl].
Qed.

Lemma fmin_ordered x y : ordered x -> ordered (fmin x y).
Proof.
  intros Hx. unfold fmin.
  destruct (is_nan x) eqn:Nx.
  { apply is_nan_ordered in Hx. congruence. }
  destruct (is_nan y) eqn:Ny; [assumption|].
  destruct (y <? x)%float; [now apply is_nan_ordered | assumption].
Qed.

(** ** Outcomes of a C function

    A function of the driver either returns ([Ok]), returns NULL with a Python
    exception set ([Raise]), has undefined behaviour, or (for the model of a
    loop) exhausts the fuel of the loop. *)

Inductive PyExc :=
| PyExc_Exception | PyExc_TypeError | PyExc_ValueError
| PyExc_ArithmeticError | PyExc_OverflowError | PyExc_Interrupt.

(** The exception a failing call leaves set. *)
Inductive sim_error :=
| Err_msg (ty : PyExc) (msg : string)   (* PyErr_SetString / sim_cleanx *)
| Err_model (flag : Z)                  (* Model_SetPyErr *)
| Err_cvode (fn : string) (flag : Z)    (* check_cvode_flag *)
| Err_esys (flag : Z)                   (* ESys_SetPyErr *)
| Err_fsys (flag : Z)                   (* FSys_SetPyErr *)
| Err_signal.                           (* PyErr_CheckSignals *)

Inductive outcome (St A : Type) : Type :=
| Ok (a : A) (s : St)
| Raise (e : sim_error) (s : St)
| Undefined
| OutOfFuel.
Arguments Ok {St A} a s.
Arguments Raise {St A} e s.
Arguments Undefined {St A}.
Arguments OutOfFuel {St A}.

Definition M (St A : Type) : Type := St -> outcome St A.

Definition ret {St A} (a : A) : M St A := fun s => Ok a s.

Definition bind {St A B} (m : M St A) (k : A -> M St B) : M St B :=
  fun s => match m s with
           | Ok a s' => k a s'
           | Raise e s' => Raise e s'
           | Undefined => Undefined
           | OutOfFuel => OutOfFuel
           end.

Declare Scope sim_scope.
Delimit Scope sim_scope with sim.
Notation "'let*' x := c 'in' k" := (bind c (fun x => k))
  (at level 10, x binder, c at level 100, k at level 200) : sim_scope.
Notation "c ;;; k" := (bind c (fun _ => k))
  (at level 100, k at level 200, right associativity) : sim_scope.
Open Scope sim_scope.

Definition gets {St A} (f : St -> A) : M St A := fun s => Ok (f s) s.
Definition modify {St} (f : St -> St) : M St unit := fun s => Ok tt (f s).
Definition undefined {St A} : M St A := fun _ => Undefined.
Definition raise {St A} (e : sim_error) : M St A := fun s => Raise e s.

(** A pointer dereference: NULL is undefined behaviour. *)
Definition deref {St A} (p : option A) : M St A :=
  match p with Some a => ret a | None => undefined end.

(** [for (i = 0; i < n; i++) body(i)]. *)
Fixpoint for_from {St} (i : nat) (n : nat) (body : nat -> M St unit)
  : M St unit :=
  match n with
  | O => ret tt
  | S n' => body i ;;; for_from (S i) n' body
  end.
Definition for_ {St} (n : Z) (body : nat -> M St unit) : M St unit :=
  for_from 0 (Z.to_nat n) body.

(** Run a computation on a part of the state. *)
Definition zoom {St T A} (get : St -> option T) (set : T -> St -> St)
  (m : M T A) : M St A :=
  fun s => match get s with
           | None => Undefined
           | Some t0 =>
               match m t0 with
               | Ok a t1 => Ok a (set t1 s)
               | Raise e t1 => Raise e (set t1 s)
               | Undefined => Undefined
               | OutOfFuel => OutOfFuel
               end
           end.

(** ** C arrays

    An allocated block of [n] cells is a list of length [n]; an access
    outside the block is undefined behaviour. *)

Definition rd {St A} (l : list A) (i : nat) : M St A := deref (l !! i).

Definition wr {A} (l : list A) (i : nat) (v : A) : option (list A) :=
  if decide (i < length l)%nat then Some (<[i := v]> l) else None.

(** ** The Python host

    The driver receives Python objects and mutates the lists among them.
    Floats, integers, [None] and tuples are immutable values; a list is a
    cell of the host's heap, so that two references to one list alias. Any
    other object is a [PyObj] with the name of its type: it is no list, no
    sequence, no number, and has no [append] method. *)

Definition loc := nat.

Inductive PyObject :=
| PyNone
| PyFloat (x : realtype)
| PyLong (n : Z)
| PyTuple (items : list PyObject)
| PyRef (l : loc)          (* a list object, at [l] in the heap *)
| PyObj (tp_name : string) (id : nat).

Definition pyheap := gmap loc (list PyObject).

(** A C [PyObject*]: NULL (with an exception set) is [None]. *)
Definition PyPtr := option PyObject.

Definition PyFloat_FromDouble (x : realtype) : PyObject := PyFloat x.
Definition PyLong_FromLong (n : Z) : PyObject := PyLong n.

(** [PyFloat_Check], [PyList_Check], ... read the type of their argument:
    applied to NULL they are undefined behaviour. *)
Definition PyFloat_Check {St} (p : PyPtr) : M St bool :=
  let* o := deref p in
  ret (match o with PyFloat _ => true | _ => false end).

Definition PyFloat_AsDouble (o : PyObject) : realtype :=
  match o with
  | PyFloat x => x
  | PyLong n => Z2float n
  | _ => (-1)%float      (* with an exception set *)
  end.

Definition is_list (h : pyheap) (o : PyObject) : bool :=
  match o with
  | PyRef l => match h !! l with Some _ => true | None => false end
  | _ => false
  end.

Definition list_items (h : pyheap) (o : PyObject) : option (list PyObject) :=
  match o with PyRef l => h !! l | _ => None end.

(** [PyList_GetItem]: a borrowed reference, or NULL when [o] is no list or
    [i] is out of range. *)
Definition PyList_GetItem (h : pyheap) (o : PyObject) (i : nat) : PyPtr :=
  match list_items h o with
  | Some items => items !! i
  | None => None
  end.

Definition PyList_Size (h : pyheap) (o : PyObject) : Z :=
  match list_items h o with
  | Some items => Z.of_nat (length items)
  | None => -1
  end.

(** [PyList_SetItem]: stores [v] at index [i]; when [o] is no list or [i] is
    out of range it stores nothing and returns -1, which the driver never
    tests. *)
Definition PyList_SetItem (h : pyheap) (o : PyObject) (i : nat)
  (v : PyObject) : pyheap :=
  match o with
  | PyRef l =>
      match h !! l with
      | Some items =>
          if decide (i < length items)%nat
          then <[l := <[i := v]> items]> h else h
      | None => h
      end
  | _ => h
  end.

(** [PyList_Append] and a call of the method [append]: [None] when the call
    fails (the object is no list). Running out of memory is not modelled. *)
Definition PyList_Append (h : pyheap) (o : PyObject) (v : PyObject)
  : option pyheap :=
  match o with
  | PyRef l =>
      match h !! l with
      | Some items => Some (<[l := items ++ [v]]> h)
      | None => None
      end
  | _ => None
  end.

Definition call_append (h : pyheap) (o : PyObject) (v : PyObject)
  : option pyheap := PyList_Append h o v.

(** The sequence protocol, for lists and tuples. *)
Definition sequence_items (h : pyheap) (o : PyObject)
  : option (list PyObject) :=
  match o with
  | PyTuple items => Some items
  | _ => list_items h o
  end.

Definition PySequence_Check (h : pyheap) (o : PyObject) : bool :=
  match sequence_items h o with Some _ => true | None => false end.

Definition PySequence_Size (h : pyheap) (o : PyObject) : Z :=
  match sequence_items h o with
  | Some items => Z.of_nat (length items)
  | None => -1
  end.

Definition PySequence_GetItem (h : pyheap) (o : PyObject) (i : Z) : PyPtr :=
  match sequence_items h o with
  | Some items => if decide (0 <= i) then items !! Z.to_nat i else None
  | None => None
  end.

Definition PyObject_Size (h : pyheap) (o : PyObject) : Z :=
  PySequence_Size h o.

Definition PyNumber_Check (o : PyObject) : bool :=
  match o with PyFloat _ | PyLong _ => true | _ => false end.

(** [PyNumber_Float]: NULL (OverflowError) when the integer is too large
    for a double, that is when it rounds beyond the largest double. *)
Definition PyNumber_Float (o : PyObject) : PyPtr :=
  match o with
  | PyFloat x => Some (PyFloat x)
  | PyLong n => if is_infinity (Z2float n) then None
                else Some (PyFloat (Z2float n))
  | _ => None
  end.

(** A Python [dict] with string keys, in insertion order; keys are unique in
    a well-formed dict. [PyDict_GetItem] returns a borrowed reference or
    NULL; [PyDict_Next] from position 0 yields the first item. *)
Definition PyDict := list (string * PyObject).

Definition PyDict_GetItem (d : PyDict) (key : string) : PyPtr :=
  snd <$> List.find (fun kv => String.eqb (fst kv) key) d.

Definition PyDict_Size (d : PyDict) : Z := Z.of_nat (length d).

(** ** The model object ([struct Model_Memory])

    [libm] is external, and so is the content of a block that [malloc]
    returns: [junk i] is what cell [i] of a fresh block holds. *)

Record Libc := {
  c_exp : realtype -> realtype;
  c_log : realtype -> realtype;
  c_pow : realtype -> realtype -> realtype;
  junk : nat -> realtype
}.

Definition malloc_realtype (lc : Libc) (n : Z) : list realtype :=
  List.map (junk lc) (seq 0 (Z.to_nat n)).

(** Model error flags. *)
Definition Model_Flag := Z.
Definition Model_OK : Model_Flag := 0.
Definition Model_OUT_OF_MEMORY : Model_Flag := -1.
Definition Model_INVALID_MODEL : Model_Flag := -100.
Definition Model_LOGGING_ALREADY_INITIALIZED : Model_Flag := -200.
Definition Model_LOGGING_NOT_INITIALIZED : Model_Flag := -201.
Definition Model_UNKNOWN_VARIABLES_IN_LOG : Model_Flag := -202.
Definition Model_LOG_APPEND_FAILED : Model_Flag := -203.
Definition Model_NO_SENSITIVITIES_TO_LOG : Model_Flag := -300.
Definition Model_SENSITIVITY_LOG_APPEND_FAILED : Model_Flag := -303.
Definition Model_INVALID_PACING : Model_Flag := -400.

(** A [realtype*] into the model: the logging bindings and the sensitivity
    independents point at cells of the model's arrays. *)
Inductive var_ptr :=
| P_time
| P_pace_values (i : nat)
| P_states (i : nat)
| P_derivatives (i : nat)
| P_intermediary (i : nat)
| P_parameters (i : nat)
| P_parameter_derived (i : nat)
| P_literals (i : nat)
| P_literal_derived (i : nat).

(** [r.field = v] for a record: the constructor applied to the projections
    of [r], with [v] in the place of the field. The tactic reads the
    constructor application off the eta-expansion of the record. *)
Ltac record_setter eta proj :=
  let v := fresh "v" in
  let r := fresh "r" in
  intros v r;
  let e := eval cbv delta [eta] beta in (eta r) in
  match eval pattern (proj r) in e with
  | ?f _ => let t := eval cbv beta in (f v) in exact t
  end.

Module Model.

Record Model_Memory := mkModel {
  is_ode : Z;
  has_sensitivities : Z;
  (* Pacing *)
  pace_values : option (list realtype);
  n_pace : Z;
  (* Bound variables *)
  time : realtype;
  realtime : realtype;
  evaluations : realtype;
  (* State variables and derivatives *)
  n_states : Z;
  states : list realtype;
  derivatives : list realtype;
  (* Intermediary variables *)
  n_intermediary : Z;
  intermediary : list realtype;
  (* Parameters *)
  n_parameters : Z;
  n_parameter_derived : Z;
  parameters : list realtype;
  parameter_derived : list realtype;
  (* Literals *)
  n_literals : Z;
  n_literal_derived : Z;
  literals : list realtype;
  literal_derived : list realtype;
  (* Sensitivities *)
  ns_dependents : Z;
  ns_independents : Z;
  s_independents : list var_ptr;
  s_is_parameter : list Z;
  s_states : list realtype;
  ns_intermediary : Z;
  s_intermediary : list realtype;
  (* Logging *)
  logging_initialized : Z;
  logging_states : Z;
  logging_derivatives : Z;
  logging_intermediary : Z;
  logging_bound : Z;
  n_logged_variables : Z;
  _list_update_string : option string;
  _log_lists : option (list PyObject);
  _log_vars : option (list var_ptr)
}.

(** [model->field = v]. *)
Definition eta_Model (m : Model_Memory) : Model_Memory :=
  mkModel (is_ode m) (has_sensitivities m) (pace_values m) (n_pace m)
    (time m) (realtime m) (evaluations m) (n_states m) (states m)
    (derivatives m) (n_intermediary m) (intermediary m) (n_parameters m)
    (n_parameter_derived m) (parameters m) (parameter_derived m)
    (n_literals m) (n_literal_derived m) (literals m) (literal_derived m)
    (ns_dependents m) (ns_independents m) (s_independents m)
    (s_is_parameter m) (s_states m) (ns_intermediary m) (s_intermediary m)
    (logging_initialized m) (logging_states m) (logging_derivatives m)
    (logging_intermediary m) (logging_bound m) (n_logged_variables m)
    (_list_update_string m) (_log_lists m) (_log_vars m).

Definition set_pace_values : option (list realtype) -> Model_Memory -> Model_Memory.
Proof. record_setter eta_Model pace_values. Defined.
Definition set_n_pace : Z -> Model_Memory -> Model_Memory.
Proof. record_setter eta_Model n_pace. Defined.
Definition set_time : realtype -> Model_Memory -> Model_Memory.
Proof. record_setter eta_Model time. Defined.
Definition set_realtime : realtype -> Model_Memory -> Model_Memory.
Proof. record_setter eta_Model realtime. Defined.
Definition set_evaluations : realtype -> Model_Memory -> Model_Memory.
Proof. record_setter eta_Model evaluations. Defined.
Definition set_states : list realtype -> Model_Memory -> Model_Memory.
Proof. record_setter eta_Model states. Defined.
Definition set_derivatives : list realtype -> Model_Memory -> Model_Memory.
Proof. record_setter eta_Model derivatives. Defined.
Definition set_intermediary : list realtype -> Model_Memory -> Model_Memory.
Proof. record_setter eta_Model intermediary. Defined.
Definition set_parameters : list realtype -> Model_Memory -> Model_Memory.
Proof. record_setter eta_Model parameters. Defined.
Definition set_parameter_derived : list realtype -> Model_Memory -> Model_Memory.
Proof. record_setter eta_Model parameter_derived. Defined.
Definition set_literals : list realtype -> Model_Memory -> Model_Memory.
Proof. record_setter eta_Model literals. Defined.
Definition set_literal_derived : list realtype -> Model_Memory -> Model_Memory.
Proof. record_setter eta_Model literal_derived. Defined.
Definition set_s_states : list realtype -> Model_Memory -> Model_Memory.
Proof. record_setter eta_Model s_states. Defined.
Definition set_logging_initialized : Z -> Model_Memory -> Model_Memory.
Proof. record_setter eta_Model logging_initialized. Defined.
Definition set_logging_states : Z -> Model_Memory -> Model_Memory.
Proof. record_setter eta_Model logging_states. Defined.
Definition set_logging_derivatives : Z -> Model_Memory -> Model_Memory.
Proof. record_setter eta_Model logging_derivatives. Defined.
Definition set_logging_intermediary : Z -> Model_Memory -> Model_Memory.
Proof. record_setter eta_Model logging_intermediary. Defined.
Definition set_logging_bound : Z -> Model_Memory -> Model_Memory.
Proof. record_setter eta_Model logging_bound. Defined.
Definition set_n_logged_variables : Z -> Model_Memory -> Model_Memory.
Proof. record_setter eta_Model n_logged_variables. Defined.
Definition set_list_update_string : option string -> Model_Memory -> Model_Memory.
Proof. record_setter eta_Model _list_update_string. Defined.
Definition set_log_lists : option (list PyObject) -> Model_Memory -> Model_Memory.
Proof. record_setter eta_Model _log_lists. Defined.
Definition set_log_vars : option (list var_ptr) -> Model_Memory -> Model_Memory.
Proof. record_setter eta_Model _log_vars. Defined.

End Model.
Import Model.

(** *** Reading and writing through a pointer into the model *)

Definition expr := Model_Memory -> option realtype.
Definition bexpr := Model_Memory -> option bool.

Definition load (p : var_ptr) : expr := fun model =>
  match p with
  | P_time => Some (time model)
  | P_pace_values i => pace_values model ≫= (.!! i)
  | P_states i => states model !! i
  | P_derivatives i => derivatives model !! i
  | P_intermediary i => intermediary model !! i
  | P_parameters i => parameters model !! i
  | P_parameter_derived i => parameter_derived model !! i
  | P_literals i => literals model !! i
  | P_literal_derived i => literal_derived model !! i
  end.

Definition store (p : var_ptr) (v : realtype) (model : Model_Memory)
  : option Model_Memory :=
  match p with
  | P_time => Some (set_time v model)
  | P_pace_values i =>
      pv ← pace_values model; pv' ← wr pv i v;
      Some (set_pace_values (Some pv') model)
  | P_states i =>
      (λ a, set_states a model) <$> wr (states model) i v
  | P_derivatives i =>
      (λ a, set_derivatives a model) <$> wr (derivatives model) i v
  | P_intermediary i =>
      (λ a, set_intermediary a model) <$> wr (intermediary model) i v
  | P_parameters i =>
      (λ a, set_parameters a model) <$> wr (parameters model) i v
  | P_parameter_derived i =>
      (λ a, set_parameter_derived a model) <$> wr (parameter_derived model) i v
  | P_literals i =>
      (λ a, set_literals a model) <$> wr (literals model) i v
  | P_literal_derived i =>
      (λ a, set_literal_derived a model) <$> wr (literal_derived model) i v
  end.

(** *** C expressions over the model

    An expression reads the model; it has no value when it reads outside a
    block. The arithmetic of [double] is lifted to expressions, so that the
    equations below read as in the source. *)

Definition const (x : float) : expr := fun _ => Some x.
Definition lift1 (f : realtype -> realtype) (a : expr) : expr :=
  fun model => x ← a model; Some (f x).
Definition lift2 (f : realtype -> realtype -> realtype) (a b : expr) : expr :=
  fun model => x ← a model; y ← b model; Some (f x y).
Definition cmp2 (f : realtype -> realtype -> bool) (a b : expr) : bexpr :=
  fun model => x ← a model; y ← b model; Some (f x y).
(** [c ? a : b] evaluates [c] and then one of [a] and [b]. *)
Definition ternary (c : bexpr) (a b : expr) : expr :=
  fun model => v ← c model; if (v : bool) then a model else b model.

Coercion load : var_ptr >-> expr.
Coercion const : float >-> expr.

Declare Scope expr_scope.
Delimit Scope expr_scope with E.
Bind Scope expr_scope with expr.
Notation "a + b" := (lift2 PrimFloat.add a b) : expr_scope.
Notation "a - b" := (lift2 PrimFloat.sub a b) : expr_scope.
Notation "a * b" := (lift2 PrimFloat.mul a b) : expr_scope.
Notation "a / b" := (lift2 PrimFloat.div a b) : expr_scope.
Notation "- a" := (lift1 PrimFloat.opp a) : expr_scope.
Notation "a < b" := (cmp2 PrimFloat.ltb a b) : expr_scope.
Notation "a == b" := (cmp2 PrimFloat.eqb a b)
  (at level 70, no associativity) : expr_scope.
Bind Scope expr_scope with bexpr.

(** [*p = e;] *)
Definition assign (p : var_ptr) (e : expr) : M Model_Memory unit :=
  fun model =>
    match e model with
    | None => Undefined
    | Some v =>
        match store p v model with
        | None => Undefined
        | Some model' => Ok tt model'
        end
    end.
Notation "p ::= e" := (assign p e%E) (at level 90, e at level 89) : sim_scope.

(** A sequence of statements. *)
Fixpoint block {St} (ss : list (M St unit)) : M St unit :=
  match ss with
  | [] => ret tt
  | s :: ss' => s ;;; block ss'
  end.

(** [*p = v;] for a value. *)
Definition poke (p : var_ptr) (v : realtype) : M Model_Memory unit :=
  assign p (fun _ => Some v).

(** [*p] as a statement's operand. *)
Definition peek (p : var_ptr) : M Model_Memory realtype :=
  fun model => match load p model with
               | Some v => Ok v model
               | None => Undefined
               end.

(** *** Variable aliases (the macros of the source) *)

(* Bound variables *)
Definition B_time := P_time.
Definition B_pace := P_pace_values 0.
(* States *)
Definition Y_V := P_states 0.
Definition Y_m := P_states 1.
Definition Y_h := P_states 2.
Definition Y_j := P_states 3.
Definition Y_d := P_states 4.
Definition Y_f := P_states 5.
Definition Y_x := P_states 6.
Definition Y_Ca_i := P_states 7.
(* Derivatives *)
Definition D_V := P_derivatives 0.
Definition D_m := P_derivatives 1.
Definition D_h := P_derivatives 2.
Definition D_j := P_derivatives 3.
Definition D_d := P_derivatives 4.
Definition D_f := P_derivatives 5.
Definition D_x := P_derivatives 6.
Definition D_Ca_i := P_derivatives 7.
(* Intermediary variables *)
Definition V_i_ion := P_intermediary 0.
Definition V_i_stim := P_intermediary 1.
Definition V_ik_x_alpha := P_intermediary 2.
Definition V_ik_x_beta := P_intermediary 3.
Definition V_xi := P_intermediary 4.
Definition V_IK := P_intermediary 5.
Definition V_a := P_intermediary 6.
Definition V_ina_m_alpha := P_intermediary 7.
Definition V_ina_m_beta := P_intermediary 8.
Definition V_ina_h_alpha := P_intermediary 9.
Definition V_ina_h_beta := P_intermediary 10.
Definition V_ina_j_alpha := P_intermediary 11.
Definition V_ina_j_beta := P_intermediary 12.
Definition V_INa := P_intermediary 13.
Definition V_Kp := P_intermediary 14.
Definition V_IKp := P_intermediary 15.
Definition V_ica_E := P_intermediary 16.
Definition V_ica_d_alpha := P_intermediary 17.
Definition V_ica_d_beta := P_intermediary 18.
Definition V_ica_f_alpha := P_intermediary 19.
Definition V_ica_f_beta := P_intermediary 20.
Definition V_ICa := P_intermediary 21.
Definition V_g := P_intermediary 22.
Definition V_ik1_g_alpha := P_intermediary 23.
Definition V_ik1_g_beta := P_intermediary 24.
Definition V_IK1 := P_intermediary 25.
Definition V_Ib := P_intermediary 26.
(* Literal *)
Definition C_Ca_o := P_literals 0.
Definition C_K_i := P_literals 1.
Definition C_K_o := P_literals 2.
Definition C_Na_i := P_literals 3.
Definition C_Na_o := P_literals 4.
Definition C_F := P_literals 5.
Definition C_R := P_literals 6.
Definition C_T := P_literals 7.
Definition C_Eb := P_literals 8.
Definition C_gb := P_literals 9.
Definition C_gCa := P_literals 10.
Definition C_PNa_K := P_literals 11.
Definition C_gNa := P_literals 12.
Definition C_gKp := P_literals 13.
Definition C_C := P_literals 14.
Definition C_i_diff := P_literals 15.
Definition C_stim_amplitude := P_literals 16.
(* Literal-derived *)
Definition C_RTF := P_literal_derived 0.
Definition C_gK := P_literal_derived 1.
Definition C_ik_IK_E := P_literal_derived 2.
Definition C_ik1_E := P_literal_derived 3.
Definition C_gK1 := P_literal_derived 4.
Definition C_ENa := P_literal_derived 5.

Section ModelFunctions.
Context (lc : Libc).
Local Open Scope float_scope.

Abbreviation exp := (lift1 (c_exp lc)).
Abbreviation log := (lift1 (c_log lc)).
Abbreviation sqrt := (lift1 PrimFloat.sqrt).
Abbreviation pow := (lift2 (c_pow lc)).

(** [Model_SetupPacing]. [malloc] is taken to succeed (also for a block of
    no cells, where it may return NULL). *)
Definition Model_SetupPacing (n_pace' : Z) : M Model_Memory Model_Flag :=
  if decide (n_pace' < 0)%Z then ret Model_INVALID_PACING else
  modify (set_n_pace n_pace') ;;;
  modify (set_pace_values (Some (malloc_realtype lc n_pace'))) ;;;
  for_ n_pace' (fun i => P_pace_values i ::= 0) ;;;
  ret Model_OK.

Definition Model_EvaluateLiteralDerivedVariables : M Model_Memory Model_Flag :=
  block [
    C_RTF ::= C_R * C_T / C_F;
    C_gK ::= 0.282 * sqrt (C_K_o / 5.4);
    C_ik_IK_E ::= C_RTF * log ((C_K_o + C_PNa_K * C_Na_o) / (C_K_i + C_PNa_K * C_Na_i));
    C_ik1_E ::= C_RTF * log (C_K_o / C_K_i);
    C_gK1 ::= 0.6047 * sqrt (C_K_o / 5.4);
    C_ENa ::= C_RTF * log (C_Na_o / C_Na_i)
  ] ;;;
  ret Model_OK.

Definition Model_EvaluateParameterDerivedVariables : M Model_Memory Model_Flag :=
  ret Model_OK.

(** [Model_SetParameters]; [Model_CACHING] is not defined, so the scan for
    changes is compiled out and every cell is copied. *)
Definition Model_SetParameters (parameters' : list realtype)
  : M Model_Memory Model_Flag :=
  let* n := gets n_parameters in
  (if decide (0 < n)%Z then
     for_ n (fun i => let* v := rd parameters' i in poke (P_parameters i) v) ;;;
     let* _ := Model_EvaluateParameterDerivedVariables in ret tt
   else ret tt) ;;;
  ret Model_OK.

(** The loop of [Model_SetParametersFromIndependents], from [i] with [j]
    parameters set and [k] independents left. *)
Fixpoint set_parameters_from (k : nat) (i j : nat)
  (independents : list realtype) : M Model_Memory unit :=
  match k with
  | O => ret tt
  | S k' =>
      let* flags := gets s_is_parameter in
      let* is_par := rd flags i in
      if decide (is_par <> 0)%Z then
        let* v := rd independents i in
        poke (P_parameters j) v ;;;
        set_parameters_from k' (S i) (S j) independents
      else set_parameters_from k' (S i) j independents
  end.

Definition Model_SetParametersFromIndependents (independents : list realtype)
  : M Model_Memory Model_Flag :=
  let* n := gets n_parameters in
  let* ns := gets ns_independents in
  (if decide (0 < n)%Z then
     set_parameters_from (Z.to_nat ns) 0 0 independents ;;;
     let* _ := Model_EvaluateParameterDerivedVariables in ret tt
   else ret tt) ;;;
  ret Model_OK.

Definition Model_SetBoundVariables (time' : realtype)
  (pace_values' : list realtype) (realtime' evaluations' : realtype)
  : M Model_Memory Model_Flag :=
  let* tm := gets time in
  (if negb (time' =? tm) then modify (set_time time') else ret tt) ;;;
  let* n := gets n_pace in
  for_ n (fun i =>
    let* new := rd pace_values' i in
    let* old := peek (P_pace_values i) in
    if negb (new =? old) then poke (P_pace_values i) new else ret tt) ;;;
  (* Update unchecked variables *)
  modify (set_realtime realtime') ;;;
  modify (set_evaluations evaluations') ;;;
  ret Model_OK.

Definition Model_SetStates (states' : list realtype)
  : M Model_Memory Model_Flag :=
  let* n := gets n_states in
  (if decide (0 < n)%Z then
     for_ n (fun i => let* v := rd states' i in poke (P_states i) v)
   else ret tt) ;;;
  ret Model_OK.

(** [Model_EvaluateDerivatives]: the intermediary variables and the state
    derivatives, statement by statement. *)
Definition Model_EvaluateDerivatives : M Model_Memory Model_Flag :=
  block [
    (* ib *)
    V_Ib ::= C_gb * (Y_V - C_Eb);

    (* ica *)
    V_ica_E ::= 7.7 - 13.0287 * log (Y_Ca_i / C_Ca_o);
    V_ica_d_alpha ::= 0.095 * exp ((-0.01) * (Y_V - 5.0)) / (1.0 + exp ((-0.072) * (Y_V - 5.0)));
    V_ica_d_beta ::= 0.07 * exp ((-0.017) * (Y_V + 44.0)) / (1.0 + exp (0.05 * (Y_V + 44.0)));
    D_d ::= V_ica_d_alpha * (1.0 - Y_d) - V_ica_d_beta * Y_d;
    V_ica_f_alpha ::= 0.012 * exp ((-0.008) * (Y_V + 28.0)) / (1.0 + exp (0.15 * (Y_V + 28.0)));
    V_ica_f_beta ::= 0.0065 * exp ((-0.02) * (Y_V + 30.0)) / (1.0 + exp ((-0.2) * (Y_V + 30.0)));
    D_f ::= V_ica_f_alpha * (1.0 - Y_f) - V_ica_f_beta * Y_f;
    V_ICa ::= C_gCa * Y_d * Y_f * (Y_V - V_ica_E);
    D_Ca_i ::= (-0.0001) * V_ICa + 0.07 * (0.0001 - Y_Ca_i);

    (* ik *)
    V_xi ::= ternary (Y_V < (-100.0)) 1.0 (ternary (Y_V == (-77.0)) (2.837 * 0.04 / exp (0.04 * (Y_V + 35.0))) (2.837 * (exp (0.04 * (Y_V + 77.0)) - 1.0) / ((Y_V + 77.0) * exp (0.04 * (Y_V + 35.0)))));
    V_ik_x_alpha ::= 0.0005 * exp (0.083 * (Y_V + 50.0)) / (1.0 + exp (0.057 * (Y_V + 50.0)));
    V_ik_x_beta ::= 0.0013 * exp ((-0.06) * (Y_V + 20.0)) / (1.0 + exp ((-0.04) * (Y_V + 20.0)));
    D_x ::= V_ik_x_alpha * (1.0 - Y_x) - V_ik_x_beta * Y_x;
    V_IK ::= C_gK * V_xi * Y_x * (Y_V - C_ik_IK_E);

    (* ik1 *)
    V_ik1_g_alpha ::= 1.02 / (1.0 + exp (0.2385 * (Y_V - C_ik1_E - 59.215)));
    V_ik1_g_beta ::= (0.49124 * exp (0.08032 * (Y_V - C_ik1_E + 5.476)) + 1.0 * exp (0.06175 * (Y_V - C_ik1_E - 594.31))) / (1.0 + exp ((-0.5143) * (Y_V - C_ik1_E + 4.753)));
    V_g ::= V_ik1_g_alpha / (V_ik1_g_alpha + V_ik1_g_beta);
    V_IK1 ::= C_gK1 * V_g * (Y_V - C_ik1_E);

    (* ina *)
    V_a ::= 1.0 - 1.0 / (1.0 + exp ((-(Y_V + 40.0)) / 0.24));
    V_ina_m_alpha ::= 0.32 * (Y_V + 47.13) / (1.0 - exp ((-0.1) * (Y_V + 47.13)));
    V_ina_m_beta ::= 0.08 * exp ((- Y_V) / 11.0);
    D_m ::= V_ina_m_alpha * (1.0 - Y_m) - V_ina_m_beta * Y_m;
    V_INa ::= C_gNa * pow Y_m 3.0 * Y_h * Y_j * (Y_V - C_ENa);
    V_ina_h_alpha ::= V_a * 0.135 * exp ((80.0 + Y_V) / (-6.8));
    V_ina_h_beta ::= V_a * (3.56 * exp (0.079 * Y_V) + 310000.0 * exp (0.35 * Y_V)) + (1.0 - V_a) / (0.13 * (1.0 + exp ((Y_V + 10.66) / (-11.1))));
    D_h ::= V_ina_h_alpha * (1.0 - Y_h) - V_ina_h_beta * Y_h;
    V_ina_j_alpha ::= V_a * ((-127140.0) * exp (0.2444 * Y_V) - 3.474e-05 * exp ((-0.04391) * Y_V)) * (Y_V + 37.78) / (1.0 + exp (0.311 * (Y_V + 79.23)));
    V_ina_j_beta ::= V_a * (0.1212 * exp ((-0.01052) * Y_V) / (1.0 + exp ((-0.1378) * (Y_V + 40.14)))) + (1.0 - V_a) * (0.3 * exp ((-2.535e-07) * Y_V) / (1.0 + exp ((-0.1) * (Y_V + 32.0))));
    D_j ::= V_ina_j_alpha * (1.0 - Y_j) - V_ina_j_beta * Y_j;

    (* ikp *)
    V_Kp ::= 1.0 / (1.0 + exp ((7.488 - Y_V) / 5.98));
    V_IKp ::= C_gKp * V_Kp * (Y_V - C_ik1_E);

    (* membrane *)
    V_i_ion ::= V_INa + V_IK + V_Ib + V_IKp + V_IK1 + V_ICa;
    V_i_stim ::= B_pace * C_stim_amplitude;
    D_V ::= (-(1.0 / C_C)) * (V_i_ion + C_i_diff + V_i_stim)
  ] ;;;
  ret Model_OK.

Definition Model_EvaluateSensitivityOutputs : M Model_Memory Model_Flag :=
  ret Model_OK.

(** *** Logging *)

(** Cell [i] of a block of [cap] pointers, of which the first [length l] are
    initialised, receives [v]. *)
Definition wr_prefix {A} (cap : Z) (l : list A) (i : Z) (v : A)
  : option (list A) :=
  if decide (0 <= i < cap)%Z then
    if decide (Z.to_nat i = length l) then Some (l ++ [v])
    else wr l (Z.to_nat i) v
  else None.

Definition Model__AddVariableToLog (log_dict : PyDict) (i : Z)
  (name : string) (variable : var_ptr) : M Model_Memory Z :=
  match PyDict_GetItem log_dict name with
  | None => ret 0%Z
  | Some val =>
      let* cap := gets n_logged_variables in
      let* lists := bind (gets _log_lists) deref in
      let* vars := bind (gets _log_vars) deref in
      let* lists' := deref (wr_prefix cap lists i val) in
      let* vars' := deref (wr_prefix cap vars i variable) in
      modify (set_log_lists (Some lists')) ;;;
      modify (set_log_vars (Some vars')) ;;;
      ret 1%Z
  end.

(** [i += Model__AddVariableToLog(model, log_dict, i, name, &var);] for each
    name of a variable family. *)
Fixpoint add_variables (log_dict : PyDict) (names : list (string * var_ptr))
  (i : Z) : M Model_Memory Z :=
  match names with
  | [] => ret i
  | (name, variable) :: rest =>
      let* r := Model__AddVariableToLog log_dict i name variable in
      add_variables log_dict rest (i + r)%Z
  end.

Definition state_names : list (string * var_ptr) :=
  [ ("membrane.V", Y_V); ("ina.m", Y_m); ("ina.h", Y_h); ("ina.j", Y_j);
    ("ica.d", Y_d); ("ica.f", Y_f); ("ik.x", Y_x); ("ica.Ca_i", Y_Ca_i) ]%string.

Definition derivative_names : list (string * var_ptr) :=
  [ ("dot(membrane.V)", D_V); ("dot(ina.m)", D_m); ("dot(ina.h)", D_h);
    ("dot(ina.j)", D_j); ("dot(ica.d)", D_d); ("dot(ica.f)", D_f);
    ("dot(ik.x)", D_x); ("dot(ica.Ca_i)", D_Ca_i) ]%string.

Definition bound_names : list (string * var_ptr) :=
  [ ("engine.time", B_time); ("engine.pace", B_pace) ]%string.

Definition intermediary_names : list (string * var_ptr) :=
  [ ("membrane.i_ion", V_i_ion); ("membrane.i_stim", V_i_stim);
    ("ik.x.alpha", V_ik_x_alpha); ("ik.x.beta", V_ik_x_beta);
    ("ik.xi", V_xi); ("ik.IK", V_IK); ("ina.a", V_a);
    ("ina.m.alpha", V_ina_m_alpha); ("ina.m.beta", V_ina_m_beta);
    ("ina.h.alpha", V_ina_h_alpha); ("ina.h.beta", V_ina_h_beta);
    ("ina.j.alpha", V_ina_j_alpha); ("ina.j.beta", V_ina_j_beta);
    ("ina.INa", V_INa); ("ikp.Kp", V_Kp); ("ikp.IKp", V_IKp);
    ("ica.E", V_ica_E); ("ica.d.alpha", V_ica_d_alpha);
    ("ica.d.beta", V_ica_d_beta); ("ica.f.alpha", V_ica_f_alpha);
    ("ica.f.beta", V_ica_f_beta); ("ica.ICa", V_ICa); ("ik1.g", V_g);
    ("ik1.g.alpha", V_ik1_g_alpha); ("ik1.g.beta", V_ik1_g_beta);
    ("ik1.IK1", V_IK1); ("ib.Ib", V_Ib) ]%string.

Definition Model_InitializeLogging (log_dict : PyDict)
  : M Model_Memory Model_Flag :=
  let* li := gets logging_initialized in
  if decide (li <> 0)%Z then ret Model_LOGGING_ALREADY_INITIALIZED else
  (* Number of variables to log *)
  modify (set_n_logged_variables (PyDict_Size log_dict)) ;;;
  (* Allocate pointer lists *)
  modify (set_log_lists (Some [])) ;;;
  modify (set_log_vars (Some [])) ;;;
  (* Check states *)
  let* i := add_variables log_dict state_names 0%Z in
  modify (set_logging_states (Z.b2z (0 <? i)%Z)) ;;;
  (* Check derivatives *)
  let j := i in
  let* i := add_variables log_dict derivative_names i in
  modify (set_logging_derivatives (Z.b2z (negb (i =? j)%Z))) ;;;
  (* Check bound variables *)
  let j := i in
  let* i := add_variables log_dict bound_names i in
  modify (set_logging_bound (Z.b2z (negb (i =? j)%Z))) ;;;
  (* Check intermediary variables *)
  let j := i in
  let* i := add_variables log_dict intermediary_names i in
  modify (set_logging_intermediary (Z.b2z (negb (i =? j)%Z))) ;;;
  (* Check if log contained extra variables *)
  let* n := gets n_logged_variables in
  if decide (i <> n) then ret Model_UNKNOWN_VARIABLES_IN_LOG else
  (* Create "append" string. *)
  let* us := gets _list_update_string in
  (if us is None then modify (set_list_update_string (Some "append"%string))
   else ret tt) ;;;
  (* All done! *)
  modify (set_logging_initialized 1%Z) ;;;
  ret Model_OK.

(** The loop of [Model_Log] from binding [i], with [k] bindings left: the
    value of the bound variable is appended to the bound sink, and the first
    failing [append] ends the loop. [None] is undefined behaviour. *)
Fixpoint log_from (k : nat) (i : nat) (model : Model_Memory)
  (lists : list PyObject) (vars : list var_ptr) (h : pyheap)
  : option (Model_Flag * pyheap) :=
  match k with
  | O => Some (Model_OK, h)
  | S k' =>
      variable ← vars !! i;
      x ← load variable model;
      sink ← lists !! i;
      match call_append h sink (PyFloat_FromDouble x) with
      | None => Some (Model_LOG_APPEND_FAILED, h)
      | Some h' => log_from k' (S i) model lists vars h'
      end
  end.

Definition Model_Log (model : Model_Memory) (h : pyheap)
  : option (Model_Flag * pyheap) :=
  if decide (logging_initialized model = 0)%Z
  then Some (Model_LOGGING_NOT_INITIALIZED, h)
  else
    lists ← _log_lists model;
    vars ← _log_vars model;
    log_from (Z.to_nat (n_logged_variables model)) 0 model lists vars h.

(** [Model_LogSensitivityMatrix]: the template fills no entry of the outer
    tuple for this model ([ns_dependents] is 0); an unset entry is shown as
    [PyNone]. *)
Definition Model_LogSensitivityMatrix (model : Model_Memory)
  (list : PyObject) (h : pyheap) : Model_Flag * pyheap :=
  let l1 := PyTuple (replicate (Z.to_nat (ns_dependents model)) PyNone) in
  match PyList_Append h list l1 with
  | None => (Model_SENSITIVITY_LOG_APPEND_FAILED, h)
  | Some h' => (Model_OK, h')
  end.

(** *** [Model_Create]

    Allocation is taken to succeed. The arrays are fresh blocks; the literals
    and the states receive their default values. *)
Definition Model_alloc : Model_Memory := {|
  is_ode := 1;
  has_sensitivities := 0;
  n_states := 8;
  states := malloc_realtype lc 8;
  derivatives := malloc_realtype lc 8;
  n_intermediary := 27;
  intermediary := malloc_realtype lc 27;
  n_parameters := 0;
  n_parameter_derived := 0;
  parameters := malloc_realtype lc 0;
  parameter_derived := malloc_realtype lc 0;
  Model.n_pace := 0;
  pace_values := None;
  n_literals := 17;
  n_literal_derived := 6;
  literals := malloc_realtype lc 17;
  literal_derived := malloc_realtype lc 6;
  ns_dependents := 0;
  ns_independents := 0;
  s_independents := [];
  s_is_parameter := [];
  s_states := malloc_realtype lc (8 * 0);
  ns_intermediary := 0;
  s_intermediary := malloc_realtype lc 0;
  logging_initialized := 0;
  n_logged_variables := 0;
  logging_states := 0;
  logging_derivatives := 0;
  logging_intermediary := 0;
  logging_bound := 0;
  _list_update_string := None;
  _log_lists := None;
  _log_vars := None;
  time := 0;
  Model.realtime := 0;
  Model.evaluations := 0
|}.

Definition Model_Create : outcome Model_Memory Model_Flag :=
  (block [
     (* Literal values *)
     C_Ca_o ::= 1.8;
     C_K_i ::= 145.0;
     C_K_o ::= 5.4;
     C_Na_i ::= 10.0;
     C_Na_o ::= 140.0;
     C_F ::= 96500.0;
     C_R ::= 8314.0;
     C_T ::= 310.0;
     C_Eb ::= (-59.87);
     C_gb ::= 0.03921;
     C_gCa ::= 0.09;
     C_PNa_K ::= 0.01833;
     C_gNa ::= 16.0;
     C_gKp ::= 0.0183;
     C_C ::= 1.0;
     C_i_diff ::= 0.0;
     C_stim_amplitude ::= (-80.0) ] ;;;
   let* flag := Model_EvaluateLiteralDerivedVariables in
   if decide (flag <> Model_OK) then ret flag else
   (* Parameter values *)
   let* flag := Model_EvaluateParameterDerivedVariables in
   if decide (flag <> Model_OK) then ret flag else
   block [
     (* State values *)
     Y_V ::= -84.5286;
     Y_m ::= 0.0017;
     Y_h ::= 0.9832;
     Y_j ::= 0.995484;
     Y_d ::= 3e-06;
     Y_f ::= 1.0;
     Y_x ::= 0.0057;
     Y_Ca_i ::= 0.0002 ] ;;;
   ret Model_OK) Model_alloc.

(** [Model_Destroy] frees the model; nothing of it remains. *)

End ModelFunctions.

(** ** The driver's state

    The static variables of the source file, the Python heap and the state of
    the host. The integrator's memory, the pacing systems and the host's state
    are opaque to the driver. *)

Definition N_Vector := list realtype.

(** [N_VNew_Serial(n)]: a fresh vector of [n] cells. *)
Definition N_VNew_Serial (lc : Libc) (n : Z) : N_Vector := malloc_realtype lc n.

(** [union PSys] with its [enum PSysType]. *)
Inductive PSys (ESys FSys : Type) :=
| EVENT (event : ESys)
| FIXED (fixed : FSys).
Arguments EVENT {ESys FSys} event.
Arguments FIXED {ESys FSys} fixed.

(** [z] and [sz] either are vectors of their own or point at [y] and [sy]. *)
Inductive zptr (A : Type) :=
| Z_NULL
| Z_alias            (* z = y; sz = sy; *)
| Z_own (v : A).
Arguments Z_NULL {A}.
Arguments Z_alias {A}.
Arguments Z_own {A} v.

(** CVODES return flags. *)
Definition CV_SUCCESS : Z := 0.
Definition CV_ROOT_RETURN : Z := 2.

Definition max_zero_step_count : Z := 500.

Module Sim.
Section Globals.
Context (cvode_mem_t ESys FSys host : Type).
Set Implicit Arguments.
Set Maximal Implicit Insertion.

Record Sim := mkSim {
  initialized : Z;
  (* Model *)
  model : option Model_Memory;
  (* Pacing *)
  pacing_systems : option (list (PSys ESys FSys));
  pacing : option (list realtype);
  n_pace : Z;
  (* CVODE memory *)
  cvode_mem : option cvode_mem_t;
  udata : option (list realtype);       (* udata->p *)
  pbar : option (list realtype);
  (* Solver settings *)
  abs_tol : realtype;
  rel_tol : realtype;
  dt_max : realtype;
  dt_min : realtype;
  (* Solver stats *)
  realtime : realtype;
  evaluations : Z;
  steps : Z;
  (* Checking for repeated size-zero steps *)
  zero_step_count : Z;
  (* State vectors *)
  y : option N_Vector;
  sy : option (list N_Vector);
  z : zptr N_Vector;
  sz : zptr (list N_Vector);
  ylast : option N_Vector;
  (* State and bound variable communication *)
  state_py : PyObject;
  s_state_py : PyObject;
  bound_py : PyObject;
  (* Timing *)
  t : realtype;
  tlast : realtype;
  tnext : realtype;
  tmin : realtype;
  tmax : realtype;
  (* Logging *)
  dynamic_logging : Z;
  log_dict : PyDict;
  sens_list : PyObject;
  tlog : realtype;
  log_interval : realtype;
  ilog : Z;
  log_times : PyPtr;
  (* Root finding *)
  rf_index : Z;
  rf_threshold : realtype;
  rf_list : PyObject;
  rf_direction : option Z;
  (* Logging realtime *)
  benchmarker : PyObject;
  log_realtime : Z;
  realtime_start : realtype;
  (* The host *)
  py_heap : pyheap;
  host_state : host
}.

Definition eta_Sim (s : Sim) : Sim :=
  mkSim (initialized s) (model s) (pacing_systems s) (pacing s) (n_pace s)
    (cvode_mem s) (udata s) (pbar s) (abs_tol s) (rel_tol s) (dt_max s)
    (dt_min s) (realtime s) (evaluations s) (steps s) (zero_step_count s)
    (y s) (sy s) (z s) (sz s) (ylast s) (state_py s) (s_state_py s)
    (bound_py s) (t s) (tlast s) (tnext s) (tmin s) (tmax s)
    (dynamic_logging s) (log_dict s) (sens_list s) (tlog s) (log_interval s)
    (ilog s) (log_times s) (rf_index s) (rf_threshold s) (rf_list s)
    (rf_direction s) (benchmarker s) (log_realtime s) (realtime_start s)
    (py_heap s) (host_state s).

Definition set_initialized : Z -> Sim -> Sim.
Proof. record_setter eta_Sim initialized. Defined.
Definition set_model : option Model_Memory -> Sim -> Sim.
Proof. record_setter eta_Sim model. Defined.
Definition set_pacing_systems : option (list (PSys ESys FSys)) -> Sim -> Sim.
Proof. record_setter eta_Sim pacing_systems. Defined.
Definition set_pacing : option (list realtype) -> Sim -> Sim.
Proof. record_setter eta_Sim pacing. Defined.
Definition set_n_pace : Z -> Sim -> Sim.
Proof. record_setter eta_Sim n_pace. Defined.
Definition set_cvode_mem : option cvode_mem_t -> Sim -> Sim.
Proof. record_setter eta_Sim cvode_mem. Defined.
Definition set_udata : option (list realtype) -> Sim -> Sim.
Proof. record_setter eta_Sim udata. Defined.
Definition set_pbar : option (list realtype) -> Sim -> Sim.
Proof. record_setter eta_Sim pbar. Defined.
Definition set_abs_tol : realtype -> Sim -> Sim.
Proof. record_setter eta_Sim abs_tol. Defined.
Definition set_rel_tol : realtype -> Sim -> Sim.
Proof. record_setter eta_Sim rel_tol. Defined.
Definition set_dt_max : realtype -> Sim -> Sim.
Proof. record_setter eta_Sim dt_max. Defined.
Definition set_dt_min : realtype -> Sim -> Sim.
Proof. record_setter eta_Sim dt_min. Defined.
Definition set_realtime : realtype -> Sim -> Sim.
Proof. record_setter eta_Sim realtime. Defined.
Definition set_evaluations : Z -> Sim -> Sim.
Proof. record_setter eta_Sim evaluations. Defined.
Definition set_steps : Z -> Sim -> Sim.
Proof. record_setter eta_Sim steps. Defined.
Definition set_zero_step_count : Z -> Sim -> Sim.
Proof. record_setter eta_Sim zero_step_count. Defined.
Definition set_y : option N_Vector -> Sim -> Sim.
Proof. record_setter eta_Sim y. Defined.
Definition set_sy : option (list N_Vector) -> Sim -> Sim.
Proof. record_setter eta_Sim sy. Defined.
Definition set_z : zptr N_Vector -> Sim -> Sim.
Proof. record_setter eta_Sim z. Defined.
Definition set_sz : zptr (list N_Vector) -> Sim -> Sim.
Proof. record_setter eta_Sim sz. Defined.
Definition set_ylast : option N_Vector -> Sim -> Sim.
Proof. record_setter eta_Sim ylast. Defined.
Definition set_state_py : PyObject -> Sim -> Sim.
Proof. record_setter eta_Sim state_py. Defined.
Definition set_s_state_py : PyObject -> Sim -> Sim.
Proof. record_setter eta_Sim s_state_py. Defined.
Definition set_bound_py : PyObject -> Sim -> Sim.
Proof. record_setter eta_Sim bound_py. Defined.
Definition set_t : realtype -> Sim -> Sim.
Proof. record_setter eta_Sim t. Defined.
Definition set_tlast : realtype -> Sim -> Sim.
Proof. record_setter eta_Sim tlast. Defined.
Definition set_tnext : realtype -> Sim -> Sim.
Proof. record_setter eta_Sim tnext. Defined.
Definition set_tmin : realtype -> Sim -> Sim.
Proof. record_setter eta_Sim tmin. Defined.
Definition set_tmax : realtype -> Sim -> Sim.
Proof. record_setter eta_Sim tmax. Defined.
Definition set_dynamic_logging : Z -> Sim -> Sim.
Proof. record_setter eta_Sim dynamic_logging. Defined.
Definition set_log_dict : PyDict -> Sim -> Sim.
Proof. record_setter eta_Sim log_dict. Defined.
Definition set_sens_list : PyObject -> Sim -> Sim.
Proof. record_setter eta_Sim sens_list. Defined.
Definition set_tlog : realtype -> Sim -> Sim.
Proof. record_setter eta_Sim tlog. Defined.
Definition set_log_interval : realtype -> Sim -> Sim.
Proof. record_setter eta_Sim log_interval. Defined.
Definition set_ilog : Z -> Sim -> Sim.
Proof. record_setter eta_Sim ilog. Defined.
Definition set_log_times : PyPtr -> Sim -> Sim.
Proof. record_setter eta_Sim log_times. Defined.
Definition set_rf_index : Z -> Sim -> Sim.
Proof. record_setter eta_Sim rf_index. Defined.
Definition set_rf_threshold : realtype -> Sim -> Sim.
Proof. record_setter eta_Sim rf_threshold. Defined.
Definition set_rf_list : PyObject -> Sim -> Sim.
Proof. record_setter eta_Sim rf_list. Defined.
Definition set_rf_direction : option Z -> Sim -> Sim.
Proof. record_setter eta_Sim rf_direction. Defined.
Definition set_benchmarker : PyObject -> Sim -> Sim.
Proof. record_setter eta_Sim benchmarker. Defined.
Definition set_log_realtime : Z -> Sim -> Sim.
Proof. record_setter eta_Sim log_realtime. Defined.
Definition set_realtime_start : realtype -> Sim -> Sim.
Proof. record_setter eta_Sim realtime_start. Defined.
Definition set_py_heap : pyheap -> Sim -> Sim.
Proof. record_setter eta_Sim py_heap. Defined.
Definition set_host_state : host -> Sim -> Sim.
Proof. record_setter eta_Sim host_state. Defined.

Unset Maximal Implicit Insertion.
Unset Implicit Arguments.
End Globals.
End Sim.
Import Sim.

(** ** The world outside the driver *)

(** The calls that configure the integrator in [sim_init]. *)
Inductive cvodes_call :=
| CVodeSetErrHandlerFn_
| CVodeInit_ (t0 : realtype) (y0 : N_Vector)
| CVodeSStolerances_ (reltol abstol : realtype)
| CVodeSetMaxStep_ (hmax : realtype)
| CVodeSetMinStep_ (hmin : realtype)
| CVDense_ (n : Z)
| CVodeSensInit_ (Ns : Z) (yS0 : list N_Vector)
| CVodeSetUserData_ (p : list realtype)
| CVodeSetSensParams_ (p pbar : list realtype)
| CVodeSensEEtolerances_
| CVodeRootInit_ (nrtfn : Z).

(** What [CVode(cvode_mem, tout, y, &t, CV_ONE_STEP)] does: its return flag,
    the integrator's new memory, the values it stores in [y] and [t], and the
    points at which it calls the right-hand side. *)
Record CVode_result (cvode_mem_t : Type) := {
  cv_flag : Z;
  cv_mem : cvode_mem_t;
  cv_y : N_Vector;
  cv_t : realtype;
  cv_rhs_calls : list (realtype * N_Vector)
}.
Arguments cv_flag {cvode_mem_t} _.
Arguments cv_mem {cvode_mem_t} _.
Arguments cv_y {cvode_mem_t} _.
Arguments cv_t {cvode_mem_t} _.
Arguments cv_rhs_calls {cvode_mem_t} _.

Section Driver.
Context {cvode_mem_t ESys FSys host : Type}.

Abbreviation State := (Sim cvode_mem_t ESys FSys host).

(** The integrator and the host may depend on all of the program's state. *)
Record World := {
  libc : Libc;
  (* CVODES *)
  CVodeCreate : option cvode_mem_t;
  cvodes_setup : cvode_mem_t -> cvodes_call -> Z * cvode_mem_t;
  CVode : State -> realtype -> CVode_result cvode_mem_t;
  CVodeGetDky : State -> realtype -> Z * N_Vector;
  CVodeGetSensDky : State -> realtype -> Z * list N_Vector;
  CVodeGetSens : State -> Z * realtype * list N_Vector;
  CVodeGetRootInfo : State -> Z * Z;
  CVodeReInit : State -> realtype -> N_Vector -> Z * cvode_mem_t;
  CVodeSensReInit : State -> list N_Vector -> Z * cvode_mem_t;
  (* pacing.h *)
  ESys_OK : Z;
  FSys_OK : Z;
  ESys_Create : Z * ESys;
  ESys_Populate : ESys -> PyObject -> pyheap -> Z * ESys;
  ESys_AdvanceTime : ESys -> realtype -> Z * ESys;
  ESys_GetNextTime : ESys -> realtype;
  ESys_GetLevel : ESys -> realtype;
  ESys_eq : realtype -> realtype -> bool;
  FSys_Create : Z * FSys;
  FSys_Populate : FSys -> PyObject -> pyheap -> Z * FSys;
  FSys_GetLevel : FSys -> realtype -> realtype * Z;
  (* The host: the call [benchmarker.time()] and the pending signals *)
  benchmarker_time : host -> PyPtr * host;
  PyErr_CheckSignals : host -> Z * host
}.

Context (W : World).

Abbreviation lc := (libc W).

(** A function of the model applied to the global [model]. *)
Definition with_model {A} (m : M Model_Memory A) : M State A :=
  zoom model (fun m' => set_model (Some m')) m.

(** A block that a NULL pointer stands for has no cell. *)
Definition cells {A} (p : option (list A)) : list A := default [] p.

(** *** [check_cvode_flag(&flag, funcname, 1)] *)
Definition check_cvode_flag (flag : Z) : bool := bool_decide (flag < 0).

(** *** [benchmarker_realtime] *)
Definition benchmarker_realtime : M State realtype :=
  let* hs := gets host_state in
  let '(r, hs') := benchmarker_time W hs in
  modify (set_host_state hs') ;;;
  let* is_float := PyFloat_Check r in
  if negb is_float then ret (-1)%float else
  let* o := deref r in
  let* start := gets realtime_start in
  ret (PyFloat_AsDouble o - start)%float.

(** *** [rhs]: the right-hand side of the ODE

    The fixed-form pacing systems are looked up, then the model is updated
    and evaluated. The result is what the function returns; the derivatives
    stay in the model. *)
Fixpoint rhs_pacing (k : nat) (i : nat) (t' : realtype) : M State bool :=
  match k with
  | O => ret true
  | S k' =>
      let* systems := gets pacing_systems in
      let* sys := rd (cells systems) i in
      match sys with
      | FIXED fixed =>
          let '(level, flag_fpacing) := FSys_GetLevel W fixed t' in
          let* pc := gets pacing in
          let* pc' := deref (wr (cells pc) i level) in
          modify (set_pacing (Some pc')) ;;;
          if decide (flag_fpacing <> FSys_OK W) then ret false
          else rhs_pacing k' (S i) t'
      | EVENT _ => rhs_pacing k' (S i) t'
      end
  end.

Definition rhs (t' : realtype) (y' : N_Vector) : M State Z :=
  let* n := gets n_pace in
  let* ok := rhs_pacing (Z.to_nat n) 0 t' in
  if negb ok then ret (-1) else
  (* Set time, pace, evaluations and realtime *)
  modify (fun s => set_evaluations (wrap64 (evaluations s + 1)) s) ;;;
  let* pc := gets pacing in
  let* rt := gets realtime in
  let* ev := gets evaluations in
  let* _ := with_model
              (Model_SetBoundVariables t' (cells pc) rt (Z2float ev)) in
  (* Set sensitivity parameters *)
  let* hs := with_model (gets has_sensitivities) in
  (if decide (hs <> 0) then
     let* p := bind (gets udata) deref in
     let* _ := with_model (Model_SetParametersFromIndependents p) in ret tt
   else ret tt) ;;;
  (* Set states *)
  let* _ := with_model (Model_SetStates y') in
  (* Calculate state derivatives *)
  let* _ := with_model (Model_EvaluateDerivatives lc) in
  ret 0.

(** *** [shs]: the state sensitivities go to the model *)
Definition shs (sy' : list N_Vector) : M State unit :=
  let* ns := with_model (gets ns_independents) in
  let* n := with_model (gets n_states) in
  for_ ns (fun i =>
    for_ n (fun j =>
      let* v := rd sy' i in
      let* x := rd v j in
      with_model
        (let* ss := gets s_states in
         let* ss' := deref (wr ss (i * Z.to_nat n + j)%nat x) in
         modify (set_s_states ss')))) ;;;
  let* _ := with_model Model_EvaluateSensitivityOutputs in
  ret tt.

(** *** [sim_clean]

    Every block is freed and every pointer to it is dead afterwards; the
    pointers the source leaves dangling ([pbar], an aliasing [z]) are shown
    as NULL as well, [sim_init] resetting them before any use. *)
Definition sim_clean : M State unit :=
  let* init := gets initialized in
  if decide (init = 0) then ret tt else
  (* CVode arrays *)
  modify (set_y None) ;;;
  modify (set_ylast None) ;;;
  let* sy0 := gets sy in
  (if sy0 is Some _ then
     let* _ := with_model (gets ns_independents) in modify (set_sy None)
   else ret tt) ;;;
  modify (set_z Z_NULL) ;;;
  modify (set_sz Z_NULL) ;;;
  (* Root finding results *)
  modify (set_rf_direction None) ;;;
  (* Sundials objects *)
  modify (set_cvode_mem None) ;;;
  (* User data and parameter scale array *)
  modify (set_pbar None) ;;;
  modify (set_udata None) ;;;
  (* Pacing systems *)
  let* n := gets n_pace in
  for_ n (fun i =>
    let* systems := gets pacing_systems in
    let* _ := rd (cells systems) i in ret tt) ;;;
  modify (set_pacing_systems None) ;;;
  modify (set_pacing None) ;;;
  (* CModel *)
  modify (set_model None) ;;;
  (* Deinitialisation complete *)
  modify (set_initialized 0).

(** [return sim_clean();] after an exception was set, and [sim_cleanx]. *)
Definition clean_raise {A} (e : sim_error) : M State A :=
  sim_clean ;;; raise e.

Definition sim_cleanx {A} (ex_type : PyExc) (msg : string) : M State A :=
  clean_raise (Err_msg ex_type msg).

(** *** [sim_init] *)

(** The argument tuple, as [PyArg_ParseTuple(args, "ddOOOOOOOdOOidOOi", ...)]
    reads it. *)
Record init_args := {
  arg_tmin : realtype;            (*  0. Float: initial time *)
  arg_tmax : realtype;            (*  1. Float: final time *)
  arg_state_py : PyObject;        (*  2. List: initial and final state *)
  arg_s_state_py : PyObject;      (*  3. List of lists: state sensitivities *)
  arg_bound_py : PyObject;        (*  4. List: store final bound variables here *)
  arg_literals : PyObject;        (*  5. List: literal constant values *)
  arg_parameters : PyObject;      (*  6. List: parameter values *)
  arg_protocols : PyObject;       (*  7. Event-based or fixed protocols *)
  arg_log_dict : PyDict;          (*  8. DataLog *)
  arg_log_interval : realtype;    (*  9. Float: log interval, or 0 *)
  arg_log_times : PyObject;       (* 10. List of logging times, or None *)
  arg_sens_list : PyObject;       (* 11. List to store sensitivities in *)
  arg_rf_index : Z;               (* 12. Int: root-finding state variable *)
  arg_rf_threshold : realtype;    (* 13. Float: root-finding threshold *)
  arg_rf_list : PyObject;         (* 14. List to store roots in or None *)
  arg_benchmarker : PyObject;     (* 15. myokit.tools.Benchmarker object *)
  arg_log_realtime : Z            (* 16. Int: 1 if logging real time *)
}.

(** [Py_TYPE(o)->tp_name]. *)
Definition tp_name_of (o : PyObject) : string :=
  match o with
  | PyNone => "NoneType"
  | PyFloat _ => "float"
  | PyLong _ => "int"
  | PyTuple _ => "tuple"
  | PyRef _ => "list"
  | PyObj name _ => name
  end.

Definition is_None (o : PyObject) : bool :=
  match o with PyNone => true | _ => false end.

(** [Model_Log(model)] on the global model and the host's heap. *)
Definition Model_Log_global : M State Model_Flag :=
  let* mo := gets model in
  match mo with
  | None => ret Model_INVALID_MODEL
  | Some m =>
      let* h := gets py_heap in
      match Model_Log m h with
      | None => undefined
      | Some (flag, h') => modify (set_py_heap h') ;;; ret flag
      end
  end.

Definition Model_LogSensitivityMatrix_global : M State Model_Flag :=
  let* mo := gets model in
  match mo with
  | None => ret Model_INVALID_MODEL
  | Some m =>
      let* h := gets py_heap in
      let* sl := gets sens_list in
      let '(flag, h') := Model_LogSensitivityMatrix m sl h in
      modify (set_py_heap h') ;;; ret flag
  end.

(** One log row: [Model_Log], and the sensitivity matrix when the model has
    sensitivities. *)
Definition log_row (svec : M State (list N_Vector)) : M State unit :=
  let* flag_model := Model_Log_global in
  if decide (flag_model <> Model_OK) then clean_raise (Err_model flag_model)
  else
  let* hs := with_model (gets has_sensitivities) in
  if decide (hs <> 0) then
    let* sv := svec in
    shs sv ;;;
    let* flag_model := Model_LogSensitivityMatrix_global in
    if decide (flag_model <> Model_OK) then clean_raise (Err_model flag_model)
    else ret tt
  else ret tt.

(** An entry of [log_times] as a double. *)
Definition read_log_time (val : PyPtr) : M State realtype :=
  let* is_float := PyFloat_Check val in
  let* o := deref val in
  if is_float then ret (PyFloat_AsDouble o)
  else if PyNumber_Check o then
    match PyNumber_Float o with
    | None => sim_cleanx PyExc_ValueError
                "Unable to cast entry in 'log_times' to float."
    | Some r => ret (PyFloat_AsDouble r)
    end
  else sim_cleanx PyExc_ValueError "Entries in 'log_times' must be floats.".

Definition log_times_size : M State Z :=
  let* lt := gets log_times in
  let* h := gets py_heap in
  ret (match lt with Some o => PySequence_Size h o | None => -1 end).

Definition log_times_item (i : Z) : M State PyPtr :=
  let* lt := gets log_times in
  let* h := gets py_heap in
  ret (match lt with Some o => PySequence_GetItem h o i | None => None end).

(** [while (ilog < PySequence_Size(log_times) && tlog < t)] of [sim_init]:
    every turn increments [ilog], so that [k] turns suffice when [k] is the
    size of the sequence. *)
Fixpoint first_log_point (k : nat) : M State unit :=
  match k with
  | O => ret tt
  | S k' =>
      let* il := gets ilog in
      let* size := log_times_size in
      let* tl := gets tlog in
      let* tt' := gets t in
      if bool_decide (il < size) && (tl <? tt')%float then
        let* val := log_times_item il in
        let* x := read_log_time val in
        modify (set_tlog x) ;;;
        modify (fun s => set_ilog (wrap64 (ilog s + 1)) s) ;;;
        first_log_point k'
      else ret tt
  end.

(** The initial state goes from [state_py] to the model and to [y]. *)
Definition init_state : M State unit :=
  let* h := gets py_heap in
  let* sp := gets state_py in
  if negb (is_list h sp) then
    sim_cleanx PyExc_TypeError "'state_py' must be a list." else
  let* n := with_model (gets n_states) in
  for_ n (fun i =>
    let val := PyList_GetItem h sp i in
    let* is_float := PyFloat_Check val in
    if negb is_float then
      sim_cleanx PyExc_ValueError "Item %d in state vector is not a float."
    else
    let* o := deref val in
    with_model (poke (P_states i) (PyFloat_AsDouble o)) ;;;
    let* x := with_model (peek (P_states i)) in
    let* yv := bind (gets y) deref in
    let* yv' := deref (wr yv i x) in
    modify (set_y (Some yv'))).

(** The initial state sensitivities go to [sy] and to the model. *)
Definition init_s_state : M State unit :=
  let* hs := with_model (gets has_sensitivities) in
  if decide (hs = 0) then ret tt else
  let* h := gets py_heap in
  let* ssp := gets s_state_py in
  if negb (is_list h ssp) then
    sim_cleanx PyExc_TypeError "'s_state_py' must be a list." else
  let* ns := with_model (gets ns_independents) in
  let* n := with_model (gets n_states) in
  for_ ns (fun i =>
    let* val := deref (PyList_GetItem h ssp i) in
    if negb (is_list h val) then
      sim_cleanx PyExc_ValueError
        "Item %d in state sensitivity matrix is not a list."
    else
    for_ n (fun j =>
      let r := PyList_GetItem h val j in
      let* is_float := PyFloat_Check r in
      if negb is_float then
        sim_cleanx PyExc_ValueError
          "Item %d, %d in state sensitivity matrix is not a float."
      else
      let* o := deref r in
      let* svs := bind (gets sy) deref in
      let* sv := rd svs i in
      let* sv' := deref (wr sv j (PyFloat_AsDouble o)) in
      modify (set_sy (Some (<[i := sv']> svs))) ;;;
      with_model
        (let* ss := gets s_states in
         let* ss' := deref (wr ss (i * Z.to_nat n + j)%nat (PyFloat_AsDouble o)) in
         modify (set_s_states ss')))).

(** The literals and, with sensitivities, the parameters. *)
Definition init_constants (literals' parameters' : PyObject) : M State unit :=
  let* h := gets py_heap in
  if negb (is_list h literals') then
    sim_cleanx PyExc_TypeError "'literals' must be a list." else
  let* nl := with_model (gets n_literals) in
  for_ nl (fun i =>
    let val := PyList_GetItem h literals' i in
    let* is_float := PyFloat_Check val in
    if negb is_float then
      sim_cleanx PyExc_ValueError "Item %d in literal vector is not a float."
    else
    let* o := deref val in
    with_model (poke (P_literals i) (PyFloat_AsDouble o))) ;;;
  (* Evaluate calculated constants *)
  let* _ := with_model (Model_EvaluateLiteralDerivedVariables lc) in
  (* Set model parameters *)
  let* hs := with_model (gets has_sensitivities) in
  if decide (hs = 0) then ret tt else
  if negb (is_list h parameters') then
    sim_cleanx PyExc_TypeError "'parameters' must be a list." else
  let* np := with_model (gets n_parameters) in
  for_ np (fun i =>
    let val := PyList_GetItem h parameters' i in
    let* is_float := PyFloat_Check val in
    if negb is_float then
      sim_cleanx PyExc_ValueError "Item %d in parameter vector is not a float."
    else
    let* o := deref val in
    with_model (poke (P_parameters i) (PyFloat_AsDouble o))) ;;;
  let* _ := with_model Model_EvaluateParameterDerivedVariables in
  ret tt.

(** The scale of independent [p] in the error control of the sensitivities:
    [(p == 0.0 ? 1.0 : fabs(p))]. *)
Definition pbar_of (p : realtype) : realtype :=
  if (p =? 0.0)%float then 1.0%float else fabs p.

(** [UserData] with the values of the independents, and the parameter
    scaling vector [pbar]. *)
Definition init_udata : M State unit :=
  let* hs := with_model (gets has_sensitivities) in
  if decide (hs = 0) then ret tt else
  let* ns := with_model (gets ns_independents) in
  modify (set_udata (Some (malloc_realtype lc ns))) ;;;
  for_ ns (fun i =>
    let* ptrs := with_model (gets s_independents) in
    let* ptr := rd ptrs i in
    let* v := with_model (peek ptr) in
    let* p := gets udata in
    let* p' := deref (wr (cells p) i v) in
    modify (set_udata (Some p'))) ;;;
  (* Create parameter scaling vector, for error control *)
  modify (set_pbar (Some (malloc_realtype lc ns))) ;;;
  for_ ns (fun i =>
    let* p := gets udata in
    let* v := rd (cells p) i in
    let* pb := gets pbar in
    let* pb' := deref (wr (cells pb) i (pbar_of v)) in
    modify (set_pbar (Some pb'))).

(** The pacing systems. [pacing_systems] and [pacing_types] are filled
    protocol by protocol; when a step fails the remaining entries stay
    uninitialised. *)
Definition store_psys (i : nat) (sys : PSys ESys FSys) : M State unit :=
  let* n := gets n_pace in
  let* systems := gets pacing_systems in
  let* systems' := deref (wr_prefix n (cells systems) (Z.of_nat i) sys) in
  modify (set_pacing_systems (Some systems')).

Definition init_protocol (i : nat) (protocol : PyObject) : M State unit :=
  let* h := gets py_heap in
  let protocol_type_name := tp_name_of protocol in
  if String.eqb protocol_type_name "Protocol" then
    let '(flag_epacing, epacing) := ESys_Create W in
    store_psys i (EVENT epacing) ;;;
    if decide (flag_epacing <> ESys_OK W)
    then clean_raise (Err_esys flag_epacing) else
    let '(flag_epacing, epacing) := ESys_Populate W epacing protocol h in
    store_psys i (EVENT epacing) ;;;
    if decide (flag_epacing <> ESys_OK W)
    then clean_raise (Err_esys flag_epacing) else
    let* tmin' := gets tmin in
    let '(flag_epacing, epacing) := ESys_AdvanceTime W epacing tmin' in
    store_psys i (EVENT epacing) ;;;
    if decide (flag_epacing <> ESys_OK W)
    then clean_raise (Err_esys flag_epacing) else
    let t_proposed := ESys_GetNextTime W epacing in
    let* pc := gets pacing in
    let* pc' := deref (wr (cells pc) i (ESys_GetLevel W epacing)) in
    modify (set_pacing (Some pc')) ;;;
    modify (fun s => set_tnext (fmin t_proposed (tnext s)) s)
  else if String.eqb protocol_type_name "TimeSeriesProtocol" then
    let '(flag_fpacing, fpacing) := FSys_Create W in
    store_psys i (FIXED fpacing) ;;;
    if decide (flag_fpacing <> FSys_OK W)
    then clean_raise (Err_fsys flag_fpacing) else
    let '(flag_fpacing, fpacing) := FSys_Populate W fpacing protocol h in
    store_psys i (FIXED fpacing) ;;;
    if decide (flag_fpacing <> FSys_OK W)
    then clean_raise (Err_fsys flag_fpacing) else
    ret tt
  else
    sim_cleanx PyExc_TypeError
      "Item %d in 'protocols' is not a myokit.Protocol or myokit.TimeSeriesProtocol object.".

Definition init_pacing (protocols' : PyObject) : M State unit :=
  let* h := gets py_heap in
  modify (set_n_pace 0) ;;;
  (if is_None protocols' then ret tt else
   if negb (is_list h protocols') then
     sim_cleanx PyExc_TypeError "'protocols' must be a list."
   else modify (set_n_pace (PyList_Size h protocols'))) ;;;
  let* n := gets n_pace in
  modify (set_pacing_systems (Some [])) ;;;
  modify (set_pacing (Some (malloc_realtype lc n))) ;;;
  let* _ := with_model (Model_SetupPacing lc n) in
  (* Unless set by pacing, tnext is set to tmax *)
  modify (fun s => set_tnext (tmax s) s) ;;;
  (* Set up event-based and/or fixed pacing. *)
  if is_None protocols' then ret tt else
  for_ (PyList_Size h protocols') (fun i =>
    let* protocol := deref (PyList_GetItem h protocols' i) in
    init_protocol i protocol).

(** A call that configures the integrator; a negative flag ends [sim_init]. *)
Definition cvodes_configure (call : cvodes_call) (funcname : string)
  : M State unit :=
  let* mem := bind (gets cvode_mem) deref in
  let '(flag_cvode, mem') := cvodes_setup W mem call in
  modify (set_cvode_mem (Some mem')) ;;;
  if check_cvode_flag flag_cvode then clean_raise (Err_cvode funcname flag_cvode)
  else ret tt.

(** The solver: backwards differentiation and Newton iterations, the dense
    linear solver (the call [CVDense] of SUNDIALS 2 stands for the matrix and
    solver calls of the later versions), and the forward sensitivities. *)
Definition init_solver : M State unit :=
  let* ode := with_model (gets is_ode) in
  if decide (ode = 0) then ret tt else
  match CVodeCreate W with
  | None => clean_raise (Err_cvode "CVodeCreate" 0)
  | Some mem =>
      modify (set_cvode_mem (Some mem)) ;;;
      cvodes_configure CVodeSetErrHandlerFn_ "CVodeInit" ;;;
      let* t0 := gets t in
      let* y0 := bind (gets y) deref in
      cvodes_configure (CVodeInit_ t0 y0) "CVodeInit" ;;;
      let* rtol := gets rel_tol in
      let* atol := gets abs_tol in
      cvodes_configure (CVodeSStolerances_ rtol atol) "CVodeSStolerances" ;;;
      let* hmax := gets dt_max in
      cvodes_configure
        (CVodeSetMaxStep_ (if (hmax <? 0)%float then 0.0%float else hmax))
        "CVodeSetmaxStep" ;;;
      let* hmin := gets dt_min in
      cvodes_configure
        (CVodeSetMinStep_ (if (hmin <? 0)%float then 0.0%float else hmin))
        "CVodeSetminStep" ;;;
      let* n := with_model (gets n_states) in
      cvodes_configure (CVDense_ n) "CVDense" ;;;
      (* Activate forward sensitivity computations *)
      let* hs := with_model (gets has_sensitivities) in
      if decide (hs = 0) then ret tt else
      let* ns := with_model (gets ns_independents) in
      let* sy0 := bind (gets sy) deref in
      cvodes_configure (CVodeSensInit_ ns sy0) "CVodeSensInit" ;;;
      let* p := bind (gets udata) deref in
      cvodes_configure (CVodeSetUserData_ p) "CVodeSetUserData" ;;;
      let* pb := gets pbar in
      cvodes_configure (CVodeSetSensParams_ p (cells pb)) "CVodeSetSensParams" ;;;
      cvodes_configure CVodeSensEEtolerances_ "CVodeSensEEtolerances"
  end.

(** The root function: [gout[0] = NV_Ith_S(y, rf_index) - rf_threshold]. *)
Definition rf_function (s : State) (y' : N_Vector) : option realtype :=
  if decide (0 <= rf_index s) then
    (fun v => (v - rf_threshold s)%float) <$> y' !! Z.to_nat (rf_index s)
  else None.

(** Root finding is enabled if [rf_list] is a list. The cell [rf_direction]
    is written by [CVodeGetRootInfo] before it is read. *)
Definition init_root_finding : M State unit :=
  modify (set_rf_direction None) ;;;
  let* ode := with_model (gets is_ode) in
  let* h := gets py_heap in
  let* rl := gets rf_list in
  if bool_decide (ode <> 0) && is_list h rl then
    cvodes_configure (CVodeRootInit_ 1) "CVodeRootInit" ;;;
    modify (set_rf_direction (Some 0))
  else ret tt.

(** Logging: the loss-of-precision check, the bindings, the logging points
    and, with dynamic logging, the first point. *)
Definition init_logging : M State unit :=
  let* li := gets log_interval in
  let* tmax' := gets tmax in
  (if (0 <? li)%float && (tmax' + li =? tmax')%float then
     sim_cleanx PyExc_ValueError
       "Log interval is too small compared to tmax; issue with numerical precision: float(tmax + log_interval) = float(tmax)."
   else ret tt) ;;;
  (* Set up logging *)
  let* ld := gets log_dict in
  let* flag_model := with_model (Model_InitializeLogging ld) in
  (if decide (flag_model <> Model_OK) then clean_raise (Err_model flag_model)
   else ret tt) ;;;
  (* Check logging list for sensitivities *)
  let* hs := with_model (gets has_sensitivities) in
  let* h := gets py_heap in
  let* sl := gets sens_list in
  (if bool_decide (hs <> 0) && negb (is_list h sl) then
     sim_cleanx PyExc_TypeError "'sens_list' must be a list."
   else ret tt) ;;;
  (* Set logging points *)
  let* lt := gets log_times in
  if (0 <? li)%float then
    (* Periodic logging *)
    modify (set_ilog 0) ;;;
    modify (fun s => set_tlog (tmin s) s)
  else if negb (if lt is Some PyNone then true else false) then
    (* Point-list logging *)
    let* lto := deref lt in
    if negb (PySequence_Check h lto) then
      sim_cleanx PyExc_TypeError "'log_times' must be a sequence type."
    else
    (* Read next log point off the sequence *)
    modify (set_ilog 0) ;;;
    modify (fun s => set_tlog (t s - 1)%float s) ;;;
    first_log_point (Z.to_nat (PySequence_Size h lto)) ;;;
    (* No points beyond time? Then don't log any future points. *)
    let* tl := gets tlog in
    let* tt' := gets t in
    if (tl <? tt')%float then modify (fun s => set_tlog (tmax s + 1)%float s)
    else ret tt
  else
    (* Dynamic logging: log the first entry, but only if not appending to
       an existing log. *)
    let log_first_point :=
      match head ld with
      | Some (_, val) => bool_decide (PyObject_Size h val <= 0)
      | None => true
      end in
    if log_first_point then
      let* tt' := gets t in
      let* yv := bind (gets y) deref in
      let* _ := rhs tt' yv in
      log_row (bind (gets sy) deref)
    else ret tt.

Definition sim_init (args : init_args) (literals' := arg_literals args)
  (parameters' := arg_parameters args) (protocols' := arg_protocols args)
  : M State unit :=
  (* Check if already initialized *)
  let* init := gets initialized in
  if decide (init <> 0) then
    raise (Err_msg PyExc_Exception "Simulation already initialized.") else
  (* Set all global pointers to null *)
  modify (set_model None) ;;;
  modify (set_pacing_systems None) ;;;
  modify (set_pacing None) ;;;
  modify (set_udata None) ;;;
  modify (set_pbar None) ;;;
  modify (set_y None) ;;;
  modify (set_sy None) ;;;
  modify (set_z Z_NULL) ;;;
  modify (set_sz Z_NULL) ;;;
  modify (set_ylast None) ;;;
  modify (set_log_times None) ;;;
  modify (set_cvode_mem None) ;;;
  (* Check input arguments *)
  modify (set_tmin (arg_tmin args)) ;;;
  modify (set_tmax (arg_tmax args)) ;;;
  modify (set_state_py (arg_state_py args)) ;;;
  modify (set_s_state_py (arg_s_state_py args)) ;;;
  modify (set_bound_py (arg_bound_py args)) ;;;
  modify (set_log_dict (arg_log_dict args)) ;;;
  modify (set_log_interval (arg_log_interval args)) ;;;
  modify (set_log_times (Some (arg_log_times args))) ;;;
  modify (set_sens_list (arg_sens_list args)) ;;;
  modify (set_rf_index (arg_rf_index args)) ;;;
  modify (set_rf_threshold (arg_rf_threshold args)) ;;;
  modify (set_rf_list (arg_rf_list args)) ;;;
  modify (set_benchmarker (arg_benchmarker args)) ;;;
  modify (set_log_realtime (arg_log_realtime args)) ;;;
  (* Now officialy initialized *)
  modify (set_initialized 1) ;;;
  (* Set simulation starting time *)
  modify (fun s => set_t (tmin s) s) ;;;
  (* Reset solver stats *)
  modify (set_steps 0) ;;;
  modify (set_zero_step_count 0) ;;;
  modify (set_evaluations 0) ;;;
  modify (set_realtime 0%float) ;;;
  let* lr := gets log_realtime in
  (if decide (lr <> 0) then modify (set_realtime_start 0%float) else ret tt) ;;;
  (* Create model *)
  match Model_Create lc with
  | Ok flag_model m =>
      modify (set_model (Some m)) ;;;
      if decide (flag_model <> Model_OK)
      then clean_raise (Err_model flag_model) else ret tt
  | _ => undefined
  end ;;;
  (* Create state vectors *)
  let* n := with_model (gets n_states) in
  modify (set_y (Some (N_VNew_Serial lc n))) ;;;
  modify (set_ylast (Some (N_VNew_Serial lc n))) ;;;
  let* hs := with_model (gets has_sensitivities) in
  let* ns := with_model (gets ns_independents) in
  (if decide (hs <> 0) then
     modify (set_sy (Some (replicate (Z.to_nat ns) (N_VNew_Serial lc n))))
   else ret tt) ;;;
  (* Determine if dynamic logging is being used *)
  let* li := gets log_interval in
  modify (set_dynamic_logging
            (Z.b2z ((li <=? 0)%float && is_None (arg_log_times args)))) ;;;
  (* Create state vectors for logging *)
  let* dl := gets dynamic_logging in
  let* ode := with_model (gets is_ode) in
  (if bool_decide (dl <> 0) || bool_decide (ode = 0) then
     modify (set_z Z_alias) ;;; modify (set_sz Z_alias)
   else
     modify (set_z (Z_own (N_VNew_Serial lc n))) ;;;
     if decide (hs <> 0) then
       modify (set_sz (Z_own (replicate (Z.to_nat ns) (N_VNew_Serial lc n))))
     else ret tt) ;;;
  (* Set initial state in model and vectors *)
  init_state ;;;
  init_s_state ;;;
  (* Set values of constants (literals and parameters) *)
  init_constants literals' parameters' ;;;
  (* Create UserData with sensitivity vector *)
  init_udata ;;;
  (* Set up pacing systems *)
  init_pacing protocols' ;;;
  (* Create solver *)
  init_solver ;;;
  (* Root finding *)
  init_root_finding ;;;
  (* Set up logging, and log first step if needed. *)
  init_logging.

(** *** [sim_step] *)

Definition out_of_fuel {A} : M State A := fun _ => OutOfFuel.

(** [PyList_SetItem(list, i, PyFloat_FromDouble(x))], [list] being read
    from the driver's variables. *)
Definition set_item (list : State -> PyObject) (i : nat) (x : realtype)
  : M State unit :=
  modify (fun s =>
    set_py_heap
      (PyList_SetItem (py_heap s) (list s) i (PyFloat_FromDouble x)) s).

(** The bound variables go to [bound_py]: the time [t'], [realtime],
    [evaluations] and the pacing values. *)
Definition write_bound (t' : realtype) : M State unit :=
  set_item bound_py 0 t' ;;;
  let* rt := gets realtime in
  set_item bound_py 1 rt ;;;
  let* ev := gets evaluations in
  set_item bound_py 2 (Z2float ev) ;;;
  let* n := gets n_pace in
  for_ n (fun i =>
    let* pc := gets pacing in
    let* x := rd (cells pc) i in
    set_item bound_py (3 + i) x).

(** After a failure of [CVode]: the backup [ylast] goes to [state_py], the
    bound variables at [tlast] go to [bound_py]. *)
Definition write_error_outputs : M State unit :=
  let* n := with_model (gets n_states) in
  for_ n (fun i =>
    let* yl := bind (gets ylast) deref in
    let* x := rd yl i in
    set_item state_py i x) ;;;
  let* tl := gets tlast in
  write_bound tl.

(** After the last step: the final state, the final sensitivities and the
    bound variables at [t]. *)
Definition write_final_outputs : M State unit :=
  let* n := with_model (gets n_states) in
  for_ n (fun i =>
    let* yv := bind (gets y) deref in
    let* x := rd yv i in
    set_item state_py i x) ;;;
  let* hs := with_model (gets has_sensitivities) in
  (if decide (hs <> 0) then
     let* ns := with_model (gets ns_independents) in
     for_ ns (fun i =>
       let* h := gets py_heap in
       let* ssp := gets s_state_py in
       let* val := deref (PyList_GetItem h ssp i) in
       for_ n (fun j =>
         let* svs := bind (gets sy) deref in
         let* sv := rd svs i in
         let* x := rd sv j in
         set_item (fun _ => val) j x))
   else ret tt) ;;;
  let* tt' := gets t in
  write_bound tt'.

(** The right-hand side evaluations that a call of [CVode] makes. *)
Fixpoint rhs_calls (calls : list (realtype * N_Vector)) : M State unit :=
  match calls with
  | [] => ret tt
  | (t', y') :: rest => let* _ := rhs t' y' in rhs_calls rest
  end.

(** [flag_cvode = CVode(cvode_mem, tnext, y, &t, CV_ONE_STEP);] *)
Definition call_CVode : M State Z :=
  let* s := gets id in
  let r := CVode W s (tnext s) in
  rhs_calls (cv_rhs_calls r) ;;;
  modify (set_cvode_mem (Some (cv_mem r))) ;;;
  modify (set_y (Some (cv_y r))) ;;;
  modify (set_t (cv_t r)) ;;;
  ret (cv_flag r).

(** The vector [z] points at, and a store through [z]. *)
Definition read_z : M State N_Vector :=
  let* zp := gets z in
  match zp with
  | Z_own v => ret v
  | Z_alias => bind (gets y) deref
  | Z_NULL => undefined
  end.

Definition write_z (v : N_Vector) : M State unit :=
  let* zp := gets z in
  match zp with
  | Z_own _ => modify (set_z (Z_own v))
  | Z_alias => modify (set_y (Some v))
  | Z_NULL => undefined
  end.

Definition read_sz : M State (list N_Vector) :=
  let* zp := gets sz in
  match zp with
  | Z_own v => ret v
  | Z_alias => bind (gets sy) deref
  | Z_NULL => undefined
  end.

Definition write_sz (v : list N_Vector) : M State unit :=
  let* zp := gets sz in
  match zp with
  | Z_own _ => modify (set_sz (Z_own v))
  | Z_alias => modify (set_sy (Some v))
  | Z_NULL => undefined
  end.

(** Check if progress is being made. *)
Definition check_progress : M State unit :=
  let* tt' := gets t in
  let* tl := gets tlast in
  if (tt' =? tl)%float then
    modify (fun s =>
      set_zero_step_count (wrap32 (zero_step_count s + 1)) s) ;;;
    let* zc := gets zero_step_count in
    if decide (zc >= max_zero_step_count) then
      sim_cleanx PyExc_ArithmeticError
        "Maximum number of zero-length steps taken at t=%g"
    else ret tt
  else
    (* Only count consecutive zero steps *)
    modify (set_zero_step_count 0).

(** [PyList_Append(rf_list, val)], and the exception when it fails. *)
Definition append_root (val : PyObject) : M State unit :=
  let* h := gets py_heap in
  let* rl := gets rf_list in
  match PyList_Append h rl val with
  | None => sim_cleanx PyExc_Exception
              "Call to append() failed on root finding list."
  | Some h' => modify (set_py_heap h')
  end.

(** Root found: the tuple of the time and the direction is stored. *)
Definition record_root (flag_cvode : Z) : M State unit :=
  if decide (flag_cvode = CV_ROOT_RETURN) then
    let* s := gets id in
    let '(flag_root, direction) := CVodeGetRootInfo W s in
    let* _ := bind (gets rf_direction) deref in
    modify (set_rf_direction (Some direction)) ;;;
    (if check_cvode_flag flag_root
     then clean_raise (Err_cvode "CVodeGetRootInfo" flag_root)
     else ret tt) ;;;
    (* Store tuple (time, direction) for the found root *)
    let* tt' := gets t in
    append_root
      (PyTuple [PyFloat_FromDouble tt'; PyLong_FromLong direction])
  else ret tt.

(** Rewinding to [tnext], and root finding. The result is [flag_reinit]. *)
Definition rewind_or_root (flag_cvode : Z) (flag_reinit : Z) : M State Z :=
  let* tt' := gets t in
  let* tn := gets tnext in
  let* hs := with_model (gets has_sensitivities) in
  if (tn <? tt')%float then
    (* Go back to time=tnext *)
    let* s := gets id in
    let '(flag_cvode, v) := CVodeGetDky W s tn in
    modify (set_y (Some v)) ;;;
    (if check_cvode_flag flag_cvode
     then clean_raise (Err_cvode "CVodeGetDky" flag_cvode) else ret tt) ;;;
    (if decide (hs <> 0) then
       let* s := gets id in
       let '(flag_cvode, sv) := CVodeGetSensDky W s tn in
       modify (set_sy (Some sv)) ;;;
       if check_cvode_flag flag_cvode
       then clean_raise (Err_cvode "CVodeGetSensDky" flag_cvode) else ret tt
     else ret tt) ;;;
    modify (set_t tn) ;;;
    (* Require reinit (after logging) *)
    ret 1
  else
    (* Get current sensitivity vector *)
    let* flag_cvode :=
      (if decide (hs <> 0) then
         let* s := gets id in
         let '(flag_cvode, t', sv) := CVodeGetSens W s in
         modify (set_t t') ;;;
         modify (set_sy (Some sv)) ;;;
         if check_cvode_flag flag_cvode
         then clean_raise (Err_cvode "CVodeGetSens" flag_cvode)
         else ret flag_cvode
       else ret flag_cvode) in
    record_root flag_cvode ;;;
    ret flag_reinit.

(** Get next logging point. *)
Definition next_log_point : M State unit :=
  let* li := gets log_interval in
  if (0 <? li)%float then
    (* Periodic logging *)
    modify (fun s => set_ilog (wrap64 (ilog s + 1)) s) ;;;
    modify (fun s =>
      set_tlog (tmin s + Z2float (ilog s) * log_interval s)%float s) ;;;
    let* il := gets ilog in
    if decide (il = 0) then
      sim_cleanx PyExc_OverflowError
        "Overflow in logged step count: Simulation too long!"
    else ret tt
  else
    (* Point-list logging *)
    let* il := gets ilog in
    let* size := log_times_size in
    if decide (il < size) then
      let* val := log_times_item il in
      let* t_proposed := read_log_time val in
      let* tl := gets tlog in
      if (t_proposed <? tl)%float then
        sim_cleanx PyExc_ValueError
          "Values in log_times must be non-decreasing."
      else
        modify (set_tlog t_proposed) ;;;
        modify (fun s => set_ilog (wrap64 (ilog s + 1)) s)
    else
      modify (fun s => set_tlog (tmax s + 1)%float s).

(** One interpolated point is logged at [tlog]. *)
Definition log_interpolated_point : M State unit :=
  (* Benchmarking? Then set realtime *)
  let* lr := gets log_realtime in
  (if decide (lr <> 0) then
     let* rt := benchmarker_realtime in
     modify (set_realtime rt) ;;;
     if (rt <? 0)%float then
       sim_cleanx PyExc_Exception
         "Failed to set realtime during interpolation logging."
     else ret tt
   else ret tt) ;;;
  (* Get interpolated y(tlog) *)
  let* ode := with_model (gets is_ode) in
  let* hs := with_model (gets has_sensitivities) in
  let* tl := gets tlog in
  (if decide (ode <> 0) then
     let* s := gets id in
     let '(flag_cvode, v) := CVodeGetDky W s tl in
     write_z v ;;;
     (if check_cvode_flag flag_cvode
      then clean_raise (Err_cvode "CVodeGetDky" flag_cvode) else ret tt) ;;;
     if decide (hs <> 0) then
       let* s := gets id in
       let '(flag_cvode, sv) := CVodeGetSensDky W s tl in
       write_sz sv ;;;
       if check_cvode_flag flag_cvode
       then clean_raise (Err_cvode "CVodeGetSensDky" flag_cvode) else ret tt
     else ret tt
   else ret tt) ;;;
  (* Calculate intermediate variables & derivatives *)
  let* zv := read_z in
  let* _ := rhs tl zv in
  (* Write to log *)
  log_row read_sz ;;;
  next_log_point.

(** [while (t > tlog) { ... }] *)
Fixpoint log_interpolated (fuel : nat) : M State unit :=
  let* tt' := gets t in
  let* tl := gets tlog in
  match fuel with
  | O => if (tl <? tt')%float then out_of_fuel else ret tt
  | S fuel' =>
      if (tl <? tt')%float then
        log_interpolated_point ;;; log_interpolated fuel'
      else ret tt
  end.

(** Event-based pacing: at this point everything before time [t] is logged,
    and the pacing systems are updated to time [t]. *)
Definition update_pacing : M State unit :=
  modify (fun s => set_tnext (tmax s) s) ;;;
  let* n := gets n_pace in
  for_ n (fun i =>
    let* systems := gets pacing_systems in
    let* sys := rd (cells systems) i in
    match sys with
    | EVENT epacing =>
        let* tt' := gets t in
        let '(flag_epacing, epacing') := ESys_AdvanceTime W epacing tt' in
        modify (set_pacing_systems (Some (<[i := EVENT epacing']> (cells systems)))) ;;;
        if decide (flag_epacing <> ESys_OK W)
        then clean_raise (Err_esys flag_epacing) else
        let t_proposed := ESys_GetNextTime W epacing' in
        modify (fun s => set_tnext (fmin (tnext s) t_proposed) s) ;;;
        let* pc := gets pacing in
        let* pc' := deref (wr (cells pc) i (ESys_GetLevel W epacing')) in
        modify (set_pacing (Some pc'))
    | FIXED _ => ret tt
    end).

(** Dynamic logging: log every visited point. *)
Definition log_dynamic : M State unit :=
  (* Benchmarking? Then set realtime *)
  let* lr := gets log_realtime in
  (if decide (lr <> 0) then
     let* rt := benchmarker_realtime in
     modify (set_realtime rt) ;;;
     if (rt <? 0)%float then
       sim_cleanx PyExc_Exception
         "Failed to set realtime during dynamic logging."
     else ret tt
   else ret tt) ;;;
  (* Ensure the logged values are correct for the new time t *)
  let* ld := with_model (gets logging_derivatives) in
  let* lint := with_model (gets logging_intermediary) in
  let* hs := with_model (gets has_sensitivities) in
  let* lb := with_model (gets logging_bound) in
  let* tt' := gets t in
  (if bool_decide (ld <> 0) || bool_decide (lint <> 0) || bool_decide (hs <> 0)
   then
     let* yv := bind (gets y) deref in
     let* _ := rhs tt' yv in ret tt
   else if decide (lb <> 0) then
     let* pc := gets pacing in
     let* rt := gets realtime in
     let* ev := gets evaluations in
     let* _ := with_model
                 (Model_SetBoundVariables tt' (cells pc) rt (Z2float ev)) in
     ret tt
   else ret tt) ;;;
  (* Write to log *)
  log_row (bind (gets sy) deref).

(** Reinitialize CVODE if needed. The result is [flag_reinit]. *)
Definition reinit_if_needed (flag_reinit : Z) : M State Z :=
  let* ode := with_model (gets is_ode) in
  if bool_decide (ode <> 0) && bool_decide (flag_reinit <> 0) then
    let* s := gets id in
    let* yv := bind (gets y) deref in
    let '(flag_cvode, mem') := CVodeReInit W s (t s) yv in
    modify (set_cvode_mem (Some mem')) ;;;
    (if check_cvode_flag flag_cvode
     then clean_raise (Err_cvode "CVodeReInit" flag_cvode) else ret tt) ;;;
    let* hs := with_model (gets has_sensitivities) in
    (if decide (hs <> 0) then
       let* s := gets id in
       let* sv := bind (gets sy) deref in
       let '(flag_cvode, mem') := CVodeSensReInit W s sv in
       modify (set_cvode_mem (Some mem')) ;;;
       if check_cvode_flag flag_cvode
       then clean_raise (Err_cvode "CVodeSensReInit" flag_cvode) else ret tt
     else ret tt) ;;;
    ret 0
  else ret flag_reinit.

(** The integrator step of one turn of the loop. The result is
    [flag_cvode]. *)
Definition integrator_step : M State Z :=
  let* ode := with_model (gets is_ode) in
  if decide (ode <> 0) then
    (* Take a single ODE step *)
    let* flag_cvode := call_CVode in
    (* Check for errors *)
    if check_cvode_flag flag_cvode then
      (* Something went wrong... Set outputs and return *)
      write_error_outputs ;;;
      clean_raise (Err_cvode "CVode" flag_cvode)
    else ret flag_cvode
  else
    (* Just jump to next event *)
    modify (fun s =>
      set_t (if (tnext s <? tmax s)%float then tnext s else tmax s) s) ;;;
    ret CV_SUCCESS.

(** The interpolated logging points, the pacing update, the dynamic logging
    point and the reinitialisation. The result is [flag_reinit]. *)
Definition log_and_pace (fuel : nat) (flag_reinit : Z) : M State Z :=
  (* Logging interpolated points (periodic logging or point-list logging) *)
  let* dl := gets dynamic_logging in
  let* tt' := gets t in
  let* tl := gets tlog in
  (if bool_decide (dl = 0) && (tl <? tt')%float
   then log_interpolated fuel else ret tt) ;;;
  update_pacing ;;;
  (if decide (dl <> 0) then log_dynamic else ret tt) ;;;
  reinit_if_needed flag_reinit.

(** What follows a successful integrator step: rewinding and root finding,
    then logging and pacing. The result is [flag_reinit]. *)
Definition after_step (fuel : nat) (flag_cvode flag_reinit : Z) : M State Z :=
  let* ode := with_model (gets is_ode) in
  let* flag_reinit :=
    (if decide (ode <> 0) then rewind_or_root flag_cvode flag_reinit
     else ret flag_reinit) in
  log_and_pace fuel flag_reinit.

(** Back-up current y, and store engine time before step. *)
Definition backup_state : M State unit :=
  let* n := with_model (gets n_states) in
  for_ n (fun i =>
    let* yv := bind (gets y) deref in
    let* x := rd yv i in
    let* yl := bind (gets ylast) deref in
    let* yl' := deref (wr yl i x) in
    modify (set_ylast (Some yl'))) ;;;
  modify (fun s => set_tlast (t s) s).

(** One turn of [while (1)], up to the test [if (t >= tmax) break;]. The
    result is [flag_reinit] and whether the loop is left. *)
Definition step_body (fuel : nat) (flag_reinit : Z) : M State (Z * bool) :=
  backup_state ;;;
  let* flag_cvode := integrator_step in
  check_progress ;;;
  (* Update step count *)
  modify (fun s => set_steps (wrap64 (steps s + 1)) s) ;;;
  (* If we got to this point without errors... *)
  let* flag_reinit :=
    (if bool_decide (flag_cvode = CV_SUCCESS)
        || bool_decide (flag_cvode = CV_ROOT_RETURN)
     then after_step fuel flag_cvode flag_reinit
     else ret flag_reinit) in
  (* Check if we're finished *)
  modify (fun s => if ESys_eq W (t s) (tmax s) then set_t (tmax s) s else s) ;;;
  let* tt' := gets t in
  let* tmax' := gets tmax in
  ret (flag_reinit, (tmax' <=? tt')%float).

(** What [sim_step] returns to Python is a float in both cases: the time
    reached when control is passed back, the final time when the simulation
    has finished. *)
Inductive step_result :=
| Yielded (t : realtype)
| Finished (t : realtype).

Definition returned_float (r : step_result) : realtype :=
  match r with Yielded x => x | Finished x => x end.

(** [while (1) { ... }] with the local variables [flag_reinit] and
    [steps_taken]; [n] bounds the number of turns. *)
Fixpoint step_loop (n : nat) (fuel : nat) (flag_reinit steps_taken : Z)
  : M State step_result :=
  match n with
  | O => out_of_fuel
  | S n' =>
      let* '(flag_reinit, finished) := step_body fuel flag_reinit in
      if (finished : bool) then
        (* Finished! Set final state *)
        write_final_outputs ;;;
        sim_clean ;;;
        let* tt' := gets t in
        ret (Finished tt')
      else
        (* Perform any Python signal handling *)
        let* hs := gets host_state in
        let '(sig, hs') := PyErr_CheckSignals W hs in
        modify (set_host_state hs') ;;;
        if decide (sig <> 0) then clean_raise Err_signal else
        (* Report back to python after every x steps *)
        let steps_taken := steps_taken + 1 in
        if decide (steps_taken >= 100) then
          let* tt' := gets t in
          ret (Yielded tt')
        else step_loop n' fuel flag_reinit steps_taken
  end.

(** [sim_step]: [fuel] bounds the turns of the loop over the interpolated
    logging points of one step. *)
Definition sim_step (fuel : nat) : M State step_result :=
  (* Set start time for logging of realtime. *)
  let* lr := gets log_realtime in
  let* rs := gets realtime_start in
  (if bool_decide (lr <> 0) && (rs =? 0)%float then
     let* rt := benchmarker_realtime in
     modify (set_realtime_start rt) ;;;
     if (rt <=? 0)%float then
       sim_cleanx PyExc_Exception "Failed to set realtime_start."
     else ret tt
   else ret tt) ;;;
  (* Go! *)
  step_loop 100 fuel 0 0.

(** *** [sim_eval_derivatives] *)

Record eval_args := {
  ev_time_in : realtype;       (* 0. Float: time *)
  ev_pace_in : PyObject;       (* 1. List: pace *)
  ev_state : PyObject;         (* 2. List: state *)
  ev_deriv : PyObject;         (* 3. List: store derivatives here *)
  ev_literals : PyObject;      (* 4. List: literal constant values *)
  ev_parameters : PyObject     (* 5. List: parameter values *)
}.

(** [for (i = 0; i < n; i++) { val = PyList_GetItem(list, i); if
    (!PyFloat_Check(val)) goto error; a[i] = PyFloat_AsDouble(val); }]: the
    [k] items from [i], or the error of the first item that is no float. *)
Fixpoint read_floats {St} (h : pyheap) (lst : PyObject) (msg : string)
  (k : nat) (i : nat) : M St (list realtype) :=
  match k with
  | O => ret []
  | S k' =>
      let val := PyList_GetItem h lst i in
      let* is_float := PyFloat_Check val in
      if negb is_float then raise (Err_msg PyExc_Exception msg) else
      let* o := deref val in
      let* rest := read_floats h lst msg k' (S i) in
      ret (PyFloat_AsDouble o :: rest)
  end.

(** The work of [sim_eval_derivatives] on its transient model. The number
    of pacing values is the static variable [n_pace] of the driver. The
    result is [model->derivatives[i]] for [i < n_states]. *)
Definition eval_derivatives_body (n_pace' : Z) (h : pyheap) (a : eval_args)
  : M Model_Memory (list realtype) :=
  let* flag_model := Model_SetupPacing lc n_pace' in
  if decide (flag_model <> Model_OK) then raise (Err_model flag_model) else
  (* Set pacing values *)
  let* pacing_in :=
    read_floats h (ev_pace_in a) "Item %d in pace vector is not a float."
      (Z.to_nat n_pace') 0 in
  (* Set bound variables *)
  let* _ := Model_SetBoundVariables (ev_time_in a) pacing_in 0%float 0%float in
  (* Set literal values *)
  let* nl := gets n_literals in
  let* lits :=
    read_floats h (ev_literals a) "Item %d in literal vector is not a float."
      (Z.to_nat nl) 0 in
  for_ nl (fun i => let* v := rd lits i in poke (P_literals i) v) ;;;
  (* Evaluate literal-derived variables *)
  let* _ := Model_EvaluateLiteralDerivedVariables lc in
  (* Set parameter values *)
  let* np := gets n_parameters in
  let* pars :=
    read_floats h (ev_parameters a)
      "Item %d in parameter vector is not a float." (Z.to_nat np) 0 in
  for_ np (fun i => let* v := rd pars i in poke (P_parameters i) v) ;;;
  (* Evaluate parameter-derived variables *)
  let* _ := Model_EvaluateParameterDerivedVariables in
  (* Set initial values *)
  let* n := gets n_states in
  let* sts :=
    read_floats h (ev_state a) "Item %d in state vector is not a float."
      (Z.to_nat n) 0 in
  for_ n (fun i => let* v := rd sts i in poke (P_states i) v) ;;;
  (* Evaluate derivatives *)
  let* _ := Model_EvaluateDerivatives lc in
  (* Set output values *)
  let* ds := gets derivatives in
  let* _ := for_ n (fun i => let* _ := rd ds i in ret tt) in
  ret (take (Z.to_nat n) ds).

(** [PyList_SetItem(deriv, i, PyFloat_FromDouble(ds[i]))] for every [i]. *)
Fixpoint set_items (h : pyheap) (lst : PyObject) (i : nat)
  (xs : list realtype) : pyheap :=
  match xs with
  | [] => h
  | x :: rest =>
      set_items (PyList_SetItem h lst i (PyFloat_FromDouble x)) lst (S i) rest
  end.

Definition sim_eval_derivatives (a : eval_args) : M State unit :=
  let* h := gets py_heap in
  (* Check lists are sequences *)
  if negb (is_list h (ev_pace_in a)) then
    raise (Err_msg PyExc_Exception "Pace argument must be a list.") else
  if negb (is_list h (ev_state a)) then
    raise (Err_msg PyExc_Exception "State argument must be a list.") else
  if negb (is_list h (ev_deriv a)) then
    raise (Err_msg PyExc_Exception "Derivatives argument must be a list.") else
  if negb (is_list h (ev_literals a)) then
    raise (Err_msg PyExc_Exception "Literals argument must be a list.") else
  if negb (is_list h (ev_parameters a)) then
    raise (Err_msg PyExc_Exception "Parameters argument must be a list.") else
  (* Create model *)
  match Model_Create lc with
  | Ok flag_model model0 =>
      if decide (flag_model <> Model_OK) then raise (Err_model flag_model) else
      let* np := gets n_pace in
      match eval_derivatives_body np h a model0 with
      | Ok ds _ =>
          modify (set_py_heap (set_items h (ev_deriv a) 0 ds))
      | Raise e _ => raise e
      | Undefined => undefined
      | OutOfFuel => out_of_fuel
      end
  | _ => undefined
  end.

End Driver.

(** ** A reference world

    A world to run the driver in: a small [libm], an explicit Euler
    integrator with linear dense output behind the CVODES interface, an event
    pacing system with one stimulus, and a host without signals. It serves
    the concrete runs below. *)

Module RefWorld.

Local Open Scope float_scope.

(** [exp]: the Taylor polynomial on [x / 1024], squared ten times. *)
Definition taylor_exp (r : float) : float :=
  1 + r * (1 + r / 2 * (1 + r / 3 * (1 + r / 4 * (1 + r / 5 *
    (1 + r / 6 * (1 + r / 7 * (1 + r / 8))))))).

Definition ref_exp (x : float) : float :=
  if is_nan x then x
  else if x <? -745 then 0
  else if 710 <? x then infinity
  else
    let e := taylor_exp (x / 1024) in
    let e := e * e in let e := e * e in let e := e * e in let e := e * e in
    let e := e * e in let e := e * e in let e := e * e in let e := e * e in
    let e := e * e in e * e.

(** [log]: [x = m * 2^e] with [m] in [[0.5, 1)], and the series of
    [2 atanh((m - 1) / (m + 1))]. *)
Definition ref_log (x : float) : float :=
  if is_nan x then x
  else if x <? 0 then nan
  else if x =? 0 then neg_infinity
  else if is_infinity x then x
  else
    let '(m, e) := Z.frexp x in
    let w := (m - 1) / (m + 1) in
    let w2 := w * w in
    let series :=
      w * (1 + w2 * (1 / 3 + w2 * (1 / 5 + w2 * (1 / 7 + w2 * (1 / 9 +
        w2 * (1 / 11 + w2 * (1 / 13 + w2 * (1 / 15 + w2 * (1 / 17 +
        w2 * (1 / 19 + w2 * (1 / 21 + w2 * (1 / 23)))))))))))) in
    2 * series + Z2float e * 0.6931471805599453.

Definition ref_pow (x y : float) : float :=
  if y =? 3 then x * x * x else ref_exp (y * ref_log x).

Definition ref_libc : Libc := {|
  c_exp := ref_exp;
  c_log := ref_log;
  c_pow := ref_pow;
  junk := fun _ => -555.5
|}.

(** The integrator's memory: the step size and the last two points. *)
Record euler_mem := {
  em_h : float;
  em_t0 : float; em_y0 : N_Vector;     (* the point before the last step *)
  em_t1 : float; em_y1 : N_Vector      (* the point after the last step *)
}.

(** One event: [level] from [start] for [duration]. *)
Record event_sys := {
  ev_start : float; ev_duration : float; ev_level : float;
  ev_time : float
}.

Abbreviation RState := (Sim euler_mem event_sys unit Z).

(** The derivatives of the model of [s] at the state [y']. *)
Definition ref_ydot (s : RState) (y' : N_Vector) : N_Vector :=
  match model s with
  | None => y'
  | Some m =>
      match (Model_SetStates y' ;;; Model_EvaluateDerivatives ref_libc) m with
      | Ok _ m' => derivatives m'
      | _ => y'
      end
  end.

Definition axpy (a : float) (x y' : N_Vector) : N_Vector :=
  zip_with (fun xi yi => yi + a * xi) x y'.

(** One explicit Euler step of size [h] from [(t, y)]; a step never fails. *)
Definition ref_CVode (s : RState) (tout : float) : CVode_result euler_mem :=
  match cvode_mem s, y s with
  | Some mem, Some y0 =>
      let y1 := axpy (em_h mem) (ref_ydot s y0) y0 in
      let t1 := t s + em_h mem in
      {| cv_flag := CV_SUCCESS;
         cv_mem := {| em_h := em_h mem; em_t0 := t s; em_y0 := y0;
                      em_t1 := t1; em_y1 := y1 |};
         cv_y := y1; cv_t := t1; cv_rhs_calls := [(t s, y0)] |}
  | _, _ =>
      {| cv_flag := -21;
         cv_mem := {| em_h := 0; em_t0 := 0; em_y0 := []; em_t1 := 0; em_y1 := [] |};
         cv_y := []; cv_t := t s; cv_rhs_calls := [] |}
  end.

(** Dense output: the line through the last two points; [CV_BAD_T] outside
    the last step. *)
Definition ref_GetDky (s : RState) (t' : float) : Z * N_Vector :=
  match cvode_mem s with
  | Some mem =>
      if (em_t0 mem <=? t') && (t' <=? em_t1 mem) then
        let a := (t' - em_t0 mem) / (em_t1 mem - em_t0 mem) in
        (0%Z, zip_with (fun y0 y1 => y0 + a * (y1 - y0)) (em_y0 mem) (em_y1 mem))
      else (-25, em_y1 mem)%Z
  | None => (-21, [])%Z
  end.

Definition ref_setup (mem : euler_mem) (call : cvodes_call) : Z * euler_mem :=
  match call with
  | CVodeInit_ t0 y0 =>
      (0%Z, {| em_h := em_h mem; em_t0 := t0; em_y0 := y0;
               em_t1 := t0; em_y1 := y0 |})
  | _ => (0%Z, mem)
  end.

Definition ref_ReInit (s : RState) (t0 : float) (y0 : N_Vector)
  : Z * euler_mem :=
  match cvode_mem s with
  | Some mem => ref_setup mem (CVodeInit_ t0 y0)
  | None => (-21, {| em_h := 0; em_t0 := 0; em_y0 := []; em_t1 := 0; em_y1 := [] |})%Z
  end.

Definition ref_next_time (e : event_sys) : float :=
  if ev_time e <? ev_start e then ev_start e
  else if ev_time e <? ev_start e + ev_duration e
       then ev_start e + ev_duration e
  else infinity.

Definition ref_level (e : event_sys) : float :=
  if (ev_start e <=? ev_time e) && (ev_time e <? ev_start e + ev_duration e)
  then ev_level e else 0.

Definition ref_advance (e : event_sys) (t' : float) : Z * event_sys :=
  if t' <? ev_time e then ((-1)%Z, e)
  else (0%Z, {| ev_start := ev_start e; ev_duration := ev_duration e;
                ev_level := ev_level e; ev_time := t' |}).

(** The world with integrator step [h] and a stimulus of level 1 from
    [start] for [duration]. *)
Definition world (h start duration : float)
  : @World euler_mem event_sys unit Z := {|
  libc := ref_libc;
  CVodeCreate := Some {| em_h := h; em_t0 := 0; em_y0 := [];
                         em_t1 := 0; em_y1 := [] |};
  cvodes_setup := ref_setup;
  CVode := ref_CVode;
  CVodeGetDky := ref_GetDky;
  CVodeGetSensDky := fun _ _ => (0%Z, []);
  CVodeGetSens := fun s => (0%Z, t s, []);
  CVodeGetRootInfo := fun _ => (0%Z, 1%Z);
  CVodeReInit := ref_ReInit;
  CVodeSensReInit := fun s _ =>
    match cvode_mem s with
    | Some mem => (0%Z, mem)
    | None => ref_ReInit s 0 []
    end;
  ESys_OK := 0;
  FSys_OK := 0;
  ESys_Create := (0%Z, {| ev_start := 0; ev_duration := 0; ev_level := 0;
                          ev_time := neg_infinity |});
  ESys_Populate := fun e _ _ =>
    (0%Z, {| ev_start := start; ev_duration := duration; ev_level := 1;
             ev_time := ev_time e |});
  ESys_AdvanceTime := ref_advance;
  ESys_GetNextTime := ref_next_time;
  ESys_GetLevel := ref_level;
  ESys_eq := fun a b => abs (a - b) <? 1e-9;
  FSys_Create := (0%Z, tt);
  FSys_Populate := fun f _ _ => (0%Z, f);
  FSys_GetLevel := fun _ _ => (0, 0%Z);
  benchmarker_time := fun clock => (Some (PyFloat (Z2float clock)), (clock + 1)%Z);
  PyErr_CheckSignals := fun clock => (0%Z, clock)
|}.

(** The state of the driver when the extension module is loaded: the static
    variables hold zero or their initialisers. *)
Definition fresh (h : pyheap) : RState := {|
  initialized := 0; model := None; pacing_systems := None; pacing := None;
  n_pace := 0; cvode_mem := None; udata := None; pbar := None;
  abs_tol := 1e-6; rel_tol := 1e-4; dt_max := 0; dt_min := 0;
  realtime := 0; evaluations := 0; steps := 0; zero_step_count := 0;
  y := None; sy := None; z := Z_NULL; sz := Z_NULL; ylast := None;
  state_py := PyNone; s_state_py := PyNone; bound_py := PyNone;
  t := 0; tlast := 0; tnext := 0; tmin := 0; tmax := 0;
  dynamic_logging := 0; log_dict := []; sens_list := PyNone;
  tlog := 0; log_interval := 0; ilog := 0; log_times := None;
  rf_index := 0; rf_threshold := 0; rf_list := PyNone; rf_direction := None;
  benchmarker := PyNone; log_realtime := 0; realtime_start := 0;
  py_heap := h; host_state := 0%Z
|}.

(** *** A host for the runs

    The host's lists: the state (0), the bound variables (1), the literals
    (2), the parameters (3), the protocols (4), two log sinks (5, 6) and the
    list of sensitivities (7). *)
Definition floats (l : list float) : list PyObject := List.map PyFloat l.

Definition host_heap : pyheap :=
  list_to_map
    [ (0%nat, floats [-84.5286; 0.0017; 0.9832; 0.995484; 3e-06; 1.0;
                      0.0057; 0.0002]);
      (1%nat, floats [0; 0; 0; 0]);
      (2%nat, floats [1.8; 145.0; 5.4; 10.0; 140.0; 96500.0; 8314.0; 310.0;
                      -59.87; 0.03921; 0.09; 0.01833; 16.0; 0.0183; 1.0;
                      0.0; -80.0]);
      (3%nat, []);
      (4%nat, [PyObj "Protocol" 0]);
      (5%nat, []); (6%nat, []); (7%nat, []) ].

(** The arguments of [init] for a run from [tmin] to [tmax] that logs the
    time and the membrane potential every [dt] into the sinks of
    [log_dict]. *)
Definition host_args (tmin tmax dt : float) (log_dict : PyDict)
  : init_args := {|
  arg_tmin := tmin; arg_tmax := tmax;
  arg_state_py := PyRef 0%nat; arg_s_state_py := PyNone;
  arg_bound_py := PyRef 1%nat; arg_literals := PyRef 2%nat;
  arg_parameters := PyRef 3%nat; arg_protocols := PyRef 4%nat;
  arg_log_dict := log_dict;
  arg_log_interval := dt; arg_log_times := PyNone;
  arg_sens_list := PyRef 7%nat;
  arg_rf_index := 0%Z; arg_rf_threshold := 0; arg_rf_list := PyNone;
  arg_benchmarker := PyNone; arg_log_realtime := 0%Z
|}.

Definition two_sinks : PyDict :=
  [("engine.time"%string, PyRef 5%nat); ("membrane.V"%string, PyRef 6%nat)].

(** The world of the runs: steps of 0.005, a stimulus from 1 to 1.5. *)
Definition W0 := world 0.005 1 0.5.

(** The state that a computation leaves, whatever its result. *)
Definition state_after {A} (m : M RState A) (s : RState) : RState :=
  match m s with
  | Ok _ s' => s'
  | Raise _ s' => s'
  | _ => s
  end.

(** [k] calls of [step()]. *)
Fixpoint steps_of (k : nat) (s : RState) : RState :=
  match k with
  | O => s
  | S k' => steps_of k' (state_after (sim_step W0 1000) s)
  end.

(** The driver after [init] for a run from 0 to 3 logged every 1. *)
Definition ready : RState :=
  state_after (sim_init W0 (host_args 0 3 1 two_sinks)) (fresh host_heap).

(** The seventh call of [step()] finishes this run. *)
Definition before_last : RState := steps_of 6 ready.
Definition last_state : RState := steps_of 7 ready.

(** A turn of the loop from [s]: after the backup, after the integrator
    step. *)
Definition turn_backup (s : RState) : RState := state_after backup_state s.
Definition turn_stepped (s : RState) : RState :=
  state_after (integrator_step W0) (turn_backup s).

(** A run that makes no progress: from 1e14 the steps of 0.005 are lost in
    the rounding of the time. *)
Definition stalled : RState :=
  state_after (sim_init W0 (host_args 1e14 2e14 1e13 two_sinks))
    (fresh host_heap).

(** The state after [k] turns of the loop. *)
Fixpoint after_turns (k : nat) (s : RState) : RState :=
  match k with
  | O => s
  | S k' => after_turns k' (state_after (step_body W0 5 0) s)
  end.

(** A call of [eval_derivatives]: the pace (list 8) and the list for the
    derivatives (list 9) beside the lists of the host. *)
Definition eval_heap : pyheap :=
  <[8%nat := floats [1]]>
    (<[9%nat := floats [0; 0; 0; 0; 0; 0; 0; 0]]> host_heap).

Definition eval_call : eval_args := {|
  ev_time_in := 0; ev_pace_in := PyRef 8%nat; ev_state := PyRef 0%nat;
  ev_deriv := PyRef 9%nat; ev_literals := PyRef 2%nat;
  ev_parameters := PyRef 3%nat
|}.

(** The driver with these lists after [init] for a run with one pacing
    protocol. *)
Definition initialised : RState :=
  state_after (sim_init W0 (host_args 0 3 1 two_sinks)) (fresh eval_heap).

(** A log in which two variables share a sink. *)
Definition shared_sink : PyDict :=
  [("engine.time"%string, PyRef 5%nat); ("membrane.V"%string, PyRef 6%nat);
   ("ina.m"%string, PyRef 6%nat)].

Definition ready_shared : RState :=
  state_after (sim_init W0 (host_args 0 3 1 shared_sink)) (fresh host_heap).

(** The model of the run. *)
Definition ref_model : Model_Memory :=
  match model ready with
  | Some m => m
  | None => Model_alloc ref_libc
  end.

End RefWorld.

(** * Reasoning about the driver

    [wp m Q E s]: when [m] runs from [s] to a result, the result satisfies
    [Q]; when it raises, the exception and the state satisfy [E]. Undefined
    behaviour and exhausted fuel are no results. [pres I E m]: [m] keeps the
    invariant [I], and establishes [E] when it raises. *)

Section Hoare.
Context {St : Type}.
Implicit Types (s : St) (E : sim_error -> St -> Prop).

Definition wp {A} (m : M St A) (Q : A -> St -> Prop)
  (E : sim_error -> St -> Prop) (s : St) : Prop :=
  match m s with
  | Ok a s' => Q a s'
  | Raise e s' => E e s'
  | Undefined | OutOfFuel => True
  end.

Definition pres (I : St -> Prop) (E : sim_error -> St -> Prop) {A}
  (m : M St A) : Prop :=
  forall s, I s -> wp m (fun _ => I) E s.

Lemma wp_ret {A} (a : A) Q E s : Q a s -> wp (ret a) Q E s.
Proof. exact (fun H => H). Qed.

Lemma wp_bind {A B} (m : M St A) (k : A -> M St B) Q E s :
  wp m (fun a s' => wp (k a) Q E s') E s -> wp (bind m k) Q E s.
Proof. unfold wp, bind. destruct (m s); auto. Qed.

Lemma wp_bind_inv {A B} (m : M St A) (k : A -> M St B) Q E s :
  wp (bind m k) Q E s ->
  wp m (fun a s' => wp (k a) Q E s') E s.
Proof. unfold wp, bind. destruct (m s); auto. Qed.

Lemma wp_gets {A} (f : St -> A) Q E s : Q (f s) s -> wp (gets f) Q E s.
Proof. exact (fun H => H). Qed.

Lemma wp_modify (f : St -> St) Q E s : Q tt (f s) -> wp (modify f) Q E s.
Proof. exact (fun H => H). Qed.

Lemma wp_raise {A} e (Q : A -> St -> Prop) E s : E e s -> wp (raise e) Q E s.
Proof. exact (fun H => H). Qed.

Lemma wp_undefined {A} (Q : A -> St -> Prop) E s : wp undefined Q E s.
Proof. exact I. Qed.

Lemma wp_deref {A} (p : option A) Q E s :
  (forall a, p = Some a -> Q a s) -> wp (deref p) Q E s.
Proof. destruct p; simpl; intros H; [now apply H | exact I]. Qed.

Lemma wp_rd {A} (l : list A) i Q E s :
  (forall a, l !! i = Some a -> Q a s) -> wp (rd l i) Q E s.
Proof. apply wp_deref. Qed.

Lemma wp_mono {A} (m : M St A) (Q Q' : A -> St -> Prop) E E' s :
  wp m Q E s ->
  (forall a s', Q a s' -> Q' a s') ->
  (forall e s', E e s' -> E' e s') ->
  wp m Q' E' s.
Proof. unfold wp. destruct (m s); auto. Qed.

Lemma wp_ok {A} (m : M St A) Q E s a s' :
  wp m Q E s -> m s = Ok a s' -> Q a s'.
Proof. unfold wp. intros H Heq. now rewrite Heq in H. Qed.

Lemma wp_raised {A} (m : M St A) Q E s e s' :
  wp m Q E s -> m s = Raise e s' -> E e s'.
Proof. unfold wp. intros H Heq. now rewrite Heq in H. Qed.

(** A computation that keeps [I], followed by one that starts from [I]. *)
Lemma wp_bind_pres {A B} I (m : M St A) (k : A -> M St B) Q E s :
  pres I E m -> I s ->
  (forall a s', I s' -> wp (k a) Q E s') ->
  wp (bind m k) Q E s.
Proof.
  intros Hm Hs Hk. apply wp_bind.
  eapply wp_mono; [exact (Hm s Hs) | | auto].
  intros a s' Hs'. simpl in Hs'. now apply Hk.
Qed.

Lemma pres_ret I E {A} (a : A) : pres I E (ret a).
Proof. intros s Hs. exact Hs. Qed.

Lemma pres_bind I E {A B} (m : M St A) (k : A -> M St B) :
  pres I E m -> (forall a, pres I E (k a)) -> pres I E (bind m k).
Proof.
  intros Hm Hk s Hs. eapply wp_bind_pres; eauto.
Qed.

Lemma pres_gets I E {A} (f : St -> A) : pres I E (gets f).
Proof. intros s Hs. exact Hs. Qed.

Lemma pres_modify I E (f : St -> St) :
  (forall s, I s -> I (f s)) -> pres I E (modify f).
Proof. intros H s Hs. now apply H. Qed.

Lemma pres_raise I E {A} e : (forall s, I s -> E e s) -> pres I E (@raise St A e).
Proof. intros H s Hs. now apply H. Qed.

Lemma pres_undefined I E {A} : pres I E (@undefined St A).
Proof. intros s Hs. exact Logic.I. Qed.

Lemma pres_deref I E {A} (p : option A) : pres I E (deref p).
Proof. intros s Hs. destruct p; [exact Hs | exact Logic.I]. Qed.

Lemma pres_rd I E {A} (l : list A) i : pres I E (rd l i).
Proof. apply pres_deref. Qed.

Lemma pres_for_from I E (body : nat -> M St unit) n i :
  (forall j, pres I E (body j)) -> pres I E (for_from i n body).
Proof.
  intros Hb. revert i. induction n as [|n IH]; intros i; simpl.
  - apply pres_ret.
  - apply pres_bind; [apply Hb | intros _; apply IH].
Qed.

Lemma pres_for I E (body : nat -> M St unit) n :
  (forall j, pres I E (body j)) -> pres I E (for_ n body).
Proof. apply pres_for_from. Qed.

Lemma pres_block I E (ss : list (M St unit)) :
  Forall (pres I E) ss -> pres I E (block ss).
Proof.
  induction 1 as [|x ss Hx _ IH]; simpl.
  - apply pres_ret.
  - apply pres_bind; [exact Hx | intros _; exact IH].
Qed.

Lemma pres_weaken I E E' {A} (m : M St A) :
  pres I E m -> (forall e s, E e s -> E' e s) -> pres I E' m.
Proof. intros H HE s Hs. eapply wp_mono; [exact (H s Hs) | auto | auto]. Qed.

End Hoare.

(** A computation on a part [T] of the state keeps an invariant of the
    whole state when every state of the part that it reaches does. *)
Lemma pres_zoom {St T A} (I : St -> Prop) E (J : T -> Prop)
  (EJ : sim_error -> T -> Prop) (get : St -> option T)
  (set : T -> St -> St) (m : M T A) :
  pres J EJ m ->
  (forall s t0, I s -> get s = Some t0 -> J t0) ->
  (forall s t0 t1, I s -> get s = Some t0 -> J t1 -> I (set t1 s)) ->
  (forall s t0 t1 e, I s -> get s = Some t0 -> EJ e t1 -> E e (set t1 s)) ->
  pres I E (zoom get set m).
Proof.
  intros Hm HJ Hset Herr s Hs. unfold wp, zoom.
  destruct (get s) as [t0|] eqn:G; [|exact Logic.I].
  specialize (Hm t0 (HJ _ _ Hs G)). unfold wp in Hm.
  destruct (m t0); eauto.
Qed.

Lemma wp_for_from_inv {St} (I : St -> Prop) E (body : nat -> M St unit) n i s :
  (forall j s1, I s1 -> wp (body j) (fun _ => I) E s1) ->
  I s -> wp (for_from i n body) (fun _ => I) E s.
Proof.
  intros Hb. revert i s. induction n as [|n IH]; intros i s Hs; simpl.
  - exact Hs.
  - apply wp_bind. eapply wp_mono; [apply Hb, Hs | | auto].
    intros a s' Hs'. now apply IH.
Qed.

(** A loop with the invariant [I]. *)
Lemma wp_for_inv {St} (I : St -> Prop) E (body : nat -> M St unit) n s Q :
  (forall j s1, I s1 -> wp (body j) (fun _ => I) E s1) ->
  I s -> (forall s', I s' -> Q tt s') -> wp (for_ n body) Q E s.
Proof.
  intros Hb Hs HQ. eapply wp_mono; [apply (wp_for_from_inv I); eauto | | auto].
  intros [] s'. apply HQ.
Qed.

Lemma wp_zoom {St T A} (get : St -> option T) (set : T -> St -> St)
  (m : M T A) Q E s :
  (forall t0, get s = Some t0 ->
     wp m (fun a t1 => Q a (set t1 s)) (fun e t1 => E e (set t1 s)) t0) ->
  wp (zoom get set m) Q E s.
Proof.
  intros H. unfold wp, zoom. destruct (get s) as [t0|]; [|exact I].
  specialize (H t0 eq_refl). unfold wp in H. destruct (m t0); auto.
Qed.

(** One step of symbolic execution. *)
Ltac wp_step :=
  lazymatch goal with
  | |- wp (bind _ _) _ _ _ => apply wp_bind
  | |- wp (ret _) _ _ _ => apply wp_ret
  | |- wp (gets _) _ _ _ => apply wp_gets
  | |- wp (modify _) _ _ _ => apply wp_modify
  | |- wp (raise _) _ _ _ => apply wp_raise
  | |- wp undefined _ _ _ => exact I
  | |- wp (deref _) _ _ _ => apply wp_deref; intros ? ?
  | |- wp (rd _ _) _ _ _ => apply wp_rd; intros ? ?
  | |- wp (if ?c then _ else _) _ _ _ => destruct c eqn:?
  | |- wp (match ?c with _ => _ end) _ _ _ => destruct c eqn:?
  end; cbn beta.
Ltac wp_go := repeat wp_step.

(** The structure of a computation that keeps an invariant. *)
Ltac pres_step :=
  lazymatch goal with
  | |- pres _ _ (bind _ _) => apply pres_bind; [|intros ?]
  | |- pres _ _ (ret _) => apply pres_ret
  | |- pres _ _ (gets _) => apply pres_gets
  | |- pres _ _ undefined => apply pres_undefined
  | |- pres _ _ (deref _) => apply pres_deref
  | |- pres _ _ (rd _ _) => apply pres_rd
  | |- pres _ _ (for_ _ _) => apply pres_for; intros ?
  | |- pres _ _ (if ?c then _ else _) => destruct c
  | |- pres _ _ (match ?c with _ => _ end) => destruct c
  end.

(** [total I m]: from a state in [I], [m] returns, in a state in [I]. *)
Definition total {St A} (I : St -> Prop) (m : M St A) : Prop :=
  forall s, I s -> exists a s', m s = Ok a s' /\ I s'.

Lemma total_ret {St A} (I : St -> Prop) (a : A) : total I (ret a).
Proof. intros s Hs. now exists a, s. Qed.

Lemma total_bind {St A B} (I : St -> Prop) (m : M St A) (k : A -> M St B) :
  total I m -> (forall a, total I (k a)) -> total I (bind m k).
Proof.
  intros Hm Hk s Hs. destruct (Hm s Hs) as (a & s' & E & Hs').
  destruct (Hk a s' Hs') as (b & s'' & E' & Hs'').
  exists b, s''. unfold bind. now rewrite E.
Qed.

Lemma total_block {St} (I : St -> Prop) (ss : list (M St unit)) :
  Forall (total I) ss -> total I (block ss).
Proof.
  induction 1 as [|x ss Hx _ IH]; simpl.
  - apply total_ret.
  - apply total_bind; [exact Hx | intros _; exact IH].
Qed.

(** ** The model *)

(** The arrays of the model have the sizes that [Model_Create] allocates,
    and there is at least one pacing value. *)
Definition well_sized (model : Model_Memory) : bool :=
  (length (states model) =? 8)%nat
  && (length (derivatives model) =? 8)%nat
  && (length (intermediary model) =? 27)%nat
  && (length (literals model) =? 17)%nat
  && (length (literal_derived model) =? 6)%nat
  && match pace_values model with
     | Some pv => (1 <=? length pv)%nat
     | None => false
     end.

(** The pointers that [Model_EvaluateDerivatives] reads through. *)
Definition in_bounds (p : var_ptr) : bool :=
  match p with
  | P_time => true
  | P_pace_values i => (i =? 0)%nat
  | P_states i => (i <? 8)%nat
  | P_derivatives i => (i <? 8)%nat
  | P_intermediary i => (i <? 27)%nat
  | P_literals i => (i <? 17)%nat
  | P_literal_derived i => (i <? 6)%nat
  | P_parameters _ | P_parameter_derived _ => false
  end.

(** The pointers it writes through. *)
Definition is_output (p : var_ptr) : bool :=
  match p with
  | P_derivatives i => (i <? 8)%nat
  | P_intermediary i => (i <? 27)%nat
  | _ => false
  end.

(** [m'] is [m] but for the intermediary variables and the derivatives. *)
Definition same_inputs (m m' : Model_Memory) : Prop :=
  m' = set_derivatives (derivatives m') (set_intermediary (intermediary m') m).

Definition expr_defined (e : expr) : Prop :=
  forall model, well_sized model = true -> is_Some (e model).

Definition bexpr_defined (e : bexpr) : Prop :=
  forall model, well_sized model = true -> is_Some (e model).

Lemma well_sized_lengths model :
  well_sized model = true ->
  length (states model) = 8%nat /\ length (derivatives model) = 8%nat /\
  length (intermediary model) = 27%nat /\ length (literals model) = 17%nat /\
  length (literal_derived model) = 6%nat /\
  exists pv, pace_values model = Some pv /\ (1 <= length pv)%nat.
Proof.
  unfold well_sized. rewrite !andb_true_iff, !Nat.eqb_eq.
  intros (((((A1 & A2) & A3) & A4) & A5) & A6).
  destruct (pace_values model) as [pv|]; [|discriminate].
  apply Nat.leb_le in A6. eauto 10.
Qed.

Lemma defined_load p : in_bounds p = true -> expr_defined (load p).
Proof.
  intros Hp model Hm.
  destruct (well_sized_lengths model Hm) as (H1 & H2 & H3 & H4 & H5 & pv & H6 & H7).
  destruct p; simpl in *; try discriminate; try eauto;
    try (apply lookup_lt_is_Some; apply Nat.ltb_lt in Hp; lia).
  rewrite H6. simpl. apply lookup_lt_is_Some. apply Nat.eqb_eq in Hp. lia.
Qed.

Lemma defined_const x : expr_defined (const x).
Proof. intros model _. now exists x. Qed.

Lemma defined_lift1 f a : expr_defined a -> expr_defined (lift1 f a).
Proof.
  intros Ha model Hm. destruct (Ha model Hm) as [x Hx].
  unfold lift1. rewrite Hx. simpl. eauto.
Qed.

Lemma defined_lift2 f a b :
  expr_defined a -> expr_defined b -> expr_defined (lift2 f a b).
Proof.
  intros Ha Hb model Hm. destruct (Ha model Hm) as [x Hx].
  destruct (Hb model Hm) as [y' Hy].
  unfold lift2. rewrite Hx, Hy. simpl. eauto.
Qed.

Lemma defined_cmp2 f a b :
  expr_defined a -> expr_defined b -> bexpr_defined (cmp2 f a b).
Proof.
  intros Ha Hb model Hm. destruct (Ha model Hm) as [x Hx].
  destruct (Hb model Hm) as [y' Hy].
  unfold cmp2. rewrite Hx, Hy. simpl. eauto.
Qed.

Lemma defined_ternary c a b :
  bexpr_defined c -> expr_defined a -> expr_defined b ->
  expr_defined (ternary c a b).
Proof.
  intros Hc Ha Hb model Hm. destruct (Hc model Hm) as [v Hv].
  unfold ternary. rewrite Hv. simpl. destruct v; auto.
Qed.

Ltac expr_defined :=
  repeat first
    [ apply defined_lift2 | apply defined_lift1 | apply defined_const
    | apply defined_ternary | apply defined_cmp2
    | apply defined_load; reflexivity ].

Lemma store_output p v model :
  is_output p = true -> well_sized model = true ->
  exists model', store p v model = Some model' /\
    well_sized model' = true /\ same_inputs model model'.
Proof.
  intros Hp Hm.
  destruct (well_sized_lengths model Hm) as (H1 & H2 & H3 & H4 & H5 & pv & H6 & H7).
  destruct p; simpl in Hp; try discriminate; apply Nat.ltb_lt in Hp;
    simpl; unfold wr.
  - destruct (decide _) as [_|N]; [|lia]. simpl. eexists; split; [reflexivity|].
    split; [|destruct model; reflexivity].
    unfold well_sized in *. simpl. now rewrite length_insert.
  - destruct (decide _) as [_|N]; [|lia]. simpl. eexists; split; [reflexivity|].
    split; [|destruct model; reflexivity].
    unfold well_sized in *. simpl. now rewrite length_insert.
Qed.

Lemma same_inputs_refl m : same_inputs m m.
Proof. now destruct m. Qed.

Lemma same_inputs_trans m1 m2 m3 :
  same_inputs m1 m2 -> same_inputs m2 m3 -> same_inputs m1 m3.
Proof.
  unfold same_inputs. intros H12 H23. rewrite H23. rewrite H12 at 1.
  now destruct m1.
Qed.

(** An assignment to an output, from a state that has the inputs of [m0]. *)
Lemma total_assign m0 p e :
  is_output p = true -> expr_defined e ->
  total (fun m => well_sized m = true /\ same_inputs m0 m) (assign p e).
Proof.
  intros Hp He m [Hm Hs]. destruct (He m Hm) as [v Hv].
  destruct (store_output p v m Hp Hm) as (m' & E & Hw & Hs').
  exists tt, m'. unfold assign. rewrite Hv, E. repeat split; auto.
  eapply same_inputs_trans; eauto.
Qed.

Lemma store_same_inputs p v m m' :
  is_output p = true -> store p v m = Some m' -> same_inputs m m'.
Proof.
  destruct p; simpl; try discriminate; intros _ H;
    destruct (wr _ _ _); simpl in H; try discriminate;
    injection H as <-; now destruct m.
Qed.

Lemma pres_assign_output m0 E p e :
  is_output p = true -> pres (same_inputs m0) E (assign p e).
Proof.
  intros Hp m Hm. unfold wp, assign.
  destruct (e m) as [v|]; [|exact I].
  destruct (store p v m) as [m'|] eqn:S; [|exact I].
  eapply same_inputs_trans; [exact Hm|]. eapply store_same_inputs; eauto.
Qed.

(** Whatever the model holds, a call of [Model_EvaluateDerivatives] that
    returns has written the intermediary variables and the derivatives
    only, and does not fail. *)
Lemma Model_EvaluateDerivatives_writes lc m :
  wp (Model_EvaluateDerivatives lc) (fun _ m' => same_inputs m m')
     (fun _ _ => False) m.
Proof.
  assert (H : pres (same_inputs m) (fun _ _ => False)
                (Model_EvaluateDerivatives lc)).
  { unfold Model_EvaluateDerivatives.
    apply pres_bind; [|intros _; apply pres_ret].
    apply pres_block. repeat constructor; now apply pres_assign_output. }
  apply H, same_inputs_refl.
Qed.

(** C9. For every model whose arrays have their allocated sizes and that
    has a pacing value, [Model_EvaluateDerivatives] returns [Model_OK] and
    writes only the intermediary variables and the derivatives: the states,
    the bound variables (time, pace, realtime, evaluations), the literals
    and literal-derived variables, the parameters and parameter-derived
    variables and all sensitivity arrays are the same after the call, as
    are all other fields of the model. *)
Theorem Model_EvaluateDerivatives_frame (lc : Libc) (m : Model_Memory) :
  well_sized m = true ->
  exists m',
    Model_EvaluateDerivatives lc m = Ok Model_OK m' /\
    states m' = states m /\
    time m' = time m /\
    pace_values m' = pace_values m /\
    Model.realtime m' = Model.realtime m /\
    Model.evaluations m' = Model.evaluations m /\
    literals m' = literals m /\
    literal_derived m' = literal_derived m /\
    parameters m' = parameters m /\
    parameter_derived m' = parameter_derived m /\
    s_independents m' = s_independents m /\
    s_is_parameter m' = s_is_parameter m /\
    s_states m' = s_states m /\
    s_intermediary m' = s_intermediary m /\
    m' = set_derivatives (derivatives m')
           (set_intermediary (intermediary m') m).
Proof.
  intros Hm.
  assert (T : total (fun x => well_sized x = true /\ same_inputs m x)
                (Model_EvaluateDerivatives lc)).
  { unfold Model_EvaluateDerivatives.
    apply total_bind; [|intros _; apply total_ret].
    apply total_block.
    repeat constructor; (apply total_assign; [reflexivity | expr_defined]). }
  destruct (T m (conj Hm (same_inputs_refl m))) as (flag & m' & E & _ & Hs).
  assert (flag = Model_OK) as ->.
  { revert E. unfold Model_EvaluateDerivatives, bind, ret.
    destruct (block _ m); congruence. }
  exists m'. split; [exact E|]. unfold same_inputs in Hs.
  repeat split; try (rewrite Hs at 1; reflexivity).
Qed.

Lemma Model_EvaluateDerivatives_frame_witness :
  exists m',
    Model_EvaluateDerivatives RefWorld.ref_libc RefWorld.ref_model
      = Ok Model_OK m' /\
    states m' = states RefWorld.ref_model /\
    time m' = time RefWorld.ref_model /\
    pace_values m' = pace_values RefWorld.ref_model /\
    Model.realtime m' = Model.realtime RefWorld.ref_model /\
    Model.evaluations m' = Model.evaluations RefWorld.ref_model /\
    literals m' = literals RefWorld.ref_model /\
    literal_derived m' = literal_derived RefWorld.ref_model /\
    parameters m' = parameters RefWorld.ref_model /\
    parameter_derived m' = parameter_derived RefWorld.ref_model /\
    s_independents m' = s_independents RefWorld.ref_model /\
    s_is_parameter m' = s_is_parameter RefWorld.ref_model /\
    s_states m' = s_states RefWorld.ref_model /\
    s_intermediary m' = s_intermediary RefWorld.ref_model /\
    m' = set_derivatives (derivatives m')
           (set_intermediary (intermediary m') RefWorld.ref_model).
Proof.
  apply (Model_EvaluateDerivatives_frame RefWorld.ref_libc RefWorld.ref_model).
  vm_compute. reflexivity.
Defined.

(** ** Frame lemmas for the driver *)

Section DriverFrame.
Context {cvode_mem_t ESys FSys host : Type}.
Context (W : @World cvode_mem_t ESys FSys host).

Abbreviation St := (Sim cvode_mem_t ESys FSys host).

Implicit Types (I : St -> Prop) (E : sim_error -> St -> Prop) (s : St).

(** A function of the model keeps every invariant that does not look at
    the model. *)
Lemma pres_with_model I E {A} (m : M Model_Memory A) :
  (forall m' s, I s -> I (set_model (Some m') s)) ->
  (forall e m' s, I s -> E e (set_model (Some m') s)) ->
  pres I E (with_model m).
Proof.
  intros HI HE s Hs. unfold wp, with_model, zoom.
  destruct (model s) as [m0|]; [|exact Logic.I].
  destruct (m m0); auto.
Qed.

(** The state that [sim_clean] leaves. *)
Definition cleaned (s : St) : St :=
  set_initialized 0
    (set_model None
      (set_pacing None
        (set_pacing_systems None
          (set_udata None
            (set_pbar None
              (set_cvode_mem None
                (set_rf_direction None
                  (set_sz Z_NULL
                    (set_z Z_NULL
                      (set_sy None
                        (set_ylast None
                          (set_y None s)))))))))))).

Lemma set_model_same (s : St) m : model s = Some m -> set_model (Some m) s = s.
Proof. destruct s; simpl. now intros ->. Qed.

Lemma wp_with_model {A} (m : M Model_Memory A) Q E (s : St) :
  (forall m0, model s = Some m0 ->
     wp m (fun a m1 => Q a (set_model (Some m1) s))
          (fun e m1 => E e (set_model (Some m1) s)) m0) ->
  wp (with_model m) Q E s.
Proof.
  intros H. exact (wp_zoom model (fun m' => set_model (Some m')) m Q E s H).
Qed.

Lemma wp_with_model_gets {A} (f : Model_Memory -> A) Q E (s : St) :
  (forall m0, model s = Some m0 -> Q (f m0) s) ->
  wp (with_model (gets f)) Q E s.
Proof.
  intros H. apply wp_with_model. intros m0 Hm. unfold wp, gets.
  rewrite (set_model_same s m0 Hm). now apply H.
Qed.

Lemma sim_clean_spec (s : St) :
  wp sim_clean
     (fun _ s' => s' = if decide (initialized s = 0) then s else cleaned s)
     (fun _ _ => False) s.
Proof.
  assert (L : forall (s1 : St) n Q,
    Q tt s1 ->
    wp (for_ n (fun i => let* systems := gets pacing_systems in
                         let* _ := rd (cells systems) i in ret tt))
       Q (fun _ _ => False) s1).
  { intros s1 n Q HQ. apply (wp_for_inv (fun x => x = s1)); auto.
    - intros j ? ->. wp_go. reflexivity.
    - now intros ? ->. }
  unfold sim_clean. wp_go; try reflexivity.
  - apply wp_with_model_gets. intros m0 _. wp_go.
    apply L. wp_go. reflexivity.
  - apply L. wp_go. unfold cleaned. destruct s; simpl in *. subst. reflexivity.
Qed.

Lemma sim_clean_result s (s' : St) :
  sim_clean s = Ok tt s' ->
  s' = if decide (initialized s = 0) then s else cleaned s.
Proof. intros H. exact (wp_ok _ _ _ _ _ _ (sim_clean_spec s) H). Qed.

Lemma sim_clean_no_raise s e (s' : St) : sim_clean s <> Raise e s'.
Proof. intros H. exact (wp_raised _ _ _ _ _ _ (sim_clean_spec s) H). Qed.

(** [return sim_clean();] establishes, for the exception, what holds of the
    state that [sim_clean] leaves. *)
Lemma wp_clean_raise {A} e (Q : A -> St -> Prop) E s :
  E e (if decide (initialized s = 0) then s else cleaned s) ->
  wp (clean_raise e) Q E s.
Proof.
  intros H. unfold clean_raise. apply wp_bind.
  eapply wp_mono; [apply sim_clean_spec | | contradiction].
  intros [] s' ->. exact H.
Qed.

Lemma pres_clean_raise I E {A} e :
  (forall s, I s -> E e (if decide (initialized s = 0) then s else cleaned s)) ->
  pres I E (@clean_raise _ _ _ _ A e).
Proof. intros H s Hs. apply wp_clean_raise. now apply H. Qed.


(** *** Invariants of the step loop

    [Effects I E J] lists what the turns of the loop do to the state; an
    invariant [I] of the driver's state (with [J] for the model inside it)
    that each of these effects keeps is kept by the loop. [E] is what holds
    when an exception leaves the loop, after [sim_clean]. *)

Definition stable {V} (set : V -> St -> St) I : Prop :=
  forall v s, I s -> I (set v s).

(** The state that [sim_clean] leaves, from any state. *)
Definition after_clean s : St :=
  if decide (initialized s = 0) then s else cleaned s.

(** The errors of a turn other than the failure of [CVode] and the limit of
    zero-length steps. *)
Definition turn_error (e : sim_error) : Prop :=
  match e with
  | Err_cvode name _ => name <> "CVode"%string
  | Err_msg ty _ => ty <> PyExc_ArithmeticError
  | Err_model _ => False
  | _ => True
  end.

(** What the functions of the model do to it: stores into the arrays,
    and the bound variables. *)
Record ModelEffects (J : Model_Memory -> Prop) : Prop := {
  j_store : forall p v m m',
    J m -> p <> P_time -> store p v m = Some m' -> J m';
  j_s_states : forall v m, J m -> J (set_s_states v m)
}.

Record BoundEffects (J : Model_Memory -> Prop) : Prop := {
  j_time : forall v m, J m -> J (set_time v m);
  j_realtime : forall v m, J m -> J (Model.set_realtime v m);
  j_evaluations : forall v m, J m -> J (Model.set_evaluations v m)
}.

Record CoreEffects I (E : sim_error -> St -> Prop) (J : Model_Memory -> Prop)
  : Prop := {
  (* the model *)
  eff_J : ModelEffects J;
  eff_JB : BoundEffects J;
  eff_model_get : forall s m, I s -> model s = Some m -> J m;
  eff_model_set : forall s m', I s -> J m' -> I (set_model (Some m') s);
  (* the vectors, the integrator, the pacing values, the counters *)
  eff_y : stable set_y I;
  eff_sy : stable set_sy I;
  eff_z : stable set_z I;
  eff_sz : stable set_sz I;
  eff_ylast : stable set_ylast I;
  eff_cvode_mem : stable set_cvode_mem I;
  eff_pacing : stable set_pacing I;
  eff_pacing_systems : stable set_pacing_systems I;
  eff_evaluations : stable set_evaluations I;
  eff_realtime : stable set_realtime I;
  eff_realtime_start : stable set_realtime_start I;
  eff_host_state : stable set_host_state I;
  eff_rf_direction : stable set_rf_direction I;
  (* exceptions *)
  eff_error : forall e s, turn_error e -> I s -> E e (after_clean s)
}.

Record Effects I (E : sim_error -> St -> Prop) (J : Model_Memory -> Prop)
  : Prop := {
  eff_core : CoreEffects I E J;
  (* the list of roots *)
  eff_root : forall v h' s,
    I s -> PyList_Append (py_heap s) (rf_list s) v = Some h' ->
    I (set_py_heap h' s);
  (* a log row, the next logging point *)
  eff_log_row : forall svec, pres I E svec -> pres I E (log_row svec);
  eff_next_log_point : pres I E next_log_point
}.

(** The output lists of the host. *)
Record OutEffects I : Prop := {
  eff_state_item : forall i v s,
    I s -> I (set_py_heap (PyList_SetItem (py_heap s) (state_py s) i v) s);
  eff_bound_item : forall i v s,
    I s -> I (set_py_heap (PyList_SetItem (py_heap s) (bound_py s) i v) s)
}.

(** The halting point is set by the update of the pacing only. *)
Record HaltEffects I : Prop := {
  eff_tnext_reset : forall s, I s -> I (set_tnext (tmax s) s);
  eff_tnext_min : forall x s, I s -> I (set_tnext (fmin (tnext s) x) s)
}.

End DriverFrame.
(** *** What the functions of the model keep *)

Section ModelFrame.
Context (J : Model_Memory -> Prop) (EJ : sim_error -> Model_Memory -> Prop).
Context (HJ : ModelEffects J).

Lemma pres_assign p e : p <> P_time -> pres J EJ (assign p e).
Proof.
  intros Hp m Hm. unfold wp, assign. destruct (e m) as [v|]; [|exact I].
  destruct (store p v m) as [m'|] eqn:S; [|exact I].
  eapply j_store; eauto.
Qed.

Lemma pres_poke p v : p <> P_time -> pres J EJ (poke p v).
Proof. apply pres_assign. Qed.

Lemma pres_peek p : pres J EJ (peek p).
Proof. intros m Hm. unfold wp, peek. now destruct (load p m). Qed.

Ltac mpres :=
  repeat first
    [ pres_step
    | apply pres_assign; discriminate | apply pres_poke; discriminate
    | apply pres_peek
    | apply pres_modify; intros ? ?; now apply j_s_states ].

Lemma pres_Model_SetStates a : pres J EJ (Model_SetStates a).
Proof. unfold Model_SetStates. mpres. Qed.

Lemma pres_set_parameters_from k i j a : pres J EJ (set_parameters_from k i j a).
Proof. revert i j. induction k as [|k IH]; intros i j; simpl; mpres; apply IH. Qed.

Lemma pres_Model_SetParametersFromIndependents a :
  pres J EJ (Model_SetParametersFromIndependents a).
Proof.
  unfold Model_SetParametersFromIndependents, Model_EvaluateParameterDerivedVariables.
  mpres. apply pres_set_parameters_from.
Qed.

Lemma pres_Model_EvaluateDerivatives lc : pres J EJ (Model_EvaluateDerivatives lc).
Proof.
  unfold Model_EvaluateDerivatives. mpres.
  apply pres_block. repeat constructor; apply pres_assign; discriminate.
Qed.

Lemma pres_Model_EvaluateLiteralDerivedVariables lc :
  pres J EJ (Model_EvaluateLiteralDerivedVariables lc).
Proof.
  unfold Model_EvaluateLiteralDerivedVariables. mpres.
  apply pres_block. repeat constructor; apply pres_assign; discriminate.
Qed.

Lemma pres_write_s_states i x :
  pres J EJ (let* ss := gets s_states in
             let* ss' := deref (wr ss i x) in
             modify (set_s_states ss')).
Proof. mpres. Qed.

Lemma pres_Model_EvaluateSensitivityOutputs :
  pres J EJ Model_EvaluateSensitivityOutputs.
Proof. apply pres_ret. Qed.

(** The pacing values, the realtime and the evaluations are set; the time
    is set when it differs. *)
Lemma pres_set_bound_tail a b c :
  BoundEffects J ->
  pres J EJ
    (let* n := gets Model.n_pace in
     for_ n (fun i =>
       let* new := rd a i in
       let* old := peek (P_pace_values i) in
       if negb (new =? old)%float then poke (P_pace_values i) new else ret tt) ;;;
     modify (Model.set_realtime b) ;;;
     modify (Model.set_evaluations c) ;;;
     ret Model_OK).
Proof.
  intros HB. mpres.
  - apply pres_modify; intros ? ?; now apply j_realtime.
  - apply pres_modify; intros ? ?; now apply j_evaluations.
Qed.

Lemma pres_Model_SetBoundVariables a b c d :
  BoundEffects J -> pres J EJ (Model_SetBoundVariables a b c d).
Proof.
  intros HB. unfold Model_SetBoundVariables.
  apply pres_bind; [apply pres_gets | intros tm].
  apply pres_bind; [|intros _; now apply pres_set_bound_tail].
  destruct (negb _); [|apply pres_ret].
  apply pres_modify; intros ? ?; now apply j_time.
Qed.

End ModelFrame.
(** *** What a turn of the loop keeps *)

(** The structure of a part of the driver that keeps an invariant; [HC]
    lists the effects. *)
Ltac stab HC Hs :=
  first
    [ exact (eff_y _ _ _ HC _ _ Hs) | exact (eff_sy _ _ _ HC _ _ Hs)
    | exact (eff_z _ _ _ HC _ _ Hs) | exact (eff_sz _ _ _ HC _ _ Hs)
    | exact (eff_ylast _ _ _ HC _ _ Hs) | exact (eff_cvode_mem _ _ _ HC _ _ Hs)
    | exact (eff_pacing _ _ _ HC _ _ Hs)
    | exact (eff_pacing_systems _ _ _ HC _ _ Hs)
    | exact (eff_evaluations _ _ _ HC _ _ Hs)
    | exact (eff_realtime _ _ _ HC _ _ Hs)
    | exact (eff_realtime_start _ _ _ HC _ _ Hs)
    | exact (eff_host_state _ _ _ HC _ _ Hs)
    | exact (eff_rf_direction _ _ _ HC _ _ Hs) ].

(** The effects on an invariant that is stated on fields of the state that
    the setters leave; what remains is the exceptions. *)
Ltac field_effects :=
  split;
    first [ solve [split; auto] | solve [intros ? ? H; exact H]
          | solve [intros ? ? H _; exact H] | solve [auto] | idtac ].

Section CoreFrame.
Context {cvode_mem_t ESys FSys host : Type}.
Context (W : @World cvode_mem_t ESys FSys host).
Abbreviation St := (Sim cvode_mem_t ESys FSys host).
Context (I : St -> Prop) (E : sim_error -> St -> Prop)
        (J : Model_Memory -> Prop).
Context (HC : CoreEffects I E J).

Lemma pres_in_model {A} (f : M Model_Memory A) :
  pres J (fun _ _ => False) f -> pres I E (with_model f).
Proof.
  intros Hf. unfold with_model.
  apply (pres_zoom I E J (fun _ _ => False)); auto.
  - apply (eff_model_get _ _ _ HC).
  - intros s t0 t1 Hs _ Ht1. now apply (eff_model_set _ _ _ HC).
  - contradiction.
Qed.

Lemma pres_in_model_gets {A} (f : Model_Memory -> A) :
  pres I E (with_model (gets f)).
Proof. apply pres_in_model, pres_gets. Qed.

(** What is read from the model is read from a model that [J] holds of. *)
Lemma pres_model_gets_k {A B} (f : Model_Memory -> A) (k : A -> M St B) :
  (forall m, J m -> pres I E (k (f m))) ->
  pres I E (bind (with_model (gets f)) k).
Proof.
  intros H s Hs. apply wp_bind, wp_with_model_gets. intros m0 Hm.
  apply H; [exact (eff_model_get _ _ _ HC _ _ Hs Hm) | exact Hs].
Qed.

Ltac in_model :=
  apply pres_in_model;
  first [ apply pres_Model_SetBoundVariables;
            [apply (eff_J _ _ _ HC) | apply (eff_JB _ _ _ HC)]
        | apply pres_Model_SetStates; apply (eff_J _ _ _ HC)
        | apply pres_Model_SetParametersFromIndependents; apply (eff_J _ _ _ HC)
        | apply pres_Model_EvaluateDerivatives; apply (eff_J _ _ _ HC)
        | apply pres_write_s_states; apply (eff_J _ _ _ HC)
        | apply pres_ret ].

Ltac dpres :=
  repeat first
    [ pres_step
    | apply pres_in_model_gets
    | solve [in_model]
    | apply pres_modify; let s := fresh "s" in let Hs := fresh "Hs" in
      intros s Hs; stab HC Hs
    | apply pres_clean_raise; let s := fresh "s" in let Hs := fresh "Hs" in
      intros s Hs; apply (eff_error _ _ _ HC);
      [simpl; first [congruence | exact Logic.I] | exact Hs]
    | match goal with
      | |- pres _ _ (let '(_, _) := ?x in _) => destruct x
      end ].

Lemma pres_benchmarker_realtime : pres I E (benchmarker_realtime W).
Proof. unfold benchmarker_realtime, PyFloat_Check. dpres. Qed.

Lemma pres_rhs_pacing k i t' : pres I E (rhs_pacing W k i t').
Proof. revert i. induction k as [|k IH]; intros i; simpl; dpres; apply IH. Qed.

Lemma pres_rhs t' y' : pres I E (rhs W t' y').
Proof.
  unfold rhs, Model_EvaluateParameterDerivedVariables. dpres.
  apply pres_rhs_pacing.
Qed.

Lemma pres_shs sv : pres I E (shs sv).
Proof. unfold shs, Model_EvaluateSensitivityOutputs. dpres. Qed.

Lemma pres_sim_cleanx {A} ty msg :
  ty <> PyExc_ArithmeticError -> pres I E (@sim_cleanx _ _ _ _ A ty msg).
Proof.
  intros H. unfold sim_cleanx. apply pres_clean_raise. intros s Hs.
  apply (eff_error _ _ _ HC); [exact H | exact Hs].
Qed.

Lemma pres_rhs_calls calls : pres I E (rhs_calls W calls).
Proof.
  induction calls as [|[t' y'] rest IH]; simpl; dpres; [apply pres_rhs | exact IH].
Qed.

Lemma pres_read_z : pres I E read_z.
Proof. unfold read_z. dpres. Qed.
Lemma pres_write_z v : pres I E (write_z v).
Proof. unfold write_z. dpres. Qed.
Lemma pres_read_sz : pres I E read_sz.
Proof. unfold read_sz. dpres. Qed.
Lemma pres_write_sz v : pres I E (write_sz v).
Proof. unfold write_sz. dpres. Qed.

Lemma pres_reinit_if_needed fr : pres I E (reinit_if_needed W fr).
Proof. unfold reinit_if_needed. dpres. Qed.

Lemma pres_call_CVode : stable set_t I -> pres I E (call_CVode W).
Proof.
  intros Ht. unfold call_CVode. dpres; [apply pres_rhs_calls|].
  apply pres_modify. intros s Hs. now apply Ht.
Qed.

Lemma pres_backup_state : stable set_tlast I -> pres I E backup_state.
Proof.
  intros Hl. unfold backup_state. dpres. apply pres_modify.
  intros s Hs. now apply Hl.
Qed.

(** The output lists. *)
Lemma pres_set_item_state i x : OutEffects I -> pres I E (set_item state_py i x).
Proof. intros HO. apply pres_modify. intros s Hs. now apply eff_state_item. Qed.

Lemma pres_set_item_bound i x : OutEffects I -> pres I E (set_item bound_py i x).
Proof. intros HO. apply pres_modify. intros s Hs. now apply eff_bound_item. Qed.

Lemma pres_write_bound t' : OutEffects I -> pres I E (write_bound t').
Proof. intros HO. unfold write_bound. dpres; now apply pres_set_item_bound. Qed.

Lemma pres_write_error_outputs : OutEffects I -> pres I E write_error_outputs.
Proof.
  intros HO. unfold write_error_outputs. dpres;
    first [now apply pres_set_item_state | now apply pres_write_bound].
Qed.

(** A failure of [CVode]. *)
Lemma pres_cvode_failure flag :
  OutEffects I ->
  (forall s, I s -> E (Err_cvode "CVode" flag) (after_clean s)) ->
  pres I E (write_error_outputs ;;;
            @clean_raise _ _ _ _ Z (Err_cvode "CVode" flag)).
Proof.
  intros HO Herr. apply pres_bind; [now apply pres_write_error_outputs|].
  intros _. apply pres_clean_raise. exact Herr.
Qed.

(** The integrator step: a failure of [CVode] is left to [Hfail]. *)
Lemma pres_integrator_step :
  stable set_t I ->
  (forall flag, pres I E
     (write_error_outputs ;;;
      @clean_raise _ _ _ _ Z (Err_cvode "CVode" flag))) ->
  pres I E (integrator_step W).
Proof.
  intros Ht Hfail. unfold integrator_step.
  apply pres_bind; [apply pres_in_model_gets | intros ode].
  destruct (decide (ode <> 0)).
  - apply pres_bind; [now apply pres_call_CVode | intros flag].
    destruct (check_cvode_flag flag); [apply Hfail | apply pres_ret].
  - apply pres_bind; [|intros _; apply pres_ret].
    apply pres_modify. intros s Hs. now apply Ht.
Qed.

(** The final outputs of a model without sensitivities. *)
Lemma pres_write_final_outputs :
  OutEffects I -> (forall m, J m -> has_sensitivities m = 0) ->
  pres I E write_final_outputs.
Proof.
  intros HO Hns. unfold write_final_outputs.
  apply pres_bind; [apply pres_in_model_gets | intros n].
  apply pres_bind; [dpres; now apply pres_set_item_state | intros _].
  apply pres_model_gets_k. intros m Hm. rewrite (Hns m Hm).
  destruct (decide (0 <> 0)); [congruence|].
  dpres. now apply pres_write_bound.
Qed.

(** When the invariant does not depend on the host's lists. *)
Definition heap_free : Prop := forall h s, I s -> I (set_py_heap h s).

Lemma heap_free_out : heap_free -> OutEffects I.
Proof. intros H. split; intros; now apply H. Qed.

Lemma pres_write_final_outputs_free : heap_free -> pres I E write_final_outputs.
Proof.
  intros H. pose proof (heap_free_out H) as HO. unfold write_final_outputs.
  dpres; first [ now apply pres_set_item_state | now apply pres_write_bound
               | apply pres_modify; intros s Hs; now apply H ].
Qed.

Lemma pres_Model_Log_global_free : heap_free -> pres I E Model_Log_global.
Proof.
  intros H. unfold Model_Log_global. dpres.
  apply pres_modify. intros s Hs. now apply H.
Qed.

Lemma pres_log_row_free svec :
  heap_free -> (forall f s, I s -> E (Err_model f) (after_clean s)) ->
  pres I E svec -> pres I E (log_row svec).
Proof.
  intros H Herr Hsvec. unfold log_row, Model_LogSensitivityMatrix_global.
  dpres; first [ now apply pres_Model_Log_global_free
               | apply pres_clean_raise; intros s Hs; now apply Herr
               | exact Hsvec | apply pres_shs
               | apply pres_modify; intros s Hs; now apply H ].
Qed.

(** When the invariant does not depend on the logging point. *)
Lemma pres_next_log_point_free :
  stable set_ilog I -> stable set_tlog I -> pres I E next_log_point.
Proof.
  intros Hi Hl. unfold next_log_point, log_times_size, log_times_item,
    read_log_time, PyFloat_Check.
  dpres; first [ apply pres_sim_cleanx; discriminate
               | apply pres_modify; intros s Hs;
                 first [now apply Hi | now apply Hl] ].
Qed.

(** The test of progress, when the invariant does not depend on the
    count. *)
Lemma pres_check_progress_free :
  stable set_zero_step_count I ->
  (forall msg s, I s ->
     E (Err_msg PyExc_ArithmeticError msg) (after_clean s)) ->
  pres I E check_progress.
Proof.
  intros Hz Herr. unfold check_progress. dpres;
    first [ apply pres_modify; intros s Hs; now apply Hz
          | apply pres_clean_raise; intros s Hs; now apply Herr ].
Qed.

(** An invariant that depends neither on the host's lists nor on the
    logging point. *)
Lemma effects_free :
  heap_free -> stable set_ilog I -> stable set_tlog I ->
  (forall f s, I s -> E (Err_model f) (after_clean s)) ->
  Effects I E J.
Proof.
  intros Hh Hi Hl Herr. split.
  - exact HC.
  - intros v h' s H _. now apply Hh.
  - intros svec. now apply pres_log_row_free.
  - now apply pres_next_log_point_free.
Qed.

End CoreFrame.

Section LoopFrame.
Context {cvode_mem_t ESys FSys host : Type}.
Context (W : @World cvode_mem_t ESys FSys host).
Abbreviation St := (Sim cvode_mem_t ESys FSys host).
Context (I : St -> Prop) (E : sim_error -> St -> Prop)
        (J : Model_Memory -> Prop).
Context (HE : Effects I E J).

Definition eff_core' : CoreEffects I E J := eff_core _ _ _ HE.

Lemma pres_append_root val : pres I E (append_root val).
Proof.
  intros s Hs. unfold append_root. wp_go.
  - eapply (eff_root _ _ _ HE); eassumption.
  - unfold sim_cleanx. apply wp_clean_raise.
    apply (eff_error _ _ _ eff_core'); [discriminate | exact Hs].
Qed.

Ltac dpres2 :=
  repeat first
    [ pres_step
    | apply (pres_in_model_gets I E J eff_core')
    | apply pres_modify; let s := fresh "s" in let Hs := fresh "Hs" in
      intros s Hs; stab eff_core' Hs
    | apply pres_clean_raise; let s := fresh "s" in let Hs := fresh "Hs" in
      intros s Hs; apply (eff_error _ _ _ eff_core');
      [simpl; first [congruence | exact Logic.I] | exact Hs]
    | match goal with
      | |- pres _ _ (let '(_, _) := ?x in _) => destruct x
      end
    | apply (pres_sim_cleanx I E J eff_core'); discriminate
    | apply (pres_benchmarker_realtime W I E J eff_core')
    | apply (pres_rhs W I E J eff_core')
    | apply (pres_shs I E J eff_core')
    | apply (pres_write_z I E J eff_core')
    | apply (pres_write_sz I E J eff_core')
    | apply pres_read_z
    | apply pres_read_sz
    | apply (pres_reinit_if_needed W I E J eff_core')
    | apply pres_append_root
    | apply (eff_next_log_point _ _ _ HE)
    | apply (eff_log_row _ _ _ HE)
    | solve [apply (pres_in_model I E J eff_core');
             apply pres_Model_SetBoundVariables;
             [ apply (eff_J _ _ _ eff_core')
             | apply (eff_JB _ _ _ eff_core')]] ].

Lemma pres_record_root fc : pres I E (record_root W fc).
Proof. unfold record_root. dpres2. Qed.

Lemma pres_log_interpolated_point : pres I E (log_interpolated_point W).
Proof. unfold log_interpolated_point. dpres2. Qed.

Lemma pres_log_interpolated fuel : pres I E (log_interpolated W fuel).
Proof.
  induction fuel as [|fuel IH]; simpl; dpres2.
  - intros s _. exact Logic.I.
  - apply pres_log_interpolated_point.
  - exact IH.
Qed.

Lemma pres_log_dynamic : pres I E (log_dynamic W).
Proof. unfold log_dynamic. dpres2. Qed.

Lemma pres_update_pacing : HaltEffects I -> pres I E (update_pacing W).
Proof.
  intros HH. unfold update_pacing.
  apply pres_bind; [apply pres_modify, (eff_tnext_reset _ HH) | intros _].
  dpres2. apply pres_modify. intros s Hs. apply (eff_tnext_min _ HH _ _ Hs).
Qed.

Lemma pres_log_and_pace fuel fr :
  HaltEffects I -> pres I E (log_and_pace W fuel fr).
Proof.
  intros HH. unfold log_and_pace. dpres2;
    first [ apply pres_log_interpolated | now apply pres_update_pacing
          | apply pres_log_dynamic ].
Qed.

Section Time.
Hypothesis Ht : stable set_t I.

Lemma pres_rewind_or_root fc fr : pres I E (rewind_or_root W fc fr).
Proof.
  unfold rewind_or_root. dpres2;
    first [ apply pres_record_root
          | apply pres_modify; intros s Hs; now apply Ht ].
Qed.

Lemma pres_after_step fuel fc fr :
  HaltEffects I -> pres I E (after_step W fuel fc fr).
Proof.
  intros HH. unfold after_step. dpres2;
    first [apply pres_rewind_or_root | now apply pres_log_and_pace].
Qed.

End Time.

(** [sim_step] up to the loop. *)
Lemma wp_sim_step fuel Q s :
  (forall s', I s' -> wp (step_loop W 100 fuel 0 0) Q E s') ->
  I s -> wp (sim_step W fuel) Q E s.
Proof.
  intros Hloop Hs. unfold sim_step.
  apply wp_bind, wp_gets, wp_bind, wp_gets.
  eapply wp_bind_pres; [| exact Hs | intros _ s' Hs'; now apply Hloop].
  dpres2.
Qed.

(** The loop: [B] holds after a turn, of whether the loop is left and of
    the state. *)
Lemma wp_step_loop (B : bool -> St -> Prop) Q n fuel :
  (forall fr s, I s -> wp (step_body W fuel fr) (fun r => B (snd r)) E s) ->
  (forall s, B true s ->
     wp (write_final_outputs ;;; sim_clean ;;;
         let* tt' := gets t in ret (Finished tt')) Q E s) ->
  (forall hs s, B false s ->
     let s' := set_host_state hs s in
     I s' /\ Q (Yielded (t s')) s' /\ E Err_signal (after_clean s')) ->
  forall fr k s, I s -> wp (step_loop W n fuel fr k) Q E s.
Proof.
  intros Hbody Hfin Hcont. induction n as [|n IH]; intros fr k s Hs; simpl.
  - exact Logic.I.
  - apply wp_bind. eapply wp_mono; [apply (Hbody fr s Hs) | | auto].
    intros [fr' fin] s1 HB. simpl in HB. destruct fin.
    + now apply Hfin.
    + apply wp_bind, wp_gets.
      destruct (PyErr_CheckSignals W (host_state s1)) as [sig hs'] eqn:Sig.
      destruct (Hcont hs' s1 HB) as (HI & HQ & HErr).
      apply wp_bind, wp_modify.
      destruct (decide (sig <> 0)).
      * now apply wp_clean_raise.
      * destruct (decide (k + 1 >= 100)).
        -- apply wp_bind, wp_gets, wp_ret. exact HQ.
        -- now apply IH.
Qed.

End LoopFrame.

(** A turn of the loop takes [I] to [I'] when counting the step does. *)
Section TurnFrame.
Context {cvode_mem_t ESys FSys host : Type}.
Context (W : @World cvode_mem_t ESys FSys host).
Abbreviation St := (Sim cvode_mem_t ESys FSys host).
Context (I I' : St -> Prop) (E : sim_error -> St -> Prop)
        (J : Model_Memory -> Prop).
Context (HE : Effects I E J) (HE' : Effects I' E J).
Hypothesis Ht : stable set_t I.
Hypothesis Ht' : stable set_t I'.
Hypothesis Htlast : stable set_tlast I.
Hypothesis Hhalt : HaltEffects I'.
Hypothesis Hfail : forall flag, pres I E
  (write_error_outputs ;;; @clean_raise _ _ _ _ Z (Err_cvode "CVode" flag)).
Hypothesis Hprogress : pres I E check_progress.
Hypothesis Hcount : forall s, I s -> I' (set_steps (wrap64 (steps s + 1)) s).

(** The turn after the test of progress. *)
Lemma wp_turn_rest fuel flag_cvode fr s :
  I s ->
  wp (modify (fun s => set_steps (wrap64 (steps s + 1)) s) ;;;
      let* flag_reinit :=
        (if bool_decide (flag_cvode = CV_SUCCESS)
            || bool_decide (flag_cvode = CV_ROOT_RETURN)
         then after_step W fuel flag_cvode fr
         else ret fr) in
      modify (fun s =>
        if ESys_eq W (t s) (tmax s) then set_t (tmax s) s else s) ;;;
      let* tt' := gets t in
      let* tmax' := gets tmax in
      ret (flag_reinit, (tmax' <=? tt')%float))
     (fun _ => I') E s.
Proof.
  intros Hs. apply wp_bind, wp_modify.
  eapply (wp_bind_pres I'); [| exact (Hcount _ Hs) |].
  - destruct (_ || _); [now apply (pres_after_step W I' E J) | apply pres_ret].
  - intros fr' s4 Hs4. apply wp_bind, wp_modify, wp_bind, wp_gets, wp_bind,
      wp_gets, wp_ret.
    destruct (ESys_eq W (t s4) (tmax s4)); [now apply Ht' | exact Hs4].
Qed.

Lemma wp_step_body fuel fr s :
  I s -> wp (step_body W fuel fr) (fun _ => I') E s.
Proof.
  intros Hs. unfold step_body.
  eapply wp_bind_pres;
    [now apply (pres_backup_state I E J (eff_core _ _ _ HE)) | exact Hs |].
  intros _ s1 Hs1.
  eapply wp_bind_pres;
    [now apply (pres_integrator_step W I E J (eff_core _ _ _ HE))
    | exact Hs1 |].
  intros flag s2 Hs2.
  eapply wp_bind_pres; [exact Hprogress | exact Hs2 |].
  intros _ s3 Hs3. now apply wp_turn_rest.
Qed.

End TurnFrame.
(** *** The configuration of the model

    What the driver never changes in a model after [sim_init]: the kind of
    the model, its sizes, and the bindings of the log. *)
Record Model_Config := mkConfig {
  c_is_ode : Z;
  c_has_sensitivities : Z;
  c_n_states : Z;
  c_logging_initialized : Z;
  c_n_logged_variables : Z;
  c_log_lists : option (list PyObject);
  c_log_vars : option (list var_ptr)
}.

Definition model_config (m : Model_Memory) : Model_Config :=
  mkConfig (is_ode m) (has_sensitivities m) (n_states m)
    (logging_initialized m) (n_logged_variables m) (_log_lists m)
    (_log_vars m).

Lemma store_config p v m m' :
  store p v m = Some m' -> model_config m' = model_config m.
Proof.
  destruct p; simpl; intros H;
    try (injection H as <-; reflexivity);
    try (destruct (wr _ _ _); simpl in H; [injection H as <-|discriminate];
         reflexivity).
  destruct (pace_values m); simpl in H; [|discriminate].
  destruct (wr _ _ _); simpl in H; [injection H as <-|discriminate].
  reflexivity.
Qed.

Definition has_config cfg (m : Model_Memory) : Prop := model_config m = cfg.

Lemma config_model_effects cfg : ModelEffects (has_config cfg).
Proof.
  split.
  - intros p v m m' H _ S. unfold has_config.
    now rewrite (store_config _ _ _ _ S).
  - intros v m H. exact H.
Qed.

Lemma config_bound_effects cfg : BoundEffects (has_config cfg).
Proof. split; intros v m H; exact H. Qed.

Section Configured.
Context {cvode_mem_t ESys FSys host : Type}.
Abbreviation St := (Sim cvode_mem_t ESys FSys host).

(** The model of the driver, when there is one, has the configuration
    [cfg]. *)
Definition configured cfg (s : St) : Prop :=
  forall m, model s = Some m -> model_config m = cfg.

Lemma configured_set cfg (s : St) m' :
  has_config cfg m' -> configured cfg (set_model (Some m') s).
Proof. intros H m Hm. simpl in Hm. now injection Hm as <-. Qed.

(** The configuration of the model of [s]. *)
Definition config_of (s : St) :=
  match model s with
  | Some m => model_config m
  | None => mkConfig 0 0 0 0 0 None None
  end.

Lemma configured_config_of (s : St) : configured (config_of s) s.
Proof. intros m Hm. unfold config_of. now rewrite Hm. Qed.

End Configured.
(** *** The host's lists *)

Lemma PyList_SetItem_other h o i v l :
  o <> PyRef l -> PyList_SetItem h o i v !! l = h !! l.
Proof.
  intros Ho. unfold PyList_SetItem, pyheap in *.
  destruct o as [| | | |l'|]; try reflexivity.
  destruct (h !! l') eqn:Hl; [|reflexivity].
  destruct (decide _); [|reflexivity].
  apply lookup_insert_ne. congruence.
Qed.

Lemma PyList_SetItem_length h o i v l :
  length <$> (PyList_SetItem h o i v !! l) = length <$> (h !! l).
Proof.
  unfold PyList_SetItem, pyheap in *.
  destruct o as [| | | |l'|]; try reflexivity.
  destruct (h !! l') eqn:Hl; [|reflexivity].
  destruct (decide _); [|reflexivity].
  destruct (decide (l' = l)) as [->|Hne].
  - rewrite lookup_insert_eq, Hl. simpl. now rewrite length_insert.
  - now rewrite lookup_insert_ne.
Qed.

Lemma PyList_Append_other h o v h' l :
  PyList_Append h o v = Some h' -> o <> PyRef l -> h' !! l = h !! l.
Proof.
  unfold PyList_Append, pyheap in *.
  destruct o as [| | | |l'|]; try discriminate.
  destruct (h !! l'); [|discriminate]. intros H Ho. injection H as <-.
  apply lookup_insert_ne. congruence.
Qed.

Lemma PyList_Append_at h l v h' :
  PyList_Append h (PyRef l) v = Some h' ->
  exists items, h !! l = Some items /\ h' = <[l := items ++ [v]]> h.
Proof.
  unfold PyList_Append. destruct (h !! l) as [items|]; [|discriminate].
  intros H. injection H as <-. now exists items.
Qed.

(** [Model_Log] leaves the lists that are no sinks. *)
Lemma log_from_other k : forall i m lists vars h flag h' l,
  log_from k i m lists vars h = Some (flag, h') ->
  PyRef l ∉ lists -> h' !! l = h !! l.
Proof.
  induction k as [|k IH]; intros i m lists vars h flag h' l; simpl.
  - intros H _. now injection H as _ <-.
  - destruct (vars !! i) as [p|]; [|discriminate]. simpl.
    destruct (load p m) as [x|]; [|discriminate]. simpl.
    destruct (lists !! i) as [sink|] eqn:Hsink; [|discriminate]. simpl.
    intros H Hl. unfold call_append in H.
    destruct (PyList_Append h sink (PyFloat_FromDouble x)) as [h1|] eqn:Ha.
    + rewrite (IH _ _ _ _ _ _ _ _ H Hl).
      eapply PyList_Append_other; [exact Ha|].
      intros ->. apply Hl. eapply list_elem_of_lookup_2, Hsink.
    + now injection H as _ <-.
Qed.

Lemma Model_Log_other m h flag h' l :
  Model_Log m h = Some (flag, h') ->
  (forall lists, _log_lists m = Some lists -> PyRef l ∉ lists) ->
  h' !! l = h !! l.
Proof.
  unfold Model_Log. destruct (decide _).
  - intros H _. now injection H as _ <-.
  - destruct (_log_lists m) as [lists|]; [|discriminate]. simpl.
    destruct (_log_vars m) as [vars|]; [|discriminate]. simpl.
    intros H Hl. eapply log_from_other; [exact H | now apply Hl].
Qed.

(** *** Invariants of a call of [step()] *)

Section RunFrame.
Context {cvode_mem_t ESys FSys host : Type}.
Context (W : @World cvode_mem_t ESys FSys host).
Abbreviation St := (Sim cvode_mem_t ESys FSys host).
Context (I : St -> Prop) (J : Model_Memory -> Prop).

(** The state that [sim_clean] leaves from a state of [I]. *)
Definition torn_down (s' : St) : Prop :=
  exists s, I s /\ s' = after_clean s.

Definition torn_down_error (_ : sim_error) : St -> Prop := torn_down.

(** A log row of a model without sensitivities. *)
Lemma pres_log_row_plain E svec :
  CoreEffects I E J ->
  (forall m, J m -> has_sensitivities m = 0) ->
  (forall s m flag h',
     I s -> model s = Some m -> Model_Log m (py_heap s) = Some (flag, h') ->
     I (set_py_heap h' s) /\
     (flag <> Model_OK -> E (Err_model flag) (after_clean (set_py_heap h' s)))) ->
  (forall s, I s -> E (Err_model Model_INVALID_MODEL) (after_clean s)) ->
  pres I E (log_row svec).
Proof.
  intros HC Hns Hlog Hnone s Hs. unfold log_row. apply wp_bind.
  unfold Model_Log_global. apply wp_bind, wp_gets.
  destruct (model s) as [m|] eqn:Hm.
  - apply wp_bind, wp_gets.
    destruct (Model_Log m (py_heap s)) as [[flag h']|] eqn:Hl; [|exact Logic.I].
    destruct (Hlog s m flag h' Hs Hm Hl) as [HI HE].
    apply wp_bind, wp_modify, wp_ret.
    destruct (decide (flag <> Model_OK)) as [Hf|_].
    + apply wp_clean_raise. now apply HE.
    + apply (pres_model_gets_k I E J HC); [|exact HI].
      intros m' Hm'. rewrite (Hns m' Hm').
      destruct (decide (0 <> 0)); [congruence | apply pres_ret].
  - apply wp_ret.
    destruct (decide _) as [_|n]; [|exfalso; apply n; discriminate].
    apply wp_clean_raise. now apply Hnone.
Qed.

Hypothesis HE : Effects I torn_down_error J.
Hypothesis Ht : stable set_t I.
Hypothesis Htlast : stable set_tlast I.
Hypothesis Hcount : stable set_steps I.
Hypothesis Hzero : stable set_zero_step_count I.
Hypothesis Hhalt : HaltEffects I.
Hypothesis Hout : OutEffects I.
Hypothesis Hns : forall m, J m -> has_sensitivities m = 0.

Lemma torn_down_intro e s : I s -> torn_down_error e (after_clean s).
Proof. intros Hs. now exists s. Qed.

Lemma turn_keeps fuel fr s :
  I s -> wp (step_body W fuel fr) (fun _ => I) torn_down_error s.
Proof.
  assert (Hfail : forall flag, pres I torn_down_error
            (write_error_outputs ;;;
             @clean_raise _ _ _ _ Z (Err_cvode "CVode" flag))).
  { intros flag. eapply pres_cvode_failure; [apply HE | exact Hout |].
    intros x Hx. now apply torn_down_intro. }
  assert (Hprogress : pres I torn_down_error check_progress).
  { apply pres_check_progress_free; [exact Hzero|].
    intros msg x Hx. now apply torn_down_intro. }
  apply (wp_step_body W I I torn_down_error J HE HE Ht Ht Htlast Hhalt
           Hfail Hprogress).
  intros x Hx. now apply Hcount.
Qed.

Definition kept (r : step_result) (s : St) : Prop :=
  match r with
  | Yielded _ => I s
  | Finished _ => torn_down s
  end.

(** A call of [step()] keeps [I] when it passes control back, and leaves
    a state of [I] torn down when it finishes or raises. *)
Lemma sim_step_keeps fuel s :
  I s -> wp (sim_step W fuel) kept torn_down_error s.
Proof.
  apply (wp_sim_step W I torn_down_error J HE).
  intros s1 Hs1.
  apply (wp_step_loop W I torn_down_error (fun _ => I)); auto.
  - intros fr x Hx. now apply turn_keeps.
  - intros x Hx.
    eapply wp_bind_pres;
      [ apply (pres_write_final_outputs I torn_down_error J (eff_core _ _ _ HE));
        assumption
      | exact Hx |].
    intros _ x1 Hx1. apply wp_bind.
    eapply wp_mono; [apply sim_clean_spec | | contradiction].
    intros _ x2 ->. apply wp_bind, wp_gets, wp_ret. now exists x1.
  - intros hs x Hx. simpl.
    assert (Hx' : I (set_host_state hs x))
      by now apply (eff_host_state _ _ _ (eff_core _ _ _ HE)).
    split; [exact Hx'|]. split; [exact Hx' | now apply torn_down_intro].
Qed.

End RunFrame.
(** ** The step loop passes control back after 100 steps *)

Lemma wrap64_add a b : wrap64 (wrap64 a + b) = wrap64 (a + b).
Proof.
  unfold wrap64. f_equal.
  replace ((a + 2 ^ 63) mod 2 ^ 64 - 2 ^ 63 + b + 2 ^ 63)
    with ((a + 2 ^ 63) mod 2 ^ 64 + b) by lia.
  rewrite Zplus_mod_idemp_l. f_equal. lia.
Qed.

Section Yield.
Context {cvode_mem_t ESys FSys host : Type}.
Context (W : @World cvode_mem_t ESys FSys host).
Abbreviation St := (Sim cvode_mem_t ESys FSys host).

(** Set start time for logging of realtime: what [sim_step] does before its
    loop. *)
Definition start_realtime : M St unit :=
  let* lr := gets log_realtime in
  let* rs := gets realtime_start in
  if bool_decide (lr <> 0) && (rs =? 0)%float then
    let* rt := benchmarker_realtime W in
    modify (set_realtime_start rt) ;;;
    if (rt <=? 0)%float then
      sim_cleanx PyExc_Exception "Failed to set realtime_start."
    else ret tt
  else ret tt.

(** [k] turns of the loop that neither leave it nor raise, with the host's
    signal handling after each: the result is [flag_reinit] and the state
    after the last turn. *)
Fixpoint turns (k : nat) (fuel : nat) (flag_reinit : Z) (s : St)
  : option (Z * St) :=
  match k with
  | O => Some (flag_reinit, s)
  | S k' =>
      match step_body W fuel flag_reinit s with
      | Ok (flag_reinit', false) s1 =>
          let '(sig, hs') := PyErr_CheckSignals W (host_state s1) in
          if decide (sig <> 0) then None
          else turns k' fuel flag_reinit' (set_host_state hs' s1)
      | _ => None
      end
  end.

(** Turns of the loop beyond the hundredth are never taken. *)
Lemma step_loop_bound fuel n : forall n' fr k (s : St),
  0 <= k < 100 -> 100 - k <= Z.of_nat n -> 100 - k <= Z.of_nat n' ->
  step_loop W n fuel fr k s = step_loop W n' fuel fr k s.
Proof.
  induction n as [|n IH]; intros n' fr k s Hk Hn Hn'.
  - lia.
  - destruct n' as [|n']; [lia|]. simpl. unfold bind.
    destruct (step_body W fuel fr s) as [[fr' fin] s1| | |]; try reflexivity.
    destruct fin; [reflexivity|]. simpl.
    destruct (PyErr_CheckSignals W (host_state s1)) as [sig hs'].
    simpl. destruct (decide (sig <> 0)); [reflexivity|].
    destruct (decide (k + 1 >= 100)); [reflexivity|].
    apply IH; lia.
Qed.

(** The loop after [k] turns that go on: it is where these turns leave it,
    and it passes control back after the hundredth. *)
Lemma step_loop_turns fuel k : forall n fr j (s : St) fr' s',
  turns k fuel fr s = Some (fr', s') ->
  0 <= j -> j + Z.of_nat k < 100 ->
  step_loop W (k + n) fuel fr j s = step_loop W n fuel fr' (j + Z.of_nat k) s'.
Proof.
  induction k as [|k IH]; intros n fr j s fr' s' Ht Hj Hk.
  - simpl in Ht. injection Ht as <- <-. simpl. f_equal. lia.
  - simpl in Ht. simpl. unfold bind.
    destruct (step_body W fuel fr s) as [[fr1 fin] s1| | |]; try discriminate.
    destruct fin; [discriminate|]. simpl.
    destruct (PyErr_CheckSignals W (host_state s1)) as [sig hs'].
    simpl. destruct (decide (sig <> 0)); [discriminate|].
    destruct (decide (j + 1 >= 100)); [lia|].
    rewrite (IH n fr1 (j + 1) _ fr' s' Ht) by lia. f_equal. lia.
Qed.

Lemma step_loop_yields fuel n fr (s : St) fr' s' :
  turns 1 fuel fr s = Some (fr', s') ->
  step_loop W (S n) fuel fr 99 s = Ok (Yielded (t s')) s'.
Proof.
  simpl. unfold bind.
  destruct (step_body W fuel fr s) as [[fr1 fin] s1| | |]; try discriminate.
  destruct fin; [discriminate|]. simpl.
  destruct (PyErr_CheckSignals W (host_state s1)) as [sig hs'].
  simpl. destruct (decide (sig <> 0)); [discriminate|].
  intros H. injection H as _ <-. reflexivity.
Qed.

Lemma turns_add fuel a : forall b fr (s : St),
  turns (a + b) fuel fr s =
  match turns a fuel fr s with
  | Some (fr', s') => turns b fuel fr' s'
  | None => None
  end.
Proof.
  induction a as [|a IH]; intros b fr s; simpl; [reflexivity|].
  destruct (step_body W fuel fr s) as [[fr1 fin] s1| | |]; try reflexivity.
  destruct fin; [reflexivity|].
  destruct (PyErr_CheckSignals W (host_state s1)) as [sig hs'].
  destruct (decide (sig <> 0)); [reflexivity | apply IH].
Qed.

(** [k] steps were counted since the call, in the arithmetic of C
    [long], and the driver is as initialised as it was. *)
Definition counted (c i0 k : Z) (s : St) : Prop :=
  (k = 0 /\ steps s = c \/ 0 < k /\ steps s = wrap64 (c + k)) /\
  initialized s = i0.

Definition whatever (_ : sim_error) (_ : St) : Prop := True.

Lemma counted_effects c i0 k :
  Effects (counted c i0 k) whatever (fun _ => True).
Proof.
  apply effects_free; try (intros ? ? H; exact H).
  - field_effects.
  - intros; exact Logic.I.
Qed.

Lemma counted_turn c i0 k fuel fr s :
  0 <= k -> counted c i0 k s ->
  wp (step_body W fuel fr) (fun _ => counted c i0 (k + 1)) whatever s.
Proof.
  intros Hk Hs.
  apply (wp_step_body W _ _ _ _ (counted_effects c i0 k)
           (counted_effects c i0 (k + 1))); auto.
  - intros v x H. exact H.
  - intros v x H. exact H.
  - intros v x H. exact H.
  - split; intros; assumption.
  - intros flag. eapply pres_cvode_failure;
      [apply counted_effects | | intros; exact Logic.I].
    apply heap_free_out. intros h x H. exact H.
  - apply pres_check_progress_free;
      [intros v x H; exact H | intros; exact Logic.I].
  - intros x [Hx Hi]. split; [|exact Hi]. right. split; [lia|]. simpl.
    destruct Hx as [[-> ->]|[_ ->]].
    + reflexivity.
    + rewrite wrap64_add. f_equal. lia.
Qed.

Lemma turns_counted fuel k : forall c i0 j fr (s : St) fr' s',
  0 <= j -> counted c i0 j s ->
  turns k fuel fr s = Some (fr', s') ->
  counted c i0 (j + Z.of_nat k) s'.
Proof.
  induction k as [|k IH]; intros c i0 j fr s fr' s' Hj Hs Ht; simpl in Ht.
  - injection Ht as _ <-. now rewrite Z.add_0_r.
  - pose proof (counted_turn c i0 j fuel fr s Hj Hs) as Hw. unfold wp in Hw.
    destruct (step_body W fuel fr s) as [[fr1 fin] s1| | |]; try discriminate.
    destruct fin; [discriminate|].
    destruct (PyErr_CheckSignals W (host_state s1)) as [sig hs'].
    destruct (decide (sig <> 0)); [discriminate|].
    replace (j + Z.of_nat (S k)) with (j + 1 + Z.of_nat k) by lia.
    eapply IH; [| |exact Ht]; [lia | exact Hw].
Qed.

(** *** [flag_reinit] is 0 after every turn *)

Lemma wp_any {A} (m : M St A) s : wp m (fun _ _ => True) whatever s.
Proof. unfold wp. destruct (m s); exact Logic.I. Qed.

Ltac wp_skip :=
  apply wp_bind; eapply wp_mono;
    [apply wp_any | intros ? ? _ | intros; exact Logic.I]; cbn beta.

Lemma configured_effects cfg :
  Effects (configured cfg) whatever (has_config cfg).
Proof.
  apply effects_free; try (intros ? ? H; exact H).
  - field_effects.
    + apply config_model_effects.
    + intros s m H Hm. now apply H.
    + intros s m' _ Hm. now apply configured_set.
  - intros; exact Logic.I.
Qed.

Lemma configured_halt cfg : HaltEffects (configured cfg : St -> Prop).
Proof. split; intros; assumption. Qed.

Lemma reinit_flag_zero cfg fr s :
  configured cfg s -> c_is_ode cfg <> 0 \/ fr = 0 ->
  wp (reinit_if_needed W fr) (fun r _ => r = 0) whatever s.
Proof.
  intros Hs Hfr. unfold reinit_if_needed.
  apply wp_bind, wp_with_model_gets. intros m Hm.
  assert (Hode : is_ode m = c_is_ode cfg) by (rewrite <- (Hs m Hm); reflexivity).
  destruct (bool_decide (is_ode m <> 0) && bool_decide (fr <> 0)) eqn:B.
  - wp_skip. wp_skip. destruct (CVodeReInit W _ _ _).
    wp_skip. wp_skip. wp_skip. wp_skip. now apply wp_ret.
  - apply wp_ret. apply andb_false_iff in B as [B|B].
    + apply bool_decide_eq_false in B. destruct Hfr as [H|H]; [|exact H].
      rewrite Hode in B. contradiction.
    + apply bool_decide_eq_false in B.
      destruct (decide (fr = 0)); [assumption | contradiction].
Qed.

Lemma log_and_pace_flag_zero cfg fuel fr s :
  configured cfg s -> c_is_ode cfg <> 0 \/ fr = 0 ->
  wp (log_and_pace W fuel fr) (fun r _ => r = 0) whatever s.
Proof.
  intros Hs Hfr. unfold log_and_pace.
  apply wp_bind, wp_gets, wp_bind, wp_gets, wp_bind, wp_gets.
  eapply (wp_bind_pres (configured cfg)); [| exact Hs |].
  { destruct (_ && _);
      [apply (pres_log_interpolated W _ _ _ (configured_effects cfg))
      | apply pres_ret]. }
  intros _ s1 Hs1.
  eapply (wp_bind_pres (configured cfg)); [| exact Hs1 |].
  { apply (pres_update_pacing W _ _ _ (configured_effects cfg)),
      configured_halt. }
  intros _ s2 Hs2.
  eapply (wp_bind_pres (configured cfg)); [| exact Hs2 |].
  { destruct (decide _);
      [apply (pres_log_dynamic W _ _ _ (configured_effects cfg))
      | apply pres_ret]. }
  intros _ s3 Hs3. now apply (reinit_flag_zero cfg).
Qed.

Lemma after_step_flag_zero cfg fuel fc s :
  configured cfg s ->
  wp (after_step W fuel fc 0) (fun r _ => r = 0) whatever s.
Proof.
  intros Hs. unfold after_step.
  apply wp_bind, wp_with_model_gets. intros m Hm.
  assert (Hode : is_ode m = c_is_ode cfg) by (rewrite <- (Hs m Hm); reflexivity).
  apply wp_bind. destruct (decide (is_ode m <> 0)) as [Ho|Hz].
  - eapply wp_mono;
      [ apply (pres_rewind_or_root W _ _ _ (configured_effects cfg));
        [intros v x H; exact H | exact Hs] | | auto ].
    intros fr1 s1 Hs1. simpl in Hs1.
    apply (log_and_pace_flag_zero cfg); [exact Hs1 | left; congruence].
  - apply wp_ret. apply (log_and_pace_flag_zero cfg); [exact Hs | now right].
Qed.

Lemma turn_flag_zero fuel s :
  wp (step_body W fuel 0) (fun r _ => fst r = 0) whatever s.
Proof.
  pose proof (configured_config_of s) as Hs.
  set (cfg := config_of s) in *. unfold step_body.
  eapply (wp_bind_pres (configured cfg)); [| exact Hs |].
  { apply (pres_backup_state _ _ _ (eff_core _ _ _ (configured_effects cfg))).
    intros v x H. exact H. }
  intros _ s1 Hs1.
  eapply (wp_bind_pres (configured cfg)); [| exact Hs1 |].
  { apply (pres_integrator_step W _ _ _
             (eff_core _ _ _ (configured_effects cfg))).
    - intros v x H. exact H.
    - intros flag. eapply pres_cvode_failure;
        [apply configured_effects | | intros; exact Logic.I].
      apply heap_free_out. intros h x H. exact H. }
  intros flag s2 Hs2.
  eapply (wp_bind_pres (configured cfg)); [| exact Hs2 |].
  { apply pres_check_progress_free;
      [intros v x H; exact H | intros; exact Logic.I]. }
  intros _ s3 Hs3. apply wp_bind, wp_modify, wp_bind.
  assert (Hend : forall (x : St),
    wp (modify (fun s => if ESys_eq W (t s) (tmax s)
                         then set_t (tmax s) s else s) ;;;
        let* tt' := gets t in
        let* tmax' := gets tmax in
        ret (0, (tmax' <=? tt')%float))
       (fun r _ => fst r = 0) whatever x).
  { intros x. apply wp_bind, wp_modify, wp_bind, wp_gets, wp_bind, wp_gets,
      wp_ret. reflexivity. }
  destruct (_ || _).
  - eapply wp_mono; [apply (after_step_flag_zero cfg); exact Hs3 | | auto].
    intros r x ->. apply Hend.
  - apply wp_ret, Hend.
Qed.

Lemma turns_flag_zero fuel k : forall (s : St) fr' s',
  turns k fuel 0 s = Some (fr', s') -> fr' = 0.
Proof.
  induction k as [|k IH]; intros s fr' s' Ht; simpl in Ht.
  - now injection Ht as <- _.
  - pose proof (turn_flag_zero fuel s) as Hw. unfold wp in Hw.
    destruct (step_body W fuel 0 s) as [[fr1 fin] s1| | |]; try discriminate.
    destruct fin; [discriminate|]. simpl in Hw. subst fr1.
    destruct (PyErr_CheckSignals W (host_state s1)) as [sig hs'].
    destruct (decide (sig <> 0)); [discriminate|].
    exact (IH _ _ _ Ht).
Qed.

(** C5. A call of [step()] takes at most 100 turns of its loop, whatever
    bound above 100 the loop is given. When 100 turns in a row neither
    leave the loop nor raise (no completion, no error, no signal), the
    call returns the time [t] of the state that the hundredth turn leaves,
    and the driver is left in exactly that state: nothing is torn down,
    100 steps were counted (in the arithmetic of C [long]), and
    [flag_reinit] is 0 as at the start of a call, so that the turns of the
    next call are the turns that the loop would have gone on with. *)
Theorem sim_step_yields_after_100_steps fuel (s s0 s' : St) fr :
  start_realtime s = Ok tt s0 ->
  turns 100 fuel 0 s0 = Some (fr, s') ->
  sim_step W fuel s = Ok (Yielded (t s')) s' /\
  (forall n, (100 <= n)%nat ->
     (start_realtime ;;; step_loop W n fuel 0 0) s = sim_step W fuel s) /\
  fr = 0 /\
  (forall k, turns (100 + k) fuel 0 s0 = turns k fuel 0 s') /\
  steps s' = wrap64 (steps s0 + 100) /\
  initialized s' = initialized s0.
Proof.
  intros Hstart Ht.
  assert (Hloop : step_loop W 100 fuel 0 0 s0 = Ok (Yielded (t s')) s').
  { pose proof Ht as Ht'.
    change 100%nat with (99 + 1)%nat in Ht'. rewrite turns_add in Ht'.
    destruct (turns 99 fuel 0 s0) as [[fr1 s1]|] eqn:H99; [|discriminate].
    change 100%nat with (99 + 1)%nat.
    rewrite (step_loop_turns fuel 99 1 0 0 s0 fr1 s1 H99) by lia.
    exact (step_loop_yields fuel 0 fr1 s1 fr s' Ht'). }
  assert (Hsim : forall n,
    (start_realtime ;;; step_loop W n fuel 0 0) s = step_loop W n fuel 0 0 s0).
  { intros n. unfold bind at 1. now rewrite Hstart. }
  assert (Hstep : sim_step W fuel s = step_loop W 100 fuel 0 0 s0)
    by exact (Hsim 100%nat).
  assert (Hfr : fr = 0) by exact (turns_flag_zero fuel 100 s0 fr s' Ht).
  split; [now rewrite Hstep|].
  split.
  { intros n Hn. rewrite Hsim, Hstep. apply step_loop_bound; lia. }
  split; [exact Hfr|].
  split.
  { intros k. rewrite turns_add, Ht, Hfr. reflexivity. }
  assert (Hc : counted (steps s0) (initialized s0) 0 s0)
    by (split; [left; split; reflexivity | reflexivity]).
  pose proof (turns_counted fuel 100 _ _ 0 0 s0 fr s' (Z.le_refl 0) Hc Ht)
    as [[[H _]|[_ H]] Hi]; [lia|].
  split; [exact H | exact Hi].
Qed.

End Yield.

Lemma sim_step_yields_after_100_steps_witness :
  sim_step RefWorld.W0 1000 RefWorld.ready
  = Ok (Yielded (t (RefWorld.steps_of 1 RefWorld.ready)))
       (RefWorld.steps_of 1 RefWorld.ready).
Proof.
  refine (proj1 (sim_step_yields_after_100_steps RefWorld.W0 1000
                   RefWorld.ready RefWorld.ready
                   (RefWorld.steps_of 1 RefWorld.ready) 0 _ _));
    vm_compute; reflexivity.
Defined.
(** ** The count of zero-length steps *)

Definition zero_step_error : sim_error :=
  Err_msg PyExc_ArithmeticError
    "Maximum number of zero-length steps taken at t=%g".

Lemma bind_ok {St A B} (m : M St A) (k : A -> M St B) s a s1 :
  m s = Ok a s1 -> bind m k s = k a s1.
Proof. unfold bind. now intros ->. Qed.

Section ZeroSteps.
Context {cvode_mem_t ESys FSys host : Type}.
Context (W : @World cvode_mem_t ESys FSys host).
Abbreviation St := (Sim cvode_mem_t ESys FSys host).

(** [sim_clean] frees what is there: the model, when there are
    sensitivity vectors to free, and the pacing systems. *)
Definition clean_defined (s : St) : Prop :=
  initialized s = 0 \/
  ((sy s <> None -> model s <> None) /\
   (Z.to_nat (n_pace s) <= length (cells (pacing_systems s)))%nat).

Lemma free_pacing_systems (s : St) n i :
  (i + n <= length (cells (pacing_systems s)))%nat ->
  for_from i n (fun i => let* systems := gets pacing_systems in
                         let* _ := rd (cells systems) i in ret tt) s
  = Ok tt s.
Proof.
  revert i. induction n as [|n IH]; intros i Hn; simpl; [reflexivity|].
  destruct (cells (pacing_systems s) !! i) as [x|] eqn:Hi.
  - erewrite bind_ok; [apply IH; lia|].
    erewrite bind_ok by reflexivity. unfold rd. rewrite Hi. reflexivity.
  - apply lookup_ge_None in Hi. lia.
Qed.

Lemma sim_clean_total (s : St) :
  clean_defined s -> sim_clean s = Ok tt (after_clean s).
Proof.
  intros Hd.
  assert (H : exists s', sim_clean s = Ok tt s').
  { unfold sim_clean. erewrite bind_ok by reflexivity.
    destruct (decide (initialized s = 0)) as [|Hi]; [now eexists|].
    destruct Hd as [|[Hsy Hp]]; [contradiction|].
    do 3 (erewrite bind_ok by reflexivity). simpl sy.
    assert (Hfree : exists s2,
      (if sy s is Some _
       then let* _ := with_model (gets ns_independents) in modify (set_sy None)
       else ret tt) (set_ylast None (set_y None s)) = Ok tt s2 /\
      n_pace s2 = n_pace s /\ pacing_systems s2 = pacing_systems s).
    { destruct (sy s) as [v|]; [|now eexists].
      destruct (model s) as [m|] eqn:Hm; [|now destruct Hsy].
      exists (set_sy None
                (set_model (Some m) (set_ylast None (set_y None s)))).
      split; [|split; reflexivity].
      erewrite bind_ok; [reflexivity|].
      unfold with_model, zoom. simpl. rewrite Hm. reflexivity. }
    destruct Hfree as (s2 & Hs2 & Hn & Hps).
    erewrite bind_ok by exact Hs2.
    do 7 (erewrite bind_ok by reflexivity). simpl n_pace.
    erewrite bind_ok;
      [do 3 (erewrite bind_ok by reflexivity); now eexists|].
    apply free_pacing_systems. simpl. rewrite Hn, Hps. exact Hp. }
  destruct H as [s' H]. rewrite H. f_equal.
  exact (sim_clean_result s s' H).
Qed.

(** The turn after the test of progress. *)
Definition finish_turn (fuel : nat) (flag_cvode flag_reinit : Z)
  : M St (Z * bool) :=
  (* Update step count *)
  modify (fun s => set_steps (wrap64 (steps s + 1)) s) ;;;
  (* If we got to this point without errors... *)
  let* flag_reinit :=
    (if bool_decide (flag_cvode = CV_SUCCESS)
        || bool_decide (flag_cvode = CV_ROOT_RETURN)
     then after_step W fuel flag_cvode flag_reinit
     else ret flag_reinit) in
  (* Check if we're finished *)
  modify (fun s => if ESys_eq W (t s) (tmax s) then set_t (tmax s) s else s) ;;;
  let* tt' := gets t in
  let* tmax' := gets tmax in
  ret (flag_reinit, (tmax' <=? tt')%float).

Lemma step_body_finish_turn fuel fr :
  step_body W fuel fr =
  (backup_state ;;;
   let* flag_cvode := integrator_step W in
   check_progress ;;;
   finish_turn fuel flag_cvode fr).
Proof. reflexivity. Qed.

(** The backup keeps the count and the time, and [tlast] is the time. *)
Lemma backup_state_frame (s : St) :
  wp backup_state
     (fun _ s0 => zero_step_count s0 = zero_step_count s /\
                  tlast s0 = t s /\ t s0 = t s)
     (fun _ _ => False) s.
Proof.
  unfold backup_state. apply wp_bind, wp_with_model_gets. intros m Hm.
  apply wp_bind.
  apply (wp_for_inv
           (fun s1 => zero_step_count s1 = zero_step_count s /\ t s1 = t s)).
  - intros j s1 [H1 H2]. wp_go. simpl. auto.
  - auto.
  - intros s' [H1 H2]. apply wp_modify. simpl. auto.
Qed.

Definition count_is (c : Z) (s : St) : Prop := zero_step_count s = c.
Definition count_at (c : Z) (tl : realtype) (s : St) : Prop :=
  zero_step_count s = c /\ tlast s = tl.

(** The count is [c], and the error is not the one of the limit. *)
Definition other_error (c : Z) (e : sim_error) (s : St) : Prop :=
  e <> zero_step_error /\ zero_step_count s = c.

Definition count_kept {A} (c : Z) (o : outcome St A) : Prop :=
  match o with
  | Ok _ s' => zero_step_count s' = c
  | Raise e s' => other_error c e s'
  | Undefined | OutOfFuel => True
  end.

Lemma count_at_core c tl :
  CoreEffects (count_at c tl) (fun _ _ => True) (fun _ => True).
Proof. field_effects. Qed.

Lemma integrator_step_frame c tl :
  pres (count_at c tl) (fun _ _ => True) (integrator_step W).
Proof.
  apply (pres_integrator_step W _ _ _ (count_at_core c tl)).
  - intros v s H. exact H.
  - intros flag. eapply pres_cvode_failure; [apply count_at_core | | auto].
    apply heap_free_out. intros h s H. exact H.
Qed.

Lemma count_is_error c e (s : St) :
  e <> zero_step_error -> count_is c s -> other_error c e (after_clean s).
Proof.
  intros He Hs. split; [exact He|]. unfold after_clean.
  destruct (decide _); exact Hs.
Qed.

Lemma count_is_effects c :
  Effects (count_is c) (other_error c) (fun _ => True).
Proof.
  apply effects_free; try (intros ? ? H; exact H).
  - field_effects. intros e s He Hs. apply count_is_error; [|exact Hs].
    unfold zero_step_error. destruct e; simpl in He; congruence.
  - intros f s Hs. now apply count_is_error.
Qed.

(** Nothing after the test of progress changes the count or raises the
    error of the limit. *)
Lemma finish_turn_keeps fuel flag fr c (s : St) :
  count_is c s -> count_kept c (finish_turn fuel flag fr s).
Proof.
  intros Hs.
  assert (H : wp (finish_turn fuel flag fr) (fun _ => count_is c)
                (other_error c) s).
  { apply (wp_turn_rest W (count_is c) (count_is c) (other_error c)
             (fun _ => True) (count_is_effects c)); auto.
    - intros v x H. exact H.
    - split; intros; assumption. }
  unfold wp in H. unfold count_kept.
  destruct (finish_turn fuel flag fr s); auto.
Qed.

(** C4. In a turn of the step loop whose integrator step succeeds, the
    time [t] after the integrator step is compared with the time before it
    (kept in [tlast]). When they are equal the count of zero-length steps
    is incremented (an [int]); when the incremented count reaches 500 the
    turn ends there: the driver is torn down and the error of the
    zero-step limit is raised. When the times differ the count is reset to
    zero. In both cases without the error the turn goes on from the state
    with the new count, and nothing in the rest of the turn changes the
    count or raises that error. *)
Theorem zero_step_count_turn fuel fr (s s0 s1 : St) flag :
  backup_state s = Ok tt s0 ->
  integrator_step W s0 = Ok flag s1 ->
  clean_defined s1 ->
  tlast s1 = t s /\ zero_step_count s1 = zero_step_count s /\
  max_zero_step_count = 500 /\
  if (t s1 =? t s)%float then
    if decide (wrap32 (zero_step_count s + 1) >= 500) then
      step_body W fuel fr s =
      Raise zero_step_error
        (after_clean
           (set_zero_step_count (wrap32 (zero_step_count s + 1)) s1))
    else
      check_progress s1 =
        Ok tt (set_zero_step_count (wrap32 (zero_step_count s + 1)) s1) /\
      step_body W fuel fr s =
        finish_turn fuel flag fr
          (set_zero_step_count (wrap32 (zero_step_count s + 1)) s1) /\
      count_kept (wrap32 (zero_step_count s + 1)) (step_body W fuel fr s)
  else
    check_progress s1 = Ok tt (set_zero_step_count 0 s1) /\
    step_body W fuel fr s =
      finish_turn fuel flag fr (set_zero_step_count 0 s1) /\
    count_kept 0 (step_body W fuel fr s).
Proof.
  intros Hb Hi Hd.
  pose proof (wp_ok _ _ _ _ _ _ (backup_state_frame s) Hb) as (B1 & B2 & B3).
  simpl in B1, B2, B3.
  pose proof (wp_ok _ _ _ _ _ _
    (integrator_step_frame (zero_step_count s) (t s) s0 (conj B1 B2)) Hi)
    as [I1 I2].
  simpl in I1, I2.
  split; [exact I2|]. split; [exact I1|]. split; [reflexivity|].
  assert (Hturn : step_body W fuel fr s =
                  (check_progress ;;; finish_turn fuel flag fr) s1).
  { rewrite step_body_finish_turn. erewrite bind_ok by exact Hb.
    erewrite bind_ok by exact Hi. reflexivity. }
  assert (Hcheck : check_progress s1 =
    if (t s1 =? t s)%float then
      if decide (wrap32 (zero_step_count s + 1) >= 500) then
        Raise zero_step_error
          (after_clean
             (set_zero_step_count (wrap32 (zero_step_count s + 1)) s1))
      else Ok tt (set_zero_step_count (wrap32 (zero_step_count s + 1)) s1)
    else Ok tt (set_zero_step_count 0 s1)).
  { unfold check_progress. do 2 (erewrite bind_ok by reflexivity).
    rewrite I2. destruct (t s1 =? t s)%float; [|reflexivity].
    do 2 (erewrite bind_ok by reflexivity). simpl zero_step_count.
    rewrite I1. unfold max_zero_step_count.
    destruct (decide _); [|reflexivity].
    unfold sim_cleanx, clean_raise. erewrite bind_ok; [reflexivity|].
    apply sim_clean_total. exact Hd. }
  unfold bind in Hturn. rewrite Hcheck in Hturn. rewrite Hcheck.
  destruct (t s1 =? t s)%float.
  - destruct (decide _); [exact Hturn|].
    split; [reflexivity|]. split; [exact Hturn|].
    rewrite Hturn. now apply finish_turn_keeps.
  - split; [reflexivity|]. split; [exact Hturn|].
    rewrite Hturn. now apply finish_turn_keeps.
Qed.

End ZeroSteps.

(** The stalled run: the fourth turn increments the count to 4, the
    500th turn raises. *)
Lemma zero_step_count_turn_witness :
  (check_progress
     (RefWorld.turn_stepped (RefWorld.after_turns 3 RefWorld.stalled))
   = Ok tt (set_zero_step_count 4
              (RefWorld.turn_stepped (RefWorld.after_turns 3 RefWorld.stalled)))
   /\
   count_kept 4
     (step_body RefWorld.W0 5 0 (RefWorld.after_turns 3 RefWorld.stalled)))
  /\
  step_body RefWorld.W0 5 0 (RefWorld.after_turns 499 RefWorld.stalled)
  = Raise zero_step_error
      (after_clean
         (set_zero_step_count 500
            (RefWorld.turn_stepped
               (RefWorld.after_turns 499 RefWorld.stalled)))).
Proof.
  assert (Hw : forall k c,
    zero_step_count (RefWorld.after_turns k RefWorld.stalled) = c - 1 ->
    backup_state (RefWorld.after_turns k RefWorld.stalled)
    = Ok tt (RefWorld.turn_backup (RefWorld.after_turns k RefWorld.stalled)) ->
    integrator_step RefWorld.W0
      (RefWorld.turn_backup (RefWorld.after_turns k RefWorld.stalled))
    = Ok 0 (RefWorld.turn_stepped (RefWorld.after_turns k RefWorld.stalled)) ->
    clean_defined
      (RefWorld.turn_stepped (RefWorld.after_turns k RefWorld.stalled)) ->
    (t (RefWorld.turn_stepped (RefWorld.after_turns k RefWorld.stalled))
     =? t (RefWorld.after_turns k RefWorld.stalled))%float = true ->
    wrap32 (c - 1 + 1) = c ->
    if decide (c >= 500) then
      step_body RefWorld.W0 5 0 (RefWorld.after_turns k RefWorld.stalled) =
      Raise zero_step_error
        (after_clean
           (set_zero_step_count c
              (RefWorld.turn_stepped
                 (RefWorld.after_turns k RefWorld.stalled))))
    else
      check_progress
        (RefWorld.turn_stepped (RefWorld.after_turns k RefWorld.stalled)) =
        Ok tt (set_zero_step_count c
                 (RefWorld.turn_stepped
                    (RefWorld.after_turns k RefWorld.stalled))) /\
      step_body RefWorld.W0 5 0 (RefWorld.after_turns k RefWorld.stalled) =
        finish_turn RefWorld.W0 5 0 0
          (set_zero_step_count c
             (RefWorld.turn_stepped
                (RefWorld.after_turns k RefWorld.stalled))) /\
      count_kept c
        (step_body RefWorld.W0 5 0 (RefWorld.after_turns k RefWorld.stalled))).
  { intros k c Hc Hb Hi Hd Ht Hwrap.
    pose proof (zero_step_count_turn RefWorld.W0 5 0 _ _ _ _ Hb Hi Hd)
      as (_ & _ & _ & H).
    rewrite Ht, Hc, Hwrap in H. exact H. }
  split.
  - assert (H := Hw 3%nat 4).
    destruct (decide (4 >= 500)) as [|_]; [lia|].
    destruct H as (H1 & _ & H3); try (vm_compute; reflexivity).
    + right. split; [intros _ E; vm_compute in E; discriminate|].
      vm_compute. lia.
    + split; assumption.
  - assert (H := Hw 499%nat 500).
    destruct (decide (500 >= 500)) as [_|]; [|lia].
    apply H; try (vm_compute; reflexivity).
    right. split; [intros _ E; vm_compute in E; discriminate|].
    vm_compute. lia.
Defined.
(** ** The final time *)

Section FinalTime.
Context {cvode_mem_t ESys FSys host : Type}.
Context (W : @World cvode_mem_t ESys FSys host).
Abbreviation St := (Sim cvode_mem_t ESys FSys host).

(** In the mode [CV_ONE_STEP], without a stop time, [CVode] returns
    [CV_SUCCESS], [CV_ROOT_RETURN] or a negative flag. *)
Definition cvode_flags_ok : Prop :=
  forall (s : St) tn,
    cv_flag (CVode W s tn) < 0 \/ cv_flag (CVode W s tn) = CV_SUCCESS \/
    cv_flag (CVode W s tn) = CV_ROOT_RETURN.

Definition no_sensitivities (s : St) : Prop :=
  c_has_sensitivities (config_of s) = 0.

(** The next halting point is not beyond [tmax]. *)
Definition halt_bounded (s : St) : Prop :=
  ordered (tmax s) -> (tnext s <=? tmax s)%float = true.

(** The time is not beyond [tmax]: when it has reached [tmax], it equals
    [tmax]. *)
Definition snapped (s : St) : Prop :=
  (tmax s <=? t s)%float = true -> (t s =? tmax s)%float = true.

Section Invariant.
Variable tau : realtype.
Variable cfg : Model_Config.
Hypothesis Hflags : cvode_flags_ok.
Hypothesis Hns : c_has_sensitivities cfg = 0.

Definition halting (s : St) : Prop :=
  tmax s = tau /\ configured cfg s /\ halt_bounded s.

(** After the integrator step of a model without ODEs, the time is
    rewound already. *)
Definition stepped (s : St) : Prop :=
  halting s /\ (c_is_ode cfg = 0 -> snapped s).

Definition rewound (s : St) : Prop := halting s /\ snapped s.

Definition any_error (_ : sim_error) (_ : St) : Prop := True.

Lemma halting_core : CoreEffects halting any_error (has_config cfg).
Proof.
  field_effects.
  - apply config_model_effects.
  - intros s m (_ & H & _) Hm. now apply H.
  - intros s m' (H1 & H2 & H3) Hm. split; [exact H1|].
    split; [now apply configured_set | exact H3].
Qed.

Lemma stepped_core : CoreEffects stepped any_error (has_config cfg).
Proof.
  field_effects.
  - apply config_model_effects.
  - intros s m ((_ & H & _) & _) Hm. now apply H.
  - intros s m' ((H1 & H2 & H3) & H4) Hm. split; [|exact H4].
    split; [exact H1|]. split; [now apply configured_set | exact H3].
Qed.

Lemma rewound_core : CoreEffects rewound any_error (has_config cfg).
Proof.
  field_effects.
  - apply config_model_effects.
  - intros s m ((_ & H & _) & _) Hm. now apply H.
  - intros s m' ((H1 & H2 & H3) & H4) Hm. split; [|exact H4].
    split; [exact H1|]. split; [now apply configured_set | exact H3].
Qed.

Lemma halting_effects : Effects halting any_error (has_config cfg).
Proof.
  apply effects_free; try (intros ? ? H; exact H).
  - apply halting_core.
  - intros; exact Logic.I.
Qed.

Lemma rewound_effects : Effects rewound any_error (has_config cfg).
Proof.
  apply effects_free; try (intros ? ? H; exact H).
  - apply rewound_core.
  - intros; exact Logic.I.
Qed.

Lemma rewound_halt : HaltEffects rewound.
Proof.
  split.
  - intros s ((H1 & H2 & H3) & H4). split; [|exact H4].
    split; [exact H1|]. split; [exact H2|].
    intros Ho. now apply leb_refl.
  - intros x s ((H1 & H2 & H3) & H4). split; [|exact H4].
    split; [exact H1|]. split; [exact H2|].
    intros Ho. simpl in *. specialize (H3 Ho).
    eapply leb_trans; [|exact H3].
    apply fmin_le_l. eapply leb_ordered_l, H3.
Qed.

(** The time that does not exceed the next halting point does not exceed
    [tmax]. *)
Lemma not_beyond_snapped (s : St) :
  halt_bounded s -> (tnext s <? t s)%float = false -> snapped s.
Proof.
  intros Hb Hlt Hge.
  pose proof (leb_ordered_l _ _ Hge) as Ho.
  pose proof (leb_ordered_r _ _ Hge) as Hot.
  specialize (Hb Ho).
  apply leb_antisym; [|exact Hge].
  eapply leb_trans; [|exact Hb].
  apply not_ltb_leb; [exact Hot | eapply leb_ordered_l, Hb | exact Hlt].
Qed.

Lemma at_tnext_snapped (s : St) :
  halt_bounded s -> t s = tnext s -> snapped s.
Proof.
  intros Hb Heq Hge. rewrite Heq in *.
  apply leb_antisym; [|exact Hge].
  apply Hb. eapply leb_ordered_l, Hge.
Qed.

Lemma at_tmax_snapped (s : St) : t s = tmax s -> snapped s.
Proof.
  intros Heq Hge. rewrite Heq in *. now apply leb_antisym.
Qed.

Lemma rewind_or_root_snaps fc fr s :
  halting s -> wp (rewind_or_root W fc fr) (fun _ => rewound) any_error s.
Proof.
  intros Hs. unfold rewind_or_root.
  apply wp_bind, wp_gets, wp_bind, wp_gets, wp_bind, wp_with_model_gets.
  intros m Hm.
  assert (Hm0 : has_sensitivities m = 0).
  { destruct Hs as (_ & Hc & _). specialize (Hc m Hm).
    rewrite <- Hns, <- Hc. reflexivity. }
  rewrite Hm0. destruct (decide (0 <> 0)) as [|_]; [congruence|].
  destruct (tnext s <? t s)%float eqn:Lt.
  - apply wp_bind, wp_gets. cbn beta.
    destruct (CVodeGetDky W _ _) as [f v].
    apply wp_bind, wp_modify, wp_bind.
    assert (Hend : forall (x : St), halting x -> tnext x = tnext s ->
      wp (ret tt ;;; modify (set_t (tnext s)) ;;; ret 1)
         (fun _ => rewound) any_error x).
    { intros x Hx Hn. apply wp_bind, wp_ret, wp_bind, wp_modify, wp_ret.
      split; [exact Hx|]. apply at_tnext_snapped; [apply Hx | now simpl]. }
    destruct (check_cvode_flag f).
    + now apply wp_clean_raise.
    + apply wp_ret. now apply Hend.
  - apply wp_bind, wp_ret.
    eapply (wp_bind_pres rewound);
      [apply (pres_record_root W _ _ _ rewound_effects) | |].
    + split; [exact Hs|]. apply not_beyond_snapped; [apply Hs | exact Lt].
    + intros _ s' Hs'. exact Hs'.
Qed.

Lemma call_CVode_flag s :
  halting s ->
  wp (call_CVode W)
     (fun flag s' => halting s' /\
        (flag < 0 \/ flag = CV_SUCCESS \/ flag = CV_ROOT_RETURN))
     any_error s.
Proof.
  intros Hs. unfold call_CVode. apply wp_bind, wp_gets. cbv zeta.
  eapply wp_bind_pres; [apply (pres_rhs_calls W _ _ _ halting_core) | exact Hs |].
  intros _ s1 Hs1. apply wp_bind, wp_modify, wp_bind, wp_modify, wp_bind,
    wp_modify, wp_ret.
  split; [exact Hs1 | apply Hflags].
Qed.

Lemma integrator_step_flag s :
  halting s ->
  wp (integrator_step W)
     (fun flag s' =>
        stepped s' /\
        bool_decide (flag = CV_SUCCESS) || bool_decide (flag = CV_ROOT_RETURN)
        = true)
     any_error s.
Proof.
  intros Hs. unfold integrator_step. apply wp_bind, wp_with_model_gets.
  intros m Hm.
  assert (Hode : is_ode m = c_is_ode cfg).
  { destruct Hs as (_ & Hc & _). rewrite <- (Hc m Hm). reflexivity. }
  destruct (decide (is_ode m <> 0)) as [Ho|Hz].
  - apply wp_bind. eapply wp_mono; [now apply call_CVode_flag | | auto].
    intros flag s1 [Hs1 Hf]. simpl. unfold check_cvode_flag.
    destruct (bool_decide (flag < 0)) eqn:Neg.
    + apply wp_bind.
      eapply wp_mono;
        [ apply (pres_write_error_outputs _ _ _ halting_core);
          [apply heap_free_out; intros h x H; exact H | exact Hs1] | | auto ].
      intros _ s2 _. now apply wp_clean_raise.
    + apply wp_ret. apply bool_decide_eq_false in Neg. split.
      * split; [exact Hs1 | intros H0; congruence].
      * destruct Hf as [H|[->| ->]]; [contradiction | reflexivity | reflexivity].
  - apply wp_bind, wp_modify, wp_ret. split; [|reflexivity].
    destruct Hs as (H1 & H2 & H3). split; [now split|]. intros _.
    destruct (tnext s <? tmax s)%float eqn:Lt.
    + intros Hge. simpl in *.
      pose proof (ltb_irrefl_leb _ _ Hge). congruence.
    + now apply at_tmax_snapped.
Qed.

Lemma turn_snaps fuel fr s :
  halting s ->
  wp (step_body W fuel fr)
     (fun r s' => halting s' /\ (snd r = true -> (t s' =? tau)%float = true))
     any_error s.
Proof.
  intros Hs. unfold step_body.
  eapply wp_bind_pres;
    [apply (pres_backup_state _ _ _ halting_core) | exact Hs |].
  { intros v x H. exact H. }
  intros _ s1 Hs1. apply wp_bind.
  eapply wp_mono; [now apply integrator_step_flag | | auto].
  intros flag s2 [Hs2 Hflag]. simpl.
  eapply wp_bind_pres;
    [apply pres_check_progress_free | exact Hs2 |].
  { intros v x H. exact H. }
  { intros; exact Logic.I. }
  intros _ s3 Hs3. apply wp_bind, wp_modify. rewrite Hflag.
  apply wp_bind. unfold after_step. apply wp_bind, wp_with_model_gets.
  intros m Hm.
  assert (Hode : is_ode m = c_is_ode cfg).
  { destruct Hs3 as ((_ & Hc & _) & _). rewrite <- (Hc m Hm). reflexivity. }
  assert (Hafter : forall fr' x, rewound x ->
    wp (log_and_pace W fuel fr')
       (fun fr'' x' =>
          wp (modify (fun s => if ESys_eq W (t s) (tmax s)
                               then set_t (tmax s) s else s) ;;;
              let* tt' := gets t in
              let* tmax' := gets tmax in
              ret (fr'', (tmax' <=? tt')%float))
             (fun r s' => halting s' /\
                (snd r = true -> (t s' =? tau)%float = true))
             any_error x')
       any_error x).
  { intros fr' x Hx.
    eapply wp_mono;
      [ apply (pres_log_and_pace W _ _ _ rewound_effects fuel fr' rewound_halt
                 x Hx) | | auto ].
    intros fr'' x' Hx'. simpl in Hx'.
    apply wp_bind, wp_modify, wp_bind, wp_gets, wp_bind, wp_gets, wp_ret.
    destruct Hx' as [(H1 & H2 & H3) H4].
    destruct (ESys_eq W (t x') (tmax x')).
    - split; [now split|]. simpl. rewrite H1. intros Hge.
      apply leb_antisym; exact Hge.
    - split; [now split|]. simpl. rewrite <- H1. exact H4. }
  apply wp_bind. destruct (decide (is_ode m <> 0)) as [Ho|Hz].
  - eapply wp_mono; [apply rewind_or_root_snaps; apply Hs3 | | auto].
    intros fr' x Hx. simpl in Hx. now apply Hafter.
  - apply wp_ret. apply Hafter. destruct Hs3 as [H1 H2].
    split; [exact H1|]. apply H2. rewrite <- Hode.
    destruct (decide (is_ode m = 0)); [assumption | contradiction].
Qed.

Definition finished_at (r : step_result) (_ : St) : Prop :=
  match r with
  | Finished v => (v =? tau)%float = true
  | Yielded _ => True
  end.

Definition at_end (s : St) : Prop := (t s =? tau)%float = true.

Lemma at_end_core : CoreEffects at_end any_error (fun _ => True).
Proof. field_effects. Qed.

Lemma loop_finishes_at_tmax n fuel fr k s :
  halting s -> wp (step_loop W n fuel fr k) finished_at any_error s.
Proof.
  apply (wp_step_loop W halting any_error
           (fun fin s' => halting s' /\
              (fin = true -> (t s' =? tau)%float = true))).
  - intros fr' s' Hs'. now apply turn_snaps.
  - intros s' [_ Hs']. specialize (Hs' eq_refl).
    eapply (wp_bind_pres at_end);
      [ apply (pres_write_final_outputs_free _ _ _ at_end_core)
      | exact Hs' |].
    { intros h x H. exact H. }
    intros _ s1 Hs1. apply wp_bind.
    eapply wp_mono; [apply sim_clean_spec | | contradiction].
    intros _ s2 ->. apply wp_bind, wp_gets, wp_ret. simpl.
    destruct (decide (initialized s1 = 0)); exact Hs1.
  - intros hs s' [Hs' _]. simpl. split; [exact Hs'|]. split; exact Logic.I.
Qed.

End Invariant.

(** C6. When a call of [step()] finishes the simulation (the loop is left
    because [t >= tmax], the final outputs are written and the driver is
    torn down), the float that it returns equals [tmax], as doubles
    compare. This holds for a model without sensitivities, when [CVode]
    returns [CV_SUCCESS], [CV_ROOT_RETURN] or a negative flag, from a state
    whose halting point [tnext] is not beyond [tmax]: the time is rewound
    to [tnext] when the integrator passes it, and set to [tmax] when it is
    within the tolerance of the pacing system. *)
Theorem finished_at_tmax fuel (s s' : St) v :
  cvode_flags_ok -> no_sensitivities s -> halt_bounded s ->
  sim_step W fuel s = Ok (Finished v) s' ->
  (v =? tmax s)%float = true.
Proof.
  intros Hflags Hns Hb Hrun.
  assert (H : wp (sim_step W fuel) (finished_at (tmax s)) any_error s).
  { apply (wp_sim_step W (halting (tmax s) (config_of s)) any_error
             (has_config (config_of s)) (halting_effects _ _)).
    - intros x Hx. now apply (loop_finishes_at_tmax (tmax s) (config_of s)).
    - split; [reflexivity|]. split; [apply configured_config_of | exact Hb]. }
  exact (wp_ok _ _ _ _ _ _ H Hrun).
Qed.

End FinalTime.

Lemma finished_at_tmax_witness :
  (t RefWorld.last_state =? tmax RefWorld.before_last)%float = true.
Proof.
  apply (finished_at_tmax RefWorld.W0 1000 RefWorld.before_last
           RefWorld.last_state).
  - intros s tn. simpl. unfold RefWorld.ref_CVode.
    destruct (cvode_mem s), (y s); simpl; auto; left; lia.
  - vm_compute. reflexivity.
  - intros _. vm_compute. reflexivity.
  - vm_compute. reflexivity.
Defined.
(** ** The model that [Model_Create] returns *)

Section Untouched.
Context {cvode_mem_t ESys FSys host : Type}.
Context (W : @World cvode_mem_t ESys FSys host).
Abbreviation St := (Sim cvode_mem_t ESys FSys host).
Variable l : loc.
Variable v : option (list PyObject).
Variable cfg : Model_Config.
Hypothesis Hns : c_has_sensitivities cfg = 0.
Hypothesis Hsinks : forall lists, c_log_lists cfg = Some lists -> PyRef l ∉ lists.

(** The list at [l] is none of the lists that the driver writes to, and
    holds [v]. *)
Definition untouched (s : St) : Prop :=
  configured cfg s /\ py_heap s !! l = v /\ rf_list s <> PyRef l /\
  state_py s <> PyRef l /\ bound_py s <> PyRef l.

Lemma untouched_core :
  CoreEffects untouched (torn_down_error untouched) (has_config cfg).
Proof.
  field_effects.
  - apply config_model_effects.
  - intros s m (H & _) Hm. now apply H.
  - intros s m' (H1 & H2) Hm. split; [now apply configured_set | exact H2].
  - intros e s _ Hs. now exists s.
Qed.

Lemma untouched_effects :
  Effects untouched (torn_down_error untouched) (has_config cfg).
Proof.
  split.
  - apply untouched_core.
  - intros x h' s (H1 & H2 & H3 & H4) Ha. split; [exact H1|].
    split; [|now split]. simpl. rewrite <- H2.
    eapply PyList_Append_other; [exact Ha | exact H3].
  - intros svec _. apply (pres_log_row_plain untouched (has_config cfg)).
    + apply untouched_core.
    + intros m Hm. rewrite <- Hns, <- Hm. reflexivity.
    + intros s m flag h' (H1 & H2 & H3) Hm Hl.
      assert (Hu : untouched (set_py_heap h' s)).
      { split; [exact H1|]. split; [|exact H3]. simpl. rewrite <- H2.
        eapply Model_Log_other; [exact Hl|].
        intros lists Hlists. apply Hsinks.
        rewrite <- (H1 m Hm). exact Hlists. }
      split; [exact Hu|]. intros _. now exists (set_py_heap h' s).
    + intros s Hs. now exists s.
  - apply (pres_next_log_point_free _ _ _ untouched_core);
      intros x s H; exact H.
Qed.

Lemma untouched_out : OutEffects untouched.
Proof.
  split; intros i x s (H1 & H2 & H3 & H4 & H5);
    (split; [exact H1|]; split; [|now repeat split]); simpl; rewrite <- H2;
    now apply PyList_SetItem_other.
Qed.

Lemma untouched_halt : HaltEffects untouched.
Proof. split; intros; assumption. Qed.

Lemma sim_step_untouched fuel s :
  untouched s ->
  wp (sim_step W fuel) (kept untouched) (torn_down_error untouched) s.
Proof.
  apply (sim_step_keeps W untouched (has_config cfg) untouched_effects);
    try (intros x s' H; exact H).
  - apply untouched_halt.
  - apply untouched_out.
  - intros m Hm. rewrite <- Hns, <- Hm. reflexivity.
Qed.

Lemma torn_down_untouched s' :
  torn_down untouched s' -> py_heap s' !! l = v.
Proof.
  intros (s & (_ & H & _) & ->). unfold after_clean.
  destruct (decide _); exact H.
Qed.

End Untouched.

(** *** The branches for sensitivities are not taken *)

Section Plain.
Context {cvode_mem_t ESys FSys host : Type}.
Context (W : @World cvode_mem_t ESys FSys host).
Abbreviation St := (Sim cvode_mem_t ESys FSys host).

Lemma with_model_gets_ok {A} (f : Model_Memory -> A) (s : St) m :
  model s = Some m -> with_model (gets f) s = Ok (f m) s.
Proof.
  intros Hm. unfold with_model, zoom, gets. rewrite Hm.
  now rewrite (set_model_same s m Hm).
Qed.

Lemma config_of_plain (s : St) m :
  model s = Some m -> c_has_sensitivities (config_of s) = 0 ->
  has_sensitivities m = 0.
Proof. unfold config_of. now intros ->. Qed.

Lemma init_udata_plain (s : St) :
  model s <> None -> c_has_sensitivities (config_of s) = 0 ->
  init_udata W s = Ok tt s.
Proof.
  intros Hm Hns. destruct (model s) as [m|] eqn:E; [|contradiction].
  unfold init_udata. erewrite bind_ok by (apply with_model_gets_ok; exact E).
  rewrite (config_of_plain s m E Hns). reflexivity.
Qed.

Lemma init_s_state_plain (s : St) :
  model s <> None -> c_has_sensitivities (config_of s) = 0 ->
  init_s_state s = Ok tt s.
Proof.
  intros Hm Hns. destruct (model s) as [m|] eqn:E; [|contradiction].
  unfold init_s_state. erewrite bind_ok by (apply with_model_gets_ok; exact E).
  rewrite (config_of_plain s m E Hns). reflexivity.
Qed.

Lemma log_row_plain svec svec' (s : St) :
  c_has_sensitivities (config_of s) = 0 ->
  log_row svec s = log_row svec' s.
Proof.
  intros Hns. unfold log_row, bind.
  destruct (Model_Log_global s) as [flag s1|e s1| |] eqn:L; try reflexivity.
  destruct (decide (flag <> Model_OK)) as [|Hok]; [reflexivity|].
  assert (H : exists m, model s1 = Some m /\ has_sensitivities m = 0).
  { unfold Model_Log_global, bind, gets in L.
    destruct (model s) as [m|] eqn:E.
    - destruct (Model_Log m (py_heap s)) as [[f h']|]; [|discriminate].
      simpl in L. injection L as <- <-. exists m.
      split; [exact E | exact (config_of_plain s m E Hns)].
    - injection L as <- <-. exfalso. apply Hok. discriminate. }
  destruct H as (m & Hm & H0).
  rewrite (with_model_gets_ok _ s1 m Hm), H0. reflexivity.
Qed.

End Plain.


(** ** Where the driver does not do what is claimed *)

(** C1. The error of the zero-step limit leaves the output lists as they
    were. In the stalled run the fifth call of [step()] raises that error
    after 500 turns; the driver is torn down, and the list for the bound
    variables still holds the zeros that the host put there, although
    [tlast] is 1e14 and 500 evaluations were counted. Only the branch for
    a failure of [CVode] writes [ylast], [tlast] and the bound variables
    to the lists. *)
Theorem zero_step_limit_leaves_outputs :
  match sim_step RefWorld.W0 5 (RefWorld.after_turns 400 RefWorld.stalled) with
  | Raise e s' =>
      e = zero_step_error /\
      initialized s' = 0 /\
      bound_py s' = PyRef 1%nat /\
      py_heap s' !! 1%nat = Some (RefWorld.floats [0; 0; 0; 0]%float) /\
      py_heap s' !! 1%nat = py_heap RefWorld.stalled !! 1%nat /\
      py_heap s' !! 0%nat = py_heap RefWorld.stalled !! 0%nat /\
      tlast s' = 1e14%float /\
      evaluations s' = 500
  | _ => False
  end.
Proof. vm_compute. repeat split; reflexivity. Qed.

(** C7. [eval_derivatives] takes the number of pacing values from the
    static variable [n_pace], which the last [init] left. With the same
    arguments and the same lists, the call in a process that never
    initialised a simulation ([n_pace = 0]) reads the pace outside its
    block, and the call after an [init] with one protocol returns and
    writes the derivatives. *)
Theorem eval_derivatives_depends_on_n_pace :
  py_heap RefWorld.initialised = py_heap (RefWorld.fresh RefWorld.eval_heap) /\
  n_pace (RefWorld.fresh RefWorld.eval_heap) = 0 /\
  n_pace RefWorld.initialised = 1 /\
  sim_eval_derivatives RefWorld.W0 RefWorld.eval_call
    (RefWorld.fresh RefWorld.eval_heap) = Undefined /\
  match sim_eval_derivatives RefWorld.W0 RefWorld.eval_call
          RefWorld.initialised with
  | Ok _ s' =>
      exists d, py_heap s' !! 9%nat = Some (PyFloat d :: RefWorld.floats
        [-0.0049496148602995449; 9.0202529913095339e-06;
         -0.00037040986692844931; 0.00036806772182178298;
         -3.5501015051969904e-07; -2.0461393315621506e-07;
         -6.9943069244215423e-06]%float)
  | _ => False
  end.
Proof.
  split; [vm_compute; reflexivity|]. split; [reflexivity|].
  split; [vm_compute; reflexivity|]. split; [vm_compute; reflexivity|].
  vm_compute. eexists. reflexivity.
Qed.
(** ** The rows of the log *)

(** A row of [Model_Log] over distinct lists: every sink receives one
    value. *)
Lemma log_from_rows k : forall i m lists vars (h : pyheap) flag h' ls,
  log_from k i m lists vars h = Some (flag, h') ->
  (forall j l, ls !! j = Some l -> lists !! (i + j)%nat = Some (PyRef l)) ->
  length ls = k -> NoDup ls ->
  (forall l, l ∈ ls -> is_Some (h !! l)) ->
  flag = Model_OK /\
  forall l,
    (l ∈ ls -> length <$> h' !! l = S <$> (length <$> h !! l)) /\
    (l ∉ ls -> h' !! l = h !! l).
Proof.
  induction k as [|k IH]; intros i m lists vars h flag h' ls Hlog Hls Hk Hnd Hin.
  - destruct ls; [|discriminate]. simpl in Hlog. injection Hlog as <- <-.
    split; [reflexivity|]. intros l. split; [|reflexivity].
    intros H. inversion H.
  - destruct ls as [|l0 ls]; [discriminate|]. simpl in Hlog.
    destruct (vars !! i) as [p|]; [|discriminate]. simpl in Hlog.
    destruct (load p m) as [x|]; [|discriminate]. simpl in Hlog.
    pose proof (Hls 0%nat l0 eq_refl) as H0. rewrite Nat.add_0_r in H0.
    rewrite H0 in Hlog. simpl in Hlog.
    unfold call_append, PyList_Append, pyheap in *.
    destruct (Hin l0) as [items Hitems]; [left|].
    rewrite Hitems in Hlog.
    apply NoDup_cons in Hnd as [Hl0 Hnd].
    destruct (IH (S i) m lists vars _ flag h' ls Hlog) as [Hf Hrows].
    + intros j l Hj. specialize (Hls (S j) l Hj).
      now rewrite Nat.add_succ_r in Hls.
    + simpl in Hk. lia.
    + exact Hnd.
    + intros l Hl. destruct (decide (l = l0)) as [->|Hne].
      * rewrite lookup_insert_eq. eauto.
      * rewrite lookup_insert_ne by congruence. apply Hin. now right.
    + split; [exact Hf|]. intros l. split.
      * intros Hl. apply elem_of_cons in Hl as [->|Hl].
        -- rewrite (proj2 (Hrows l0) Hl0).
           rewrite lookup_insert_eq, Hitems. simpl.
           rewrite length_app. simpl. f_equal. lia.
        -- rewrite (proj1 (Hrows l) Hl).
           rewrite lookup_insert_ne; [reflexivity|].
           intros ->. contradiction.
      * intros Hl. apply not_elem_of_cons in Hl as [Hne Hl].
        rewrite (proj2 (Hrows l) Hl).
        now rewrite lookup_insert_ne.
Qed.

(** [k] values were appended to every list of [ls] since [h0]. *)
Definition rows_since (ls : list loc) (h0 h : pyheap) (k : nat) : Prop :=
  forall l, l ∈ ls ->
    exists items0 items,
      h0 !! l = Some items0 /\ h !! l = Some items /\
      length items = (length items0 + k)%nat.

Definition rows_equal (ls : list loc) (h0 h : pyheap) : Prop :=
  exists k, rows_since ls h0 h k.

Lemma rows_since_same ls (h0 h h' : pyheap) k :
  rows_since ls h0 h k ->
  (forall l, l ∈ ls -> length <$> h' !! l = length <$> h !! l) ->
  rows_since ls h0 h' k.
Proof.
  intros Hr Hsame l Hl. destruct (Hr l Hl) as (items0 & items & H0 & H1 & H2).
  specialize (Hsame l Hl). rewrite H1 in Hsame. simpl in Hsame.
  destruct (h' !! l) as [items'|]; [|discriminate].
  simpl in Hsame. injection Hsame as Hs.
  exists items0, items'. repeat split; [exact H0 | lia].
Qed.

Lemma rows_since_row ls (h0 h h' : pyheap) k :
  rows_since ls h0 h k ->
  (forall l, l ∈ ls -> length <$> h' !! l = S <$> (length <$> h !! l)) ->
  rows_since ls h0 h' (S k).
Proof.
  intros Hr Hrow l Hl. destruct (Hr l Hl) as (items0 & items & H0 & H1 & H2).
  specialize (Hrow l Hl). rewrite H1 in Hrow. simpl in Hrow.
  destruct (h' !! l) as [items'|]; [|discriminate].
  simpl in Hrow. injection Hrow as Hs.
  exists items0, items'. repeat split; [exact H0 | lia].
Qed.

Lemma Model_Log_rows m (h : pyheap) flag h' ls :
  Model_Log m h = Some (flag, h') ->
  _log_lists m = Some (PyRef <$> ls) ->
  Z.to_nat (n_logged_variables m) = length ls ->
  NoDup ls -> (forall l, l ∈ ls -> is_Some (h !! l)) ->
  (forall l, l ∈ ls -> length <$> h' !! l = S <$> (length <$> h !! l)) \/
  h' = h.
Proof.
  unfold Model_Log. intros Hlog Hlists Hn Hnd Hin.
  destruct (decide _); [right; now injection Hlog as _ <-|].
  rewrite Hlists in Hlog. simpl in Hlog.
  destruct (_log_vars m) as [vars|]; [|discriminate]. simpl in Hlog.
  rewrite Hn in Hlog. left. intros l Hl.
  destruct (log_from_rows _ 0 m _ vars h flag h' ls Hlog) as [_ Hrows]; auto.
  - intros j l' Hj. simpl. rewrite list_lookup_fmap, Hj. reflexivity.
  - now apply Hrows.
Qed.

Section Rows.
Context {cvode_mem_t ESys FSys host : Type}.
Context (W : @World cvode_mem_t ESys FSys host).
Abbreviation St := (Sim cvode_mem_t ESys FSys host).
Variable ls : list loc.
Variable h0 : pyheap.
Variable cfg : Model_Config.
Hypothesis Hns : c_has_sensitivities cfg = 0.
Hypothesis Hlists : c_log_lists cfg = Some (PyRef <$> ls).
Hypothesis Hn : Z.to_nat (c_n_logged_variables cfg) = length ls.
Hypothesis Hnd : NoDup ls.

(** The sinks have received equally many values since [h0], and the list
    of roots is none of them. *)
Definition logging (s : St) : Prop :=
  (configured cfg s /\ is_Some (model s)) /\
  (rf_list s ∉ (PyRef <$> ls)) /\
  rows_equal ls h0 (py_heap s).

Lemma logging_core :
  CoreEffects logging (torn_down_error logging) (has_config cfg).
Proof.
  field_effects.
  - apply config_model_effects.
  - intros s m ((H & _) & _) Hm. now apply H.
  - intros s m' (H1 & H2) Hm. split; [|exact H2].
    split; [now apply configured_set | simpl; eauto].
  - intros e s _ Hs. now exists s.
Qed.

Lemma logging_heap (s : St) (h' : pyheap) :
  logging s ->
  (forall l, l ∈ ls -> length <$> h' !! l = length <$> py_heap s !! l) ->
  logging (set_py_heap h' s).
Proof.
  intros (H1 & H2 & k & H3) Hsame. split; [exact H1|]. split; [exact H2|].
  exists k. now apply (rows_since_same ls h0 (py_heap s)).
Qed.

Lemma logging_effects :
  Effects logging (torn_down_error logging) (has_config cfg).
Proof.
  split.
  - apply logging_core.
  - intros x h' s Hs Ha. apply logging_heap; [exact Hs|].
    intros l Hl. f_equal. eapply PyList_Append_other; [exact Ha|].
    intros E. destruct Hs as (_ & Hr & _). apply Hr. rewrite E.
    now apply list_elem_of_fmap_2.
  - intros svec _. apply (pres_log_row_plain logging (has_config cfg)).
    + apply logging_core.
    + intros m Hm. rewrite <- Hns, <- Hm. reflexivity.
    + intros s m flag h' Hs Hm Hl.
      assert (Hu : logging (set_py_heap h' s)).
      { destruct Hs as (H1 & H2 & k & H3).
        assert (Hc : model_config m = cfg) by now apply (proj1 H1).
        destruct (Model_Log_rows m (py_heap s) flag h' ls Hl) as [Hrow| ->].
        - rewrite <- Hlists, <- Hc. reflexivity.
        - rewrite <- Hn, <- Hc. reflexivity.
        - exact Hnd.
        - intros l Hin. destruct (H3 l Hin) as (? & items & _ & -> & _). eauto.
        - split; [exact H1|]. split; [exact H2|]. exists (S k).
          now apply (rows_since_row ls h0 (py_heap s)).
        - split; [exact H1|]. split; [exact H2|]. now exists k. }
      split; [exact Hu|]. intros _. now exists (set_py_heap h' s).
    + intros s Hs. now exists s.
  - apply (pres_next_log_point_free _ _ _ logging_core);
      intros x s H; exact H.
Qed.

Lemma logging_out : OutEffects logging.
Proof.
  split; intros i x s Hs; (apply logging_heap; [exact Hs|]);
    intros l _; apply PyList_SetItem_length.
Qed.

Lemma logging_halt : HaltEffects logging.
Proof. split; intros; assumption. Qed.

Lemma sim_step_logging fuel s :
  logging s ->
  wp (sim_step W fuel) (kept logging) (torn_down_error logging) s.
Proof.
  apply (sim_step_keeps W logging (has_config cfg) logging_effects);
    try (intros x s' H; exact H).
  - apply logging_halt.
  - apply logging_out.
  - intros m Hm. rewrite <- Hns, <- Hm. reflexivity.
Qed.

Lemma torn_down_logging s' :
  torn_down logging s' -> rows_equal ls h0 (py_heap s').
Proof.
  intros (s & (_ & _ & H) & ->). unfold after_clean.
  destruct (decide _); exact H.
Qed.

End Rows.

Section EqualRows.
Context {cvode_mem_t ESys FSys host : Type}.
Context (W : @World cvode_mem_t ESys FSys host).
Abbreviation St := (Sim cvode_mem_t ESys FSys host).

(** The sinks of the log are the distinct lists [ls], the list of roots is
    none of them, and the model has no sensitivities. *)
Definition distinct_sinks (ls : list loc) (s : St) : Prop :=
  NoDup ls /\
  c_log_lists (config_of s) = Some (PyRef <$> ls) /\
  Z.to_nat (c_n_logged_variables (config_of s)) = length ls /\
  c_has_sensitivities (config_of s) = 0 /\
  (rf_list s ∉ (PyRef <$> ls)) /\
  forall l, l ∈ ls -> is_Some (py_heap s !! l).

Lemma distinct_sinks_logging ls (s : St) :
  distinct_sinks ls s -> logging ls (py_heap s) (config_of s) s.
Proof.
  intros (H1 & H2 & H3 & H4 & H5 & H6). split; [split|split].
  - apply configured_config_of.
  - unfold config_of in H2. destruct (model s); [eauto | discriminate].
  - exact H5.
  - exists 0%nat. intros l Hl. destruct (H6 l Hl) as [items Hi].
    exists items, items. repeat split; [exact Hi | exact Hi | lia].
Qed.

Lemma logging_distinct_sinks ls h0 (s0 s : St) :
  distinct_sinks ls s0 -> logging ls h0 (config_of s0) s ->
  distinct_sinks ls s.
Proof.
  intros (H1 & H2 & H3 & H4 & _) ((Hc & [m Hm]) & Hr & k & Hk).
  assert (E : config_of s = config_of s0).
  { unfold config_of at 1. rewrite Hm. now apply Hc. }
  unfold distinct_sinks. rewrite E. repeat split; try assumption.
  intros l Hl. destruct (Hk l Hl) as (? & items & _ & -> & _). eauto.
Qed.


End EqualRows.


